(** * Kargo promotion engine: desired-revision resolver, Bookkeeper
      mechanism, git-push configuration schema and chart version diff.

    Shallow embedding of
      - [internal/argocd/revision.go]            (module [Argocd])
      - the Bookkeeper promotion mechanism       (module [Bookkeeper])
      - the [GitPushConfig] JSON schema          (module [GitPushSchema])
      - [compareChartVersions]                   (module [ChartDiff])
    Go strings are byte strings and are modelled by [string]; Go slices
    that are only read are modelled by [list]; a slice that is written
    through is modelled by a location in a store of backing arrays. *)

From Stdlib Require Import String Ascii List ZArith Lia Bool.
From stdpp Require Import base option list gmap strings.

Local Open Scope string_scope.
Local Open Scope list_scope.

Set Warnings "-register-all".

(** ** The functions of Go's [strings] package used by the resolver *)

Module GoStrings.

(** [strings.HasPrefix]. *)
Fixpoint HasPrefix (s prefix : string) : bool :=
  match prefix, s with
  | EmptyString, _ => true
  | String _ _, EmptyString => false
  | String a p', String b s' => Ascii.eqb a b && HasPrefix s' p'
  end.

(** [strings.Contains(s, substr)]: [substr] occurs at some offset of [s]. *)
Fixpoint Contains (s substr : string) : bool :=
  HasPrefix s substr ||
  match s with
  | EmptyString => false
  | String _ s' => Contains s' substr
  end.

(** [strings.HasSuffix]: [len(s) >= len(suffix) &&
    s[len(s)-len(suffix):] == suffix]. *)
Definition HasSuffix (s suffix : string) : bool :=
  (String.length suffix <=? String.length s)%nat &&
  String.eqb
    (substring (String.length s - String.length suffix)
               (String.length suffix) s)
    suffix.

(** [strings.TrimSuffix]: [s[:len(s)-len(suffix)]] when [s] ends with
    [suffix], and [s] otherwise. *)
Definition TrimSuffix (s suffix : string) : string :=
  if HasSuffix s suffix
  then substring 0 (String.length s - String.length suffix) s
  else s.

End GoStrings.

(** ** Data model of the API types read by the resolver *)

(** [kargoapi.FreightOrigin]: the producer of a piece of freight. *)
Record FreightOrigin := mkOrigin {
  origin_Kind : string;
  origin_Name : string
}.

(** [kargoapi.GitCommit], restricted to the fields the code reads. *)
Record GitCommit := mkCommit {
  commit_RepoURL : string;
  commit_ID : string;
  commit_HealthCheckCommit : string
}.

(** [kargoapi.Chart]. *)
Record Chart := mkChart {
  chart_RepoURL : string;
  chart_Name : string;
  chart_Version : string
}.

(** [kargoapi.FreightReference]. *)
Record FreightReference := mkFreight {
  freight_Origin : FreightOrigin;
  freight_Commits : list GitCommit;
  freight_Charts : list Chart
}.

(** [kargoapi.ArgoCDSourceUpdate]: a per-source override. *)
Record ArgoCDSourceUpdate := mkSourceUpdate {
  su_Origin : option FreightOrigin;
  su_RepoURL : string;
  su_Chart : string
}.

(** [kargoapi.ArgoCDAppUpdate]: the promotion-wide update of one
    application. *)
Record ArgoCDAppUpdate := mkAppUpdate {
  au_Origin : option FreightOrigin;
  au_SourceUpdates : list ArgoCDSourceUpdate
}.

(** [argocd.ApplicationSource]. *)
Record ApplicationSource := mkSource {
  src_RepoURL : string;
  src_Chart : string
}.

(** [argocd.Application], restricted to [Spec.Source] (a pointer, [None]
    is nil) and [Spec.Sources] (a slice, [None] is the nil slice). *)
Record Application := mkApp {
  app_Source : option ApplicationSource;
  app_Sources : option (list ApplicationSource)
}.

#[global] Instance FreightOrigin_eq_dec : EqDecision FreightOrigin.
Proof. solve_decision. Defined.

(** ** [internal/argocd/revision.go] *)

Module Argocd.

(** The [any]-typed [targetPromoMechanism]: either the pointer
    [&update.SourceUpdates[i]] or the pointer [update] itself. *)
Inductive PromoMechanism :=
| MechSourceUpdate (i : nat)
| MechAppUpdate.

(** The two [fmt.Errorf] wrappers of the resolver, kept structured:
    the repo URL that is quoted and the wrapped cause. *)
Inductive ResolveError (E : Type) :=
| ErrFindingChart (repo : string) (cause : E)
| ErrFindingCommit (repo : string) (cause : E).
Arguments ErrFindingChart {E}.
Arguments ErrFindingCommit {E}.

(** What a call of the resolver ends in: the two return values, or a
    run-time panic (nil pointer dereference). *)
Inductive Outcome (E : Type) :=
| Returned (revisions : list string) (err : option (ResolveError E))
| Panicked.
Arguments Returned {E}.
Arguments Panicked {E}.

(** A freight lookup the resolver performed, with the arguments it
    passed to the finder. *)
Inductive Lookup :=
| ChartLookup (desiredOrigin : option FreightOrigin)
              (repoURL chartName : string)
| CommitLookup (desiredOrigin : option FreightOrigin) (repoURL : string).


(** A run of the resolver: its outcome and the lookups it made, oldest
    first. *)
Record Run (E : Type) := mkRun {
  outcome : Outcome E;
  lookups : list Lookup
}.
Arguments mkRun {E}.
Arguments outcome {E}.
Arguments lookups {E}.

(** The search loops of lines 50-56 and 105-111:
    [for i := range update.SourceUpdates { if match { ...; break } }],
    started at index [i]. *)
Fixpoint findSourceUpdate (matches : ArgoCDSourceUpdate -> bool)
    (sourceUpdates : list ArgoCDSourceUpdate) (i : nat) : option nat :=
  match sourceUpdates with
  | [] => None
  | sourceUpdate :: rest =>
      if matches sourceUpdate then Some i
      else findSourceUpdate matches rest (S i)
  end.

(** Line 52. *)
Definition matchesChartSource (source : ApplicationSource)
    (sourceUpdate : ArgoCDSourceUpdate) : bool :=
  String.eqb (su_RepoURL sourceUpdate) (src_RepoURL source) &&
  String.eqb (su_Chart sourceUpdate) (src_Chart source).

(** Line 107. *)
Definition matchesGitSource (source : ApplicationSource)
    (sourceUpdate : ArgoCDSourceUpdate) : bool :=
  String.eqb (su_RepoURL sourceUpdate) (src_RepoURL source).

(** Lines 49-59 and 104-114: the override found, else [update]. *)
Definition targetPromoMechanism (matches : ArgoCDSourceUpdate -> bool)
    (update : ArgoCDAppUpdate) : PromoMechanism :=
  match findSourceUpdate matches (au_SourceUpdates update) 0 with
  | Some i => MechSourceUpdate i
  | None => MechAppUpdate
  end.

(** Lines 61-81: the arguments of the chart lookup. *)
Definition chartLookupKey (repoURL chartName : string) : string * string :=
  if negb (GoStrings.Contains repoURL "://")
  then ("oci://" +:+ GoStrings.TrimSuffix repoURL "/" +:+ "/" +:+ chartName,
        "")
  else (repoURL, chartName).

(** Lines 31-34: [app.Spec.Sources], or the one-element slice holding
    [*app.Spec.Source] when that is nil. [None] when both are nil
    (the guard of line 27 returns before). *)
Definition sourcesOf (app : Application) : option (list ApplicationSource) :=
  match app_Sources app with
  | Some sources => Some sources
  | None =>
      match app_Source app with
      | Some source => Some [source]
      | None => None
      end
  end.

(** Classification of a source by the [switch] of lines 41-99. *)
Definition isHelm (source : ApplicationSource) : bool :=
  negb (String.eqb (src_Chart source) "").

Definition isGit (source : ApplicationSource) : bool :=
  String.eqb (src_Chart source) "" &&
  negb (String.eqb (src_RepoURL source) "").

Definition classifiable (source : ApplicationSource) : bool :=
  isHelm source || isGit source.

(** The sources the loop ranges over (none when the guard of line 27
    returns early). *)
Definition inputSources (app : Application) : list ApplicationSource :=
  match sourcesOf app with
  | Some sources => sources
  | None => []
  end.

(** Lines 128-136: the revision a commit lookup contributes. *)
Definition commitRevision (commit : option GitCommit) : string :=
  match commit with
  | None => ""
  | Some c =>
      if negb (String.eqb (commit_HealthCheckCommit c) "")
      then commit_HealthCheckCommit c
      else commit_ID c
  end.

(** Lines 94-98: the revision a chart lookup contributes. *)
Definition chartRevision (chart : option Chart) : string :=
  match chart with
  | None => ""
  | Some c => chart_Version c
  end.



(** The mechanism the code selects for a source (lines 49-59 for a
    Helm source, 104-114 for a Git source). *)
Definition selectedMechanism (update : ArgoCDAppUpdate)
    (source : ApplicationSource) : PromoMechanism :=
  if isHelm source
  then targetPromoMechanism (matchesChartSource source) update
  else targetPromoMechanism (matchesGitSource source) update.

Section Resolver.

(** The stage object and the error values of the collaborators are
    opaque to the resolver. [ctx] and [cl] are only handed on to the
    finders, which are closed over them here. *)
Context {Stage Err : Type}.

(** [freight.GetDesiredOrigin], [freight.FindChart] and
    [freight.FindCommit] live in another package; the resolver is
    modelled for every implementation of them. [GetDesiredOrigin] gets
    the mechanism as a pointer into the update, here the update and the
    position in it. A finder returns a pointer and an error, as in Go. *)
Variable GetDesiredOrigin :
  Stage -> ArgoCDAppUpdate -> PromoMechanism -> option FreightOrigin.
Variable FindChart :
  Stage -> option FreightOrigin -> list FreightReference ->
  string -> string -> option Chart * option Err.
Variable FindCommit :
  Stage -> option FreightOrigin -> list FreightReference ->
  string -> option GitCommit * option Err.

Variable stage : Stage.
Variable frght : list FreightReference.

(** Lines 35-138: the loop over [sources], started with the
    revisions and lookups accumulated so far. [update] is a pointer:
    ranging over [update.SourceUpdates] panics when it is nil, and so
    does reading [app.Spec.Source.RepoURL] when [app.Spec.Source] is
    nil. *)
Fixpoint resolveSources (update : option ArgoCDAppUpdate)
    (app : Application) (sources : list ApplicationSource)
    (revisions : list string) (trace : list Lookup) : Run Err :=
  match sources with
  | [] => mkRun (Returned revisions None) trace
  | source :: rest =>
      if negb (String.eqb (src_Chart source) "") then
        match update with
        | None => mkRun Panicked trace
        | Some upd =>
            let target :=
              targetPromoMechanism (matchesChartSource source) upd in
            let desiredOrigin := GetDesiredOrigin stage upd target in
            match app_Source app with
            | None => mkRun Panicked trace
            | Some appSource =>
                let '(repoURL, chartName) :=
                  chartLookupKey (src_RepoURL appSource)
                                 (src_Chart appSource) in
                let trace' :=
                  trace ++ [ChartLookup desiredOrigin repoURL chartName] in
                match FindChart stage desiredOrigin frght
                                repoURL chartName with
                | (_, Some err) =>
                    mkRun (Returned revisions
                             (Some (ErrFindingChart (src_RepoURL source)
                                                    err)))
                          trace'
                | (None, None) =>
                    resolveSources update app rest
                                   (revisions ++ [""]) trace'
                | (Some chart, None) =>
                    resolveSources update app rest
                                   (revisions ++ [chart_Version chart])
                                   trace'
                end
            end
        end
      else if negb (String.eqb (src_RepoURL source) "") then
        match update with
        | None => mkRun Panicked trace
        | Some upd =>
            let target :=
              targetPromoMechanism (matchesGitSource source) upd in
            let desiredOrigin := GetDesiredOrigin stage upd target in
            let trace' :=
              trace ++ [CommitLookup desiredOrigin (src_RepoURL source)] in
            match FindCommit stage desiredOrigin frght
                             (src_RepoURL source) with
            | (_, Some err) =>
                mkRun (Returned revisions
                         (Some (ErrFindingCommit (src_RepoURL source)
                                                 err)))
                      trace'
            | (None, None) =>
                resolveSources update app rest (revisions ++ [""]) trace'
            | (Some commit, None) =>
                if negb (String.eqb (commit_HealthCheckCommit commit) "")
                then resolveSources update app rest
                       (revisions ++ [commit_HealthCheckCommit commit])
                       trace'
                else resolveSources update app rest
                       (revisions ++ [commit_ID commit]) trace'
            end
        end
      else resolveSources update app rest revisions trace
  end.

(** Lines 18-141. [app] is a pointer, [None] is nil. *)
Definition GetDesiredRevisions (update : option ArgoCDAppUpdate)
    (app : option Application) : Run Err :=
  match app with
  | None => mkRun (Returned [] None) []
  | Some a =>
      match sourcesOf a with
      | None => mkRun (Returned [] None) []
      | Some sources => resolveSources update a sources [] []
      end
  end.

(** The origin policy in force for a source: that of the mechanism
    selected for it. *)
Definition effectiveOrigin (update : ArgoCDAppUpdate)
    (source : ApplicationSource) : option FreightOrigin :=
  GetDesiredOrigin stage update (selectedMechanism update source).

(** What one pass of the loop body looks up for [source], and the entry
    it appends when the lookup does not fail (lines 61-98 and
    115-136). *)
Definition performedLookup (update : ArgoCDAppUpdate) (app : Application)
    (source : ApplicationSource) (l : Lookup) : Prop :=
  if isHelm source then
    exists appSource,
      app_Source app = Some appSource /\
      l = ChartLookup (effectiveOrigin update source)
            (chartLookupKey (src_RepoURL appSource) (src_Chart appSource)).1
            (chartLookupKey (src_RepoURL appSource) (src_Chart appSource)).2
  else l = CommitLookup (effectiveOrigin update source) (src_RepoURL source).

Definition resolvedEntry (update : ArgoCDAppUpdate) (app : Application)
    (source : ApplicationSource) (revision : string) : Prop :=
  if isHelm source then
    exists appSource found,
      app_Source app = Some appSource /\
      FindChart stage (effectiveOrigin update source) frght
        (chartLookupKey (src_RepoURL appSource) (src_Chart appSource)).1
        (chartLookupKey (src_RepoURL appSource) (src_Chart appSource)).2
      = (found, None) /\
      revision = chartRevision found
  else
    exists found,
      FindCommit stage (effectiveOrigin update source) frght
                 (src_RepoURL source) = (found, None) /\
      revision = commitRevision found.

(** The lookup key of a Helm source taken by itself. *)
Definition ownChartKey (source : ApplicationSource) : string * string :=
  chartLookupKey (src_RepoURL source) (src_Chart source).

(** The artifact of [source] is not found in the freight selected by
    its effective origin policy; for a Helm source this is said of the
    source that is the application's [spec.source]. *)
Definition artifactAbsent (update : ArgoCDAppUpdate) (app : Application)
    (source : ApplicationSource) : Prop :=
  if isHelm source then
    app_Source app = Some source /\
    FindChart stage (effectiveOrigin update source) frght
              (ownChartKey source).1 (ownChartKey source).2 = (None, None)
  else
    FindCommit stage (effectiveOrigin update source) frght
               (src_RepoURL source) = (None, None).

(** [revision] is the revision of the artifact found for [source]
    itself, under the same proviso for a Helm source. *)
Definition ownRevision (update : ArgoCDAppUpdate) (app : Application)
    (source : ApplicationSource) (revision : string) : Prop :=
  if isHelm source then
    app_Source app = Some source ->
    exists found,
      FindChart stage (effectiveOrigin update source) frght
                (ownChartKey source).1 (ownChartKey source).2
      = (found, None) /\
      revision = chartRevision found
  else
    exists found,
      FindCommit stage (effectiveOrigin update source) frght
                 (src_RepoURL source) = (found, None) /\
      revision = commitRevision found.

End Resolver.

End Argocd.

(** ** The freight package, as the specification describes it *)

Module Freight.
Import Argocd.

(** A stage is represented by the origins of its freight requests. *)
Definition Stage := list FreightOrigin.

(** The finders of this model never fail. *)
Definition NoError := Empty_set.

(** Modelled from the spec: [freight.GetDesiredOrigin] is not among the
    sources. A matched override contributes its own origin policy and
    otherwise the promotion-wide default policy applies; [None] is the
    unconstrained policy. *)
Definition GetDesiredOrigin (stage : Stage) (update : ArgoCDAppUpdate)
    (mechanism : PromoMechanism) : option FreightOrigin :=
  match mechanism with
  | MechSourceUpdate i =>
      match au_SourceUpdates update !! i with
      | Some sourceUpdate => su_Origin sourceUpdate
      | None => None
      end
  | MechAppUpdate => au_Origin update
  end.

(** Modelled from the spec: the entries of the freight collection that
    satisfy an origin policy are those of the exact origin, or those of
    any requested origin when the policy is unconstrained. *)
Definition satisfies (stage : Stage) (policy : option FreightOrigin)
    (f : FreightReference) : bool :=
  match policy with
  | Some o => bool_decide (freight_Origin f = o)
  | None => bool_decide (freight_Origin f ∈ stage)
  end.

(** Modelled from the spec: [freight.FindChart] is not among the
    sources. It scans the chart lists of the selected entries for an
    exact key match, and absence is not an error. *)
Definition FindChart (stage : Stage) (policy : option FreightOrigin)
    (freight : list FreightReference) (repoURL chartName : string)
    : option Chart * option NoError :=
  (List.find
     (fun c => String.eqb (chart_RepoURL c) repoURL &&
               String.eqb (chart_Name c) chartName)
     (List.flat_map freight_Charts
        (List.filter (satisfies stage policy) freight)),
   None).

(** Modelled from the spec: [freight.FindCommit] is not among the
    sources. It scans the commit lists of the selected entries for an
    exact repo URL match, and absence is not an error. *)
Definition FindCommit (stage : Stage) (policy : option FreightOrigin)
    (freight : list FreightReference) (repoURL : string)
    : option GitCommit * option NoError :=
  (List.find
     (fun c => String.eqb (commit_RepoURL c) repoURL)
     (List.flat_map freight_Commits
        (List.filter (satisfies stage policy) freight)),
   None).

(** The resolver wired to these finders. *)
Definition resolve (stage : Stage) (frght : list FreightReference)
    (update : option ArgoCDAppUpdate) (app : option Application)
    : Run NoError :=
  GetDesiredRevisions GetDesiredOrigin FindChart FindCommit stage frght
                      update app.

End Freight.

(** ** Concrete promotions used as test inputs *)

Module Scenario.
Import Argocd.

Definition w1 : FreightOrigin := mkOrigin "Warehouse" "w1".
Definition w2 : FreightOrigin := mkOrigin "Warehouse" "w2".

Definition helmSource : ApplicationSource := mkSource "https://x" "c".
Definition gitSource : ApplicationSource := mkSource "https://y" "".

(** Chart [c] at 1.2.3 under the default origin, commit [abc123] with
    no health-check commit under Warehouse/w2. *)
Definition frght : list FreightReference :=
  [ mkFreight w1 [] [mkChart "https://x" "c" "1.2.3"];
    mkFreight w2 [mkCommit "https://y" "abc123" ""] [] ].

(** Default origin Warehouse/w1; the Git source is overridden to
    Warehouse/w2. *)
Definition update : ArgoCDAppUpdate :=
  mkAppUpdate (Some w1) [mkSourceUpdate (Some w2) "https://y" ""].

Definition stage : Freight.Stage := [w1; w2].

(** A multi-source application: [spec.sources] is set and
    [spec.source] is not. *)
Definition twoSourceApp : Application :=
  mkApp None (Some [helmSource; gitSource]).

(** The same application with [spec.source] also set, to the Helm
    source. *)
Definition twoSourceAppWithSource : Application :=
  mkApp (Some helmSource) (Some [helmSource; gitSource]).

(** A Helm source on an OCI registry (no scheme in the repo URL), listed
    in [spec.sources] next to an unrelated [spec.source]. *)
Definition ociSource : ApplicationSource :=
  mkSource "registry.example.com/charts/" "b".
Definition otherSource : ApplicationSource :=
  mkSource "https://charts.example.com" "a".

(** Freight with chart [a] of [https://charts.example.com] at 9.9.9
    under the default origin, and no chart [b]. *)
Definition otherChartFrght : list FreightReference :=
  [ mkFreight w1 [] [mkChart "https://charts.example.com" "a" "9.9.9"] ].

Definition ociAppNoSource : Application := mkApp None (Some [ociSource]).
Definition ociAppOtherSource : Application :=
  mkApp (Some otherSource) (Some [ociSource]).
Definition ociSingleApp : Application := mkApp (Some ociSource) None.

(** A commit finder whose listing fails for one repository. *)
Definition failingFindCommit (stage : Freight.Stage)
    (policy : option FreightOrigin) (freight : list FreightReference)
    (repoURL : string) : option GitCommit * option string :=
  if String.eqb repoURL "https://b"
  then (None, Some "listing warehouses failed")
  else (None, None).

Definition neverFindChart (stage : Freight.Stage)
    (policy : option FreightOrigin) (freight : list FreightReference)
    (repoURL chartName : string) : option Chart * option string :=
  (None, None).

Definition twoGitApp : Application :=
  mkApp None (Some [mkSource "https://a" ""; mkSource "https://b" ""]).


Definition gitApp : Application := mkApp (Some gitSource) None.

End Scenario.

(** ** The Bookkeeper promotion mechanism *)

Module Bookkeeper.

(** [api.Image], restricted to the fields the code reads. *)
Record Image := mkImage {
  image_RepoURL : string;
  image_Tag : string
}.

(** A [[]api.GitCommit] slice value: nil, or a reference to a backing
    array. The code neither re-slices nor appends, so a slice always
    spans its whole array. *)
Definition loc := positive.
Definition CommitSlice := option loc.

(** The backing arrays of the commit slices in memory. *)
Abbreviation Store := (gmap loc (list GitCommit)).

(** [api.StageState], restricted to the fields the code reads.
    [Commits] is written through; [Images] is only read. *)
Record StageState := mkState {
  state_Commits : CommitSlice;
  state_Images : list Image
}.

(** [api.BookkeeperPromotionMechanism]; only its presence is tested. *)
Inductive BookkeeperPromotionMechanism := BookkeeperConfig.

(** [api.GitRepoUpdate], restricted to the fields the code reads. *)
Record GitRepoUpdate := mkUpdate {
  gru_RepoURL : string;
  gru_WriteBranch : string;
  gru_Bookkeeper : option BookkeeperPromotionMechanism
}.

(** [api.Stage], restricted to [Namespace] and
    [Spec.PromotionMechanisms.GitRepoUpdates]. *)
Record Stage := mkStage {
  stage_Namespace : string;
  stage_GitRepoUpdates : list GitRepoUpdate
}.

(** [credentials.Credentials]. *)
Record Credentials := mkCreds {
  creds_Username : string;
  creds_Password : string;
  creds_SSHPrivateKey : string
}.

(** [bookkeeper.RepoCredentials]; the zero value is all empty. *)
Record RepoCredentials := mkRepoCreds {
  rc_Username : string;
  rc_Password : string;
  rc_SSHPrivateKey : string
}.

(** [bookkeeper.RenderRequest]. *)
Record RenderRequest := mkRequest {
  req_RepoURL : string;
  req_RepoCreds : RepoCredentials;
  req_Ref : string;
  req_Images : list string;
  req_TargetBranch : string
}.

(** [bookkeeper.ActionTaken]; every value other than the two the
    [switch] names falls to its [default] case. *)
Inductive ActionTaken :=
| ActionTakenPushedDirectly
| ActionTakenNone
| ActionTakenOpenedPR.

(** [bookkeeper.RenderResponse]. *)
Record RenderResponse := mkResponse {
  res_ActionTaken : ActionTaken;
  res_CommitID : string
}.

(** The contents of a slice; a nil slice has none. *)
Definition contents (store : Store) (s : CommitSlice) : list GitCommit :=
  match s with
  | None => []
  | Some l => default [] (store !! l)
  end.

Definition withHealthCheckCommit (c : GitCommit) (id : string) : GitCommit :=
  mkCommit (commit_RepoURL c) (commit_ID c) id.

(** [s[i].HealthCheckCommit = id]: writes through to the backing
    array; [None] is the index-out-of-range panic. *)
Definition setHealthCheckCommit (store : Store) (s : CommitSlice)
    (i : Z) (id : string) : option Store :=
  match s with
  | None => None
  | Some l =>
      match store !! l with
      | None => None
      | Some arr =>
          if (i <? 0)%Z then None
          else
            match arr !! Z.to_nat i with
            | None => None
            | Some c =>
                Some (<[l := <[Z.to_nat i := withHealthCheckCommit c id]> arr]>
                        store)
            end
      end
  end.

(** Modelled from the spec: the generated [StageState.DeepCopy] is not
    among the sources. It is a deep copy, in the way of the generated
    [DeepCopyInto] functions of the API package that are among them: a
    non-nil slice of plain structs is copied into a newly made backing
    array of the same length, a nil slice stays nil, and strings are
    values. *)
Definition DeepCopy (newState : StageState) (store : Store)
    : StageState * Store :=
  match state_Commits newState with
  | None => (newState, store)
  | Some l =>
      let l' := fresh (dom store) in
      (mkState (Some l') (state_Images newState),
       <[l' := contents store (Some l)]> store)
  end.

Section Mechanism.

(** The world outside the process (remote repositories, the
    credential store) and the error values of the collaborators. *)
Context {World Err : Type}.

(** Memory: the backing arrays and the outside world. *)
Record Mem := mkMem {
  store : Store;
  world : World
}.

(** The errors [doSingleUpdate] returns: the read-ref error as it
    is, and the two [errors.Wrapf] wrappers with the repo URL they
    quote. *)
Inductive Error :=
| Unwrapped (cause : Err)
| ErrObtainingCredentials (repo : string) (cause : Err)
| ErrRenderingManifests (repo : string) (cause : Err).

(** A call ends by returning, or in a run-time panic; either way it
    leaves a memory behind. *)
Inductive Result :=
| Ret (newState : StageState) (err : option Error) (m : Mem)
| Panic (m : Mem).

Definition finalMem (r : Result) : Mem :=
  match r with
  | Ret _ _ m => m
  | Panic m => m
  end.

(** The overridable behaviours of [bookkeeperMechanism]. Logging is
    left out. *)
Variable getReadRefFn :
  GitRepoUpdate -> list GitCommit -> string * Z * option Err.
Variable getCredentialsFn :
  string -> string -> World -> (Credentials * bool * option Err) * World.
Variable renderManifestsFn :
  RenderRequest -> World -> (RenderResponse * option Err) * World.

(** Lines 165-167 and 170-172. *)
Definition recordCommit (newState : StageState) (commitIndex : Z)
    (commitID : string) (m : Mem) : Result :=
  if (commitIndex >? -1)%Z then
    match setHealthCheckCommit (store m) (state_Commits newState)
                               commitIndex commitID with
    | Some store' => Ret newState None (mkMem store' (world m))
    | None => Panic m
    end
  else Ret newState None m.

(** Lines 108-178. *)
Definition doSingleUpdate (namespace : string) (update : GitRepoUpdate)
    (newState : StageState) (images : list string) (m : Mem) : Result :=
  let '(readRef, commitIndex, err) :=
    getReadRefFn update (contents (store m) (state_Commits newState)) in
  match err with
  | Some e => Ret newState (Some (Unwrapped e)) m
  | None =>
      let '((creds, ok, err), w1) :=
        getCredentialsFn namespace (gru_RepoURL update) (world m) in
      let m1 := mkMem (store m) w1 in
      match err with
      | Some e =>
          Ret newState
              (Some (ErrObtainingCredentials (gru_RepoURL update) e)) m1
      | None =>
          let repoCreds :=
            if ok
            then mkRepoCreds (creds_Username creds) (creds_Password creds)
                             (creds_SSHPrivateKey creds)
            else mkRepoCreds "" "" "" in
          let req :=
            mkRequest (gru_RepoURL update) repoCreds readRef images
                      (gru_WriteBranch update) in
          let '((res, err), w2) := renderManifestsFn req w1 in
          let m2 := mkMem (store m) w2 in
          match err with
          | Some e =>
              Ret newState
                  (Some (ErrRenderingManifests (gru_RepoURL update) e)) m2
          | None =>
              match res_ActionTaken res with
              | ActionTakenPushedDirectly =>
                  recordCommit newState commitIndex (res_CommitID res) m2
              | ActionTakenNone =>
                  recordCommit newState commitIndex (res_CommitID res) m2
              | _ => Ret newState None m2
              end
          end
      end
  end.

(** The field [doSingleUpdateFn], which [Promote] calls. *)
Variable doSingleUpdateFn :
  string -> GitRepoUpdate -> StageState -> list string -> Mem -> Result.

(** Lines 88-103: the loop over the Bookkeeper updates. *)
Fixpoint promoteUpdates (namespace : string) (images : list string)
    (updates : list GitRepoUpdate) (newState : StageState) (m : Mem)
    : Result :=
  match updates with
  | [] => Ret newState None m
  | update :: rest =>
      match doSingleUpdateFn namespace update newState images m with
      | Panic m' => Panic m'
      | Ret newState' (Some err) m' => Ret newState' (Some err) m'
      | Ret newState' None m' =>
          promoteUpdates namespace images rest newState' m'
      end
  end.

(** Lines 67-72. *)
Definition bookkeeperUpdates (stage : Stage) : list GitRepoUpdate :=
  List.filter (fun update => bool_decide (gru_Bookkeeper update <> None))
              (stage_GitRepoUpdates stage).

(** Lines 83-86. *)
Definition imageRefs (newState : StageState) : list string :=
  List.map (fun image => image_RepoURL image +:+ ":" +:+ image_Tag image)
           (state_Images newState).

(** Lines 62-104. [stage] is a pointer, [None] is nil. *)
Definition Promote (stage : option Stage) (newState : StageState)
    (m : Mem) : Result :=
  match stage with
  | None => Panic m
  | Some stg =>
      let updates := bookkeeperUpdates stg in
      if (length updates =? 0)%nat then Ret newState None m
      else
        let '(newState, store') := DeepCopy newState (store m) in
        let images := imageRefs newState in
        promoteUpdates (stage_Namespace stg) images updates newState
                       (mkMem store' (world m))
  end.

(** The updates before a failure: each call of the update step
    returned no error. *)
Inductive processed (namespace : string) (images : list string)
  : list GitRepoUpdate -> StageState -> Mem -> StageState -> Mem -> Prop :=
| processed_nil s m : processed namespace images [] s m s m
| processed_cons update rest s m s1 m1 s2 m2 :
    doSingleUpdateFn namespace update s images m = Ret s1 None m1 ->
    processed namespace images rest s1 m1 s2 m2 ->
    processed namespace images (update :: rest) s m s2 m2.

End Mechanism.

(** [newBookkeeperMechanism]: [doSingleUpdateFn] is [doSingleUpdate]. *)
Definition PromoteDefault {World Err : Type}
    (getReadRefFn : GitRepoUpdate -> list GitCommit -> string * Z * option Err)
    (getCredentialsFn :
       string -> string -> World -> (Credentials * bool * option Err) * World)
    (renderManifestsFn :
       RenderRequest -> World -> (RenderResponse * option Err) * World)
    : option Stage -> StageState -> @Mem World -> @Result World Err :=
  Promote (doSingleUpdate getReadRefFn getCredentialsFn renderManifestsFn).

End Bookkeeper.

(** ** Step configuration documents and their JSON schemas *)

Module Json.

(** A configuration document. An object is a Go [map[string]any]; it
    is kept as an association list read at the first binding of a
    key. Numbers do not occur in the configuration studied here and
    are kept integral. *)
Inductive value :=
| JNull
| JBool (b : bool)
| JNumber (n : Z)
| JString (s : string)
| JArray (items : list value)
| JObject (fields : list (string * value)).

Fixpoint field (name : string) (fields : list (string * value))
    : option value :=
  match fields with
  | [] => None
  | (k, v) :: rest => if String.eqb k name then Some v else field name rest
  end.

(** Structural equality of documents, as used by [const] and [enum]. *)
Fixpoint eqb (a b : value) {struct a} : bool :=
  match a, b with
  | JNull, JNull => true
  | JBool x, JBool y => Bool.eqb x y
  | JNumber x, JNumber y => (x =? y)%Z
  | JString x, JString y => String.eqb x y
  | JArray xs, JArray ys =>
      (fix all (xs ys : list value) {struct xs} : bool :=
         match xs, ys with
         | [], [] => true
         | x :: xs', y :: ys' => eqb x y && all xs' ys'
         | _, _ => false
         end) xs ys
  | JObject xs, JObject ys =>
      (fix all (xs ys : list (string * value)) {struct xs} : bool :=
         match xs, ys with
         | [], [] => true
         | (k, x) :: xs', (k', y) :: ys' =>
             String.eqb k k' && eqb x y && all xs' ys'
         | _, _ => false
         end) xs ys
  | _, _ => false
  end.

Inductive type := TNull | TBoolean | TNumber | TString | TArray | TObject.

Definition hasType (t : type) (v : value) : bool :=
  match t, v with
  | TNull, JNull => true
  | TBoolean, JBool _ => true
  | TNumber, JNumber _ => true
  | TString, JString _ => true
  | TArray, JArray _ => true
  | TObject, JObject _ => true
  | _, _ => false
  end.

(** The validation keywords the schemas of the directives use. A
    schema is the list of the keywords of one schema object;
    annotations ([$schema], [title], [description]) assert nothing and
    are left out. *)
Inductive keyword :=
| KType (t : type)
| KConst (v : value)
| KEnum (vs : list value)
| KMinLength (n : nat)
| KRequired (names : list string)
| KProperties (props : list (string * list keyword))
| KAdditionalProperties (allowed : bool)
| KOneOf (alternatives : list (list keyword)).

Abbreviation schema := (list keyword).

(** The property names a schema object declares in its own
    [properties]; [additionalProperties] is relative to them. *)
Fixpoint declared (s : schema) : list string :=
  match s with
  | [] => []
  | KProperties props :: rest => List.map fst props ++ declared rest
  | _ :: rest => declared rest
  end.

(** One keyword against a document; [names] are the properties
    declared next to it. A keyword constrains only the kind of value
    it speaks about. [minLength] counts characters: the schemas use it
    with 1 only, where a string has a character exactly when it has a
    byte. *)
Fixpoint validKeyword (names : list string) (k : keyword) (v : value)
    {struct k} : bool :=
  match k with
  | KType t => hasType t v
  | KConst c => eqb v c
  | KEnum vs => existsb (eqb v) vs
  | KMinLength n =>
      match v with
      | JString s => (n <=? String.length s)%nat
      | _ => true
      end
  | KRequired required =>
      match v with
      | JObject fields =>
          forallb (fun name => bool_decide (field name fields <> None))
                  required
      | _ => true
      end
  | KProperties props =>
      match v with
      | JObject fields =>
          forallb
            (fun '(name, sub) =>
               match field name fields with
               | Some fv =>
                   forallb (fun k' => validKeyword (declared sub) k' fv) sub
               | None => true
               end)
            props
      | _ => true
      end
  | KAdditionalProperties allowed =>
      match v with
      | JObject fields =>
          allowed ||
          forallb (fun '(name, _) => bool_decide (name ∈ names)) fields
      | _ => true
      end
  | KOneOf alternatives =>
      (length
         (List.filter
            (fun sub => forallb (fun k' => validKeyword (declared sub) k' v)
                                sub)
            alternatives) =? 1)%nat
  end.

(** A document conforms to a schema when it passes every keyword. *)
Definition valid (s : schema) (v : value) : bool :=
  forallb (fun k => validKeyword (declared s) k v) s.

(** The [validate] helper of the directives hands the schema and the
    configuration to the schema validator and reports a configuration
    that does not conform as invalid. *)
Inductive validation := Valid | ConfigInvalid.

Definition validate (s : schema) (config : value) : validation :=
  if valid s config then Valid else ConfigInvalid.

End Json.

Module GitPushSchema.
Import Json.

(** The [GitPushConfig] schema, keyword by keyword. *)
Definition GitPushConfig : schema :=
  [ KType TObject;
    KAdditionalProperties false;
    KRequired ["path"];
    KProperties
      [ ("generateTargetBranch", [KType TBoolean]);
        ("path", [KType TString; KMinLength 1]);
        ("targetBranch", [KType TString]) ];
    KOneOf
      [ [ KRequired ["generateTargetBranch"];
          KProperties
            [ ("generateTargetBranch", [KConst (JBool true)]);
              ("targetBranch", [KEnum [JString ""; JNull]]) ] ];
        [ KRequired ["targetBranch"];
          KProperties
            [ ("generateTargetBranch", [KEnum [JNull; JBool false]]);
              ("targetBranch", [KMinLength 1]) ] ] ] ].

(** [generateTargetBranch=true] is present in a configuration. *)
Definition generatesTargetBranch (fields : list (string * value)) : Prop :=
  field "generateTargetBranch" fields = Some (JBool true).

(** A non-empty [targetBranch] is present in a configuration. *)
Definition hasTargetBranch (fields : list (string * value)) : Prop :=
  exists branch,
    field "targetBranch" fields = Some (JString branch) /\ branch <> "".

(** Test configurations. *)
Definition bothConfig : value :=
  JObject [ ("path", JString "./repo");
            ("generateTargetBranch", JBool true);
            ("targetBranch", JString "stage/test") ].
Definition generateConfig : value :=
  JObject [ ("path", JString "./repo");
            ("generateTargetBranch", JBool true) ].
Definition targetConfig : value :=
  JObject [ ("path", JString "./repo");
            ("targetBranch", JString "stage/test") ].
Definition neitherConfig : value :=
  JObject [ ("path", JString "./repo") ].

End GitPushSchema.

(** ** Chart version diff of the helm-update-chart directive *)

Module ChartDiff.

(** Modelled from the spec: [compareChartVersions] is not among the
    sources, only its table of tests is. The diff of two name-to-version
    maps reports a bumped chart as [old -> new], a pure addition as its
    version, a removed chart as the empty string, and nothing for an
    unchanged chart. *)
Definition change (before after : option string) : option string :=
  match before, after with
  | Some old, Some new =>
      if String.eqb old new then None else Some (old +:+ " -> " +:+ new)
  | None, Some new => Some new
  | Some _, None => Some ""
  | None, None => None
  end.

Definition compareChartVersions (before after : gmap string string)
    : gmap string string :=
  merge change before after.

(** [strings.CutPrefix]: the rest of [s] after [prefix]. *)
Fixpoint CutPrefix (s prefix : string) : option string :=
  match prefix, s with
  | EmptyString, _ => Some s
  | String a p', String b s' =>
      if Ascii.eqb a b then CutPrefix s' p' else None
  | String _ _, EmptyString => None
  end.

(** The right-hand side of an [old -> new] entry for a chart whose
    version was [old]. *)
Definition rightHandSide (old entry : string) : string :=
  match CutPrefix entry (old +:+ " -> ") with
  | Some new => new
  | None => entry
  end.

(** Modelled from the spec: the application of a reported delta to the
    version a name has in [before], in the words of the round-trip
    property. An entry for a name that is not there is a pure addition
    and inserts the name at the reported version; for a name that is
    there, an empty entry deletes it and any other entry replaces its
    version by the right-hand side; a name without an entry is kept. *)
Definition applyChange (entry before : option string) : option string :=
  match entry with
  | None => before
  | Some e =>
      match before with
      | None => Some e
      | Some old =>
          if String.eqb e "" then None else Some (rightHandSide old e)
      end
  end.

Definition applyChanges (changes before : gmap string string)
    : gmap string string :=
  merge applyChange changes before.

End ChartDiff.


(** ** A concrete Bookkeeper promotion used as test input *)

Module BookkeeperScenario.
Import Bookkeeper.

(** The outside world: the repositories rendered so far. *)
Definition World := list string.

(** The index of the first commit of a repository, or -1. *)
Fixpoint commitIndexOf (repoURL : string) (commits : list GitCommit)
    (i : Z) : Z :=
  match commits with
  | [] => (-1)%Z
  | c :: rest =>
      if String.eqb (commit_RepoURL c) repoURL then i
      else commitIndexOf repoURL rest (i + 1)%Z
  end.

Definition readRef (update : GitRepoUpdate) (commits : list GitCommit)
    : string * Z * option string :=
  ("main", commitIndexOf (gru_RepoURL update) commits 0%Z, None).

Definition noCredentials (namespace repo : string) (w : World)
    : (Credentials * bool * option string) * World :=
  ((mkCreds "" "" "", false, None), w).

(** Rendering fails for one repository and pushes directly for the
    others. *)
Definition render (req : RenderRequest) (w : World)
    : (RenderResponse * option string) * World :=
  if String.eqb (req_RepoURL req) "https://bad"
  then ((mkResponse ActionTakenNone "", Some "render failed"), w)
  else ((mkResponse ActionTakenPushedDirectly "rendered1", None),
        w ++ [req_RepoURL req]).

Definition goodUpdate : GitRepoUpdate :=
  mkUpdate "https://good" "stage/test" (Some BookkeeperConfig).
Definition badUpdate : GitRepoUpdate :=
  mkUpdate "https://bad" "stage/test" (Some BookkeeperConfig).
Definition otherUpdate : GitRepoUpdate :=
  mkUpdate "https://other" "stage/test" (Some BookkeeperConfig).
Definition plainUpdate : GitRepoUpdate :=
  mkUpdate "https://plain" "stage/test" None.

Definition failingStage : Stage :=
  mkStage "kargo-demo" [goodUpdate; plainUpdate; badUpdate; otherUpdate].
Definition goodStage : Stage :=
  mkStage "kargo-demo" [plainUpdate; goodUpdate].
Definition plainStage : Stage :=
  mkStage "kargo-demo" [plainUpdate].

Definition goodCommit : GitCommit := mkCommit "https://good" "abc123" "".

(** The caller's state: its commits live in the backing array 1. *)
Definition callerState : StageState :=
  mkState (Some 1%positive) [mkImage "nginx" "1.25"].
Definition callerMem : @Mem World :=
  mkMem {[ 1%positive := [goodCommit] ]} [].

Definition testUpdate :=
  @doSingleUpdate World string readRef noCredentials render.

End BookkeeperScenario.

(** ** The git-overwrite configuration schema *)

Module GitOverwriteSchema.
Import Json.

(** The [GitOverwriteConfig] schema, keyword by keyword. *)
Definition GitOverwriteConfig : schema :=
  [ KType TObject;
    KAdditionalProperties false;
    KRequired ["inPath"; "outPath"];
    KProperties
      [ ("inPath", [KType TString; KMinLength 1]);
        ("outPath", [KType TString; KMinLength 1]) ] ].

(** Test configurations. *)
Definition copyConfig : value :=
  JObject [ ("inPath", JString "./src"); ("outPath", JString "./out") ].
Definition extraKeyConfig : value :=
  JObject [ ("inPath", JString "./src"); ("outPath", JString "./out");
            ("force", JBool true) ].

End GitOverwriteSchema.

(** ** Further collaborators for the Bookkeeper test inputs *)

Module BookkeeperFaults.
Import Bookkeeper BookkeeperScenario.

(** A read-ref function that fails. *)
Definition failingReadRef (update : GitRepoUpdate) (commits : list GitCommit)
    : string * Z * option string :=
  ("", (-1)%Z, Some "no commit to read from").

(** A read-ref function that names a commit beyond the state's. *)
Definition strayReadRef (update : GitRepoUpdate) (commits : list GitCommit)
    : string * Z * option string :=
  ("main", 5%Z, None).

(** A credentials store that fails, and records that it was asked. *)
Definition failingCredentials (namespace repo : string) (w : World)
    : (Credentials * bool * option string) * World :=
  ((mkCreds "" "" "", false, Some "secret not readable"),
   w ++ ["credentials:" +:+ repo]).

(** A render collaborator that opens a pull request. *)
Definition renderWithPR (req : RenderRequest) (w : World)
    : (RenderResponse * option string) * World :=
  ((mkResponse ActionTakenOpenedPR "pr-commit", None), w ++ [req_RepoURL req]).

End BookkeeperFaults.

(** ** The Docker Hub webhook service *)

Module Dockerhub.

(** [api.RepositorySubscription], [api.Track], [api.NewImageChange],
    [api.Change] and [api.Ticket], restricted to the fields the service
    reads or sets ([Name] and [Namespace] are those of the object
    metadata), and the two fields read from [docker.BuildPayload]. *)
Record RepositorySubscription := mkSubscription {
  sub_RepoURL : string
}.

Record Track := mkTrack {
  track_Name : string;
  track_RepositorySubscriptions : list RepositorySubscription
}.

Record NewImageChange := mkNewImage {
  image_Repo : string;
  image_Tag : string
}.

Record Change := mkChange {
  change_NewImage : option NewImageChange
}.

Record Ticket := mkTicket {
  ticket_Name : string;
  ticket_Namespace : string;
  ticket_Track : string;
  ticket_Change : Change
}.

Record BuildPayload := mkPayload {
  payload_RepoName : string;
  payload_Tag : string
}.

(** An error of a collaborator, or an error wrapped by [errors.Wrap] or
    [errors.Wrapf] with its message (the messages are formatted with
    [%s] only). *)
Inductive Error (E : Type) :=
| Cause (e : E)
| Wrapped (message : string) (cause : Error E).
Arguments Cause {E}.
Arguments Wrapped {E}.

(** Lines 167-172: the inner loop, which leaves at the first
    subscription to [repo]. *)
Fixpoint subscribes (repo : string) (subs : list RepositorySubscription)
    : bool :=
  match subs with
  | [] => false
  | sub :: rest =>
      if String.eqb (sub_RepoURL sub) repo then true
      else subscribes repo rest
  end.

(** Lines 165-173: the loop labelled [tracks], which appends a track
    once, at its first subscription to [repo]. *)
Fixpoint subscribedTracks (repo : string) (tracks : list Track)
    (subscribed : list Track) : list Track :=
  match tracks with
  | [] => subscribed
  | track :: rest =>
      if subscribes repo (track_RepositorySubscriptions track)
      then subscribedTracks repo rest (subscribed ++ [track])
      else subscribedTracks repo rest subscribed
  end.

Section Service.

(** The world outside the process (the cluster, the source of random
    UUIDs) and the errors of the cluster client. *)
Context {World Err : Type}.

(** [s.config.Namespace]. *)
Variable namespace : string.

(** The collaborators: [controllerRuntimeClient.List] of the tracks of
    a namespace, [controllerRuntimeClient.Create] of a ticket, and
    [uuid.NewV4().String()]. Logging is left out. *)
Variable listTracks : string -> World -> (list Track * option Err) * World.
Variable createTicket : Ticket -> World -> option Err * World.
Variable newUUID : World -> string * World.

(** Lines 150-175. *)
Definition getTracksByImageRepo (repo : string) (w : World)
    : (list Track * option (Error Err)) * World :=
  match listTracks namespace w with
  | ((_, Some err), w') =>
      (([], Some (Wrapped "error retrieving Tracks" (Cause err))), w')
  | ((items, None), w') => ((subscribedTracks repo items [], None), w')
  end.

(** The run of [Handle]: the error it returns, the tickets it handed to
    [Create], oldest first, and the world it leaves. *)
Record Handled := mkHandled {
  handled_err : option (Error Err);
  handled_tickets : list Ticket;
  handled_world : World
}.

(** Lines 111-145: the loop over the subscribed tracks. *)
Fixpoint createTickets (repo tag : string) (tracks : list Track)
    (submitted : list Ticket) (w : World) : Handled :=
  match tracks with
  | [] => mkHandled None submitted w
  | track :: rest =>
      let '(name, w1) := newUUID w in
      let ticket :=
        mkTicket name namespace (track_Name track)
                 (mkChange (Some (mkNewImage repo tag))) in
      match createTicket ticket w1 with
      | (Some err, w2) =>
          mkHandled
            (Some (Wrapped ("error creating Ticket " +:+ ticket_Name ticket)
                           (Cause err)))
            (submitted ++ [ticket]) w2
      | (None, w2) => createTickets repo tag rest (submitted ++ [ticket]) w2
      end
  end.

(** Lines 90-148. *)
Definition Handle (payload : BuildPayload) (w : World) : Handled :=
  let repo := payload_RepoName payload in
  let tag := payload_Tag payload in
  match getTracksByImageRepo repo w with
  | ((_, Some err), w') =>
      mkHandled
        (Some (Wrapped
                 ("error finding Tracks subscribed to image repo " +:+ repo)
                 err))
        [] w'
  | ((tracks, None), w') => createTickets repo tag tracks [] w'
  end.

End Service.

(** Test inputs: a cluster with three tracks, a counter for names, and
    a [Create] that refuses one name. *)
Definition Cluster := nat.

Definition demoTracks : list Track :=
  [ mkTrack "frontend" [mkSubscription "redis"; mkSubscription "nginx";
                        mkSubscription "nginx"];
    mkTrack "batch" [mkSubscription "postgres"];
    mkTrack "edge" [mkSubscription "nginx"] ].

Definition listDemo (namespace : string) (w : Cluster)
    : (list Track * option string) * Cluster :=
  ((demoTracks, None), w).

Definition listFails (namespace : string) (w : Cluster)
    : (list Track * option string) * Cluster :=
  (([], Some "connection refused"), w).

Definition nameFromCounter (w : Cluster) : string * Cluster :=
  (match w with 0%nat => "ticket-a" | _ => "ticket-b" end, S w).

Definition createAll (t : Ticket) (w : Cluster) : option string * Cluster :=
  (None, w).


End Dockerhub.

(** ** The helm-template directive *)

Module HelmTemplate.

(** [Status] and [Result], restricted to the status. *)
Inductive Status := StatusSuccess | StatusFailure.

Record Result := mkResult {
  result_Status : Status
}.

(** [HelmTemplateConfig], with the fields the directive reads. *)
Record HelmTemplateConfig := mkConfig {
  cfg_Path : string;
  cfg_OutPath : string;
  cfg_ValuesFiles : list string;
  cfg_ReleaseName : string;
  cfg_Namespace : string;
  cfg_IncludeCRDs : bool;
  cfg_APIVersions : list string;
  cfg_KubeVersion : string
}.

(** Lines 174-179, at the type [string], the only one it is used at: a
    string is the zero value when it is empty. *)
Definition defaultValue (value default : string) : string :=
  if String.eqb value "" then default else value.

(** A call by which the directive changes the file system. *)
Inductive FsOp :=
| OpMkdirAll (dir : string)
| OpWriteFile (path content : string).

Section Directive.

(** The file system and whatever else is outside the process, the errors
    of the libraries, and the library types the directive only passes
    on: the raw step configuration, composed values, a loaded chart, its
    declared dependencies and a parsed Kubernetes version. *)
Context {World Err Raw Values HelmChart Dependencies KubeVersion : Type}.

(** [StepContext], restricted to the fields the directive reads. *)
Record StepContext := mkStepContext {
  ctx_WorkDir : string;
  ctx_Project : string;
  ctx_Config : Raw
}.

(** The fields of [action.Install] the directive sets; [KubeVersion] is
    a pointer, nil unless set. *)
Record Install := mkInstall {
  install_DryRun : bool;
  install_DryRunOption : string;
  install_Replace : bool;
  install_ClientOnly : bool;
  install_ReleaseName : string;
  install_Namespace : string;
  install_IncludeCRDs : bool;
  install_APIVersions : list string;
  install_KubeVersion : option KubeVersion
}.

(** The errors of the directive: an error of a library returned as it
    is, or one of the [fmt.Errorf] wrappers with what it quotes. *)
Inductive Error :=
| LibraryError (e : Err)
| CouldNotConvertConfig (directive : string) (cause : Error)
| FailedToComposeValues (cause : Error)
| FailedToLoadChart (path : string) (cause : Error)
| MissingChartDependencies (cause : Error)
| FailedToInitializeAction (cause : Error)
| FailedToRenderChart (cause : Error)
| FailedToWriteRenderedChart (cause : Error)
| FailedToJoinPath (path : string) (cause : Error)
| FailedToCreateDirectory (path : string) (cause : Error)
| FailedToParseKubeVersion (version : string) (cause : Error).

(** The value and error a helper returns; its callers look at the error
    first and use the value only when there is none. *)
Inductive Fallible (A : Type) :=
| Ok (a : A)
| Fail (err : Error).
Arguments Ok {A}.
Arguments Fail {A}.

(** The collaborators: the schema validation and the conversion of the
    raw configuration, [securejoin.SecureJoin], [MergeValues] of the
    value files of a [values.Options], [loader.Load], the
    [Metadata.Dependencies] of a chart (a slice, [None] is nil),
    [action.CheckDependencies], [chartutil.ParseKubeVersion],
    [Install.RunWithContext] (of whose release the manifest is used),
    [filepath.Dir], [os.MkdirAll] with mode 0700 and [os.WriteFile] with
    mode 0600. *)
Variable validateConfig : Raw -> option Err.
Variable configToStruct : Raw -> HelmTemplateConfig * option Err.
Variable SecureJoin : string -> string -> World -> string * option Err.
Variable MergeValues : list string -> World -> Values * option Err.
Variable Load : string -> World -> HelmChart * option Err.
Variable DependenciesOf : HelmChart -> option Dependencies.
Variable CheckDependencies : HelmChart -> Dependencies -> option Err.
Variable ParseKubeVersion : string -> KubeVersion * option Err.
Variable RunWithContext :
  Install -> HelmChart -> Values -> World -> (string * option Err) * World.
Variable Dir : string -> string.
Variable MkdirAll : string -> World -> option Err * World.
Variable WriteFile : string -> string -> World -> option Err * World.

(** Lines 104-110: the loop of [composeValues]. *)
Fixpoint joinValueFiles (workDir : string) (valuesFiles : list string)
    (joined : list string) (w : World) : Fallible (list string) :=
  match valuesFiles with
  | [] => Ok joined
  | p :: rest =>
      match SecureJoin workDir p w with
      | (_, Some err) => Fail (FailedToJoinPath p (LibraryError err))
      | (absValuesPath, None) =>
          joinValueFiles workDir rest (joined ++ [absValuesPath]) w
      end
  end.

(** Lines 102-112. *)
Definition composeValues (workDir : string) (valuesFiles : list string)
    (w : World) : Fallible Values :=
  match joinValueFiles workDir valuesFiles [] w with
  | Fail err => Fail err
  | Ok files =>
      match MergeValues files w with
      | (_, Some err) => Fail (LibraryError err)
      | (values, None) => Ok values
      end
  end.

(** Lines 117-138. *)
Definition newInstallAction (cfg : HelmTemplateConfig) (project : string)
    : Fallible Install :=
  let releaseName := defaultValue (cfg_ReleaseName cfg) "release-name" in
  let namespace := defaultValue (cfg_Namespace cfg) project in
  if negb (String.eqb (cfg_KubeVersion cfg) "") then
    match ParseKubeVersion (cfg_KubeVersion cfg) with
    | (_, Some err) =>
        Fail (FailedToParseKubeVersion (cfg_KubeVersion cfg)
                                       (LibraryError err))
    | (kubeVersion, None) =>
        Ok (mkInstall true "client" true true releaseName namespace
                      (cfg_IncludeCRDs cfg) (cfg_APIVersions cfg)
                      (Some kubeVersion))
    end
  else
    Ok (mkInstall true "client" true true releaseName namespace
                  (cfg_IncludeCRDs cfg) (cfg_APIVersions cfg) None).

(** Lines 141-147. *)
Definition loadChart (workDir path : string) (w : World)
    : Fallible HelmChart :=
  match SecureJoin workDir path w with
  | (_, Some err) => Fail (FailedToJoinPath path (LibraryError err))
  | (absChartPath, None) =>
      match Load absChartPath w with
      | (_, Some err) => Fail (LibraryError err)
      | (chart, None) => Ok chart
      end
  end.

(** Lines 150-157. *)
Definition checkDependencies (chartRequested : HelmChart) : option Error :=
  match DependenciesOf chartRequested with
  | Some req =>
      match CheckDependencies chartRequested req with
      | Some err => Some (LibraryError err)
      | None => None
      end
  | None => None
  end.

(** Lines 161-170: the error returned, the calls made to change the
    file system, oldest first, and the world left. *)
Definition writeOutput (workDir outPath manifest : string) (w : World)
    : option Error * list FsOp * World :=
  match SecureJoin workDir outPath w with
  | (_, Some err) =>
      (Some (FailedToJoinPath outPath (LibraryError err)), [], w)
  | (absOutPath, None) =>
      match MkdirAll (Dir absOutPath) w with
      | (Some err, w1) =>
          (Some (FailedToCreateDirectory outPath (LibraryError err)),
           [OpMkdirAll (Dir absOutPath)], w1)
      | (None, w1) =>
          match WriteFile absOutPath manifest w1 with
          | (err, w2) =>
              (option_map LibraryError err,
               [OpMkdirAll (Dir absOutPath); OpWriteFile absOutPath manifest],
               w2)
          end
      end
  end.

(** What a run of the directive ends in: the result and error it
    returns, the calls it made to change the file system and the world
    it leaves. *)
Record Outcome := mkOutcome {
  out_result : Result;
  out_err : option Error;
  out_fs : list FsOp;
  out_world : World
}.

(** [return Result{Status: StatusFailure}, err] before any change to the
    file system. *)
Definition failed (err : Error) (w : World) : Outcome :=
  mkOutcome (mkResult StatusFailure) (Some err) [] w.

(** Lines 65-98. *)
Definition run (stepCtx : StepContext) (cfg : HelmTemplateConfig)
    (w : World) : Outcome :=
  match composeValues (ctx_WorkDir stepCtx) (cfg_ValuesFiles cfg) w with
  | Fail err => failed (FailedToComposeValues err) w
  | Ok composedValues =>
      match loadChart (ctx_WorkDir stepCtx) (cfg_Path cfg) w with
      | Fail err => failed (FailedToLoadChart (cfg_Path cfg) err) w
      | Ok chartRequested =>
          match checkDependencies chartRequested with
          | Some err => failed (MissingChartDependencies err) w
          | None =>
              match newInstallAction cfg (ctx_Project stepCtx) with
              | Fail err => failed (FailedToInitializeAction err) w
              | Ok install =>
                  match RunWithContext install chartRequested
                                       composedValues w with
                  | ((_, Some err), w1) =>
                      failed (FailedToRenderChart (LibraryError err)) w1
                  | ((manifest, None), w1) =>
                      match writeOutput (ctx_WorkDir stepCtx)
                                        (cfg_OutPath cfg) manifest w1 with
                      | (Some err, ops, w2) =>
                          mkOutcome (mkResult StatusFailure)
                                    (Some (FailedToWriteRenderedChart err))
                                    ops w2
                      | (None, ops, w2) =>
                          mkOutcome (mkResult StatusSuccess) None ops w2
                      end
                  end
              end
          end
      end
  end.

(** Lines 39-41. *)
Definition Name : string := "helm-template".

(** Lines 44-63. *)
Definition Run (stepCtx : StepContext) (w : World) : Outcome :=
  match validateConfig (ctx_Config stepCtx) with
  | Some err => failed (LibraryError err) w
  | None =>
      match configToStruct (ctx_Config stepCtx) with
      | (_, Some err) =>
          failed (CouldNotConvertConfig Name (LibraryError err)) w
      | (cfg, None) => run stepCtx cfg w
      end
  end.

End Directive.

Arguments Ok {Err A}.
Arguments Fail {Err A}.

(** Test inputs: a file system that is a list of written files, string
    errors, and libraries that render the chart path into a one-line
    manifest. *)
Definition Files := list (string * string).

Definition joinPlain (workDir p : string) (w : Files)
    : string * option string :=
  if String.eqb p "../escape" then ("", Some "path escapes the work dir")
  else (workDir +:+ "/" +:+ p, None).

Definition mergePlain (files : list string) (w : Files)
    : list string * option string := (files, None).

Definition loadPlain (path : string) (w : Files) : string * option string :=
  (path, None).

Definition noDependencies (chart : string) : option unit := None.

Definition checkPlain (chart : string) (deps : unit) : option string := None.

Definition parsePlain (version : string) : string * option string :=
  if String.eqb version "latest" then ("", Some "not a semantic version")
  else (version, None).

Definition renderPlain (install : @Install string) (chart : string)
    (values : list string) (w : Files) : (string * option string) * Files :=
  (("# " +:+ install_ReleaseName install +:+ " from " +:+ chart, None), w).

Definition dirPlain (path : string) : string := "/work/out".

Definition mkdirPlain (dir : string) (w : Files) : option string * Files :=
  (None, w).

Definition writePlain (path content : string) (w : Files)
    : option string * Files :=
  (None, w ++ [(path, content)]).

Definition demoConfig : HelmTemplateConfig :=
  mkConfig "charts/app" "out/app.yaml" ["values.yaml"; "prod.yaml"]
           "" "" false [] "".

Definition demoContext : @StepContext unit :=
  mkStepContext "/work" "demo-project" tt.

Definition demoRun :=
  @Run Files string unit (list string) string unit string
       (fun _ => None) (fun _ => (demoConfig, None))
       joinPlain mergePlain loadPlain noDependencies checkPlain parsePlain
       renderPlain dirPlain mkdirPlain writePlain.

End HelmTemplate.

(** ** The generated deep copies of the API types *)

Module DeepCopy.

Definition loc := positive.

(** [NewImageChange]: a struct of strings. *)
Record NewImageChange := mkNewImage {
  image_Repo : string;
  image_Tag : string
}.

(** [Change]: [NewImage] is a pointer, [None] is nil. *)
Record Change := mkChange {
  change_NewImage : option loc
}.

Section Types.

(** The fields of a struct that hold no reference (they are copied by
    the assignment of the whole struct), and the type and object metadata of a track, whose
    deep copy belongs to the Kubernetes library and is taken to give an
    equal value. *)
Context {Plain Meta : Type}.

(** [Environment]: [Applications] is a slice of strings, [None] is the
    nil slice. *)
Record Environment := mkEnvironment {
  env_plain : Plain;
  env_Applications : option loc
}.

(** [RepositorySubscription]: [IgnoreTagsTags] is a slice of strings. *)
Record RepositorySubscription := mkSubscription {
  sub_plain : Plain;
  sub_IgnoreTagsTags : option loc
}.

(** [Track]: two slices of structs. *)
Record Track := mkTrack {
  track_meta : Meta;
  track_RepositorySubscriptions : option loc;
  track_Environments : option loc
}.

(** Memory: the backing arrays of the slices of strings, the
    [NewImageChange] structs pointed to, and the backing arrays of the
    slices of subscriptions and of environments. *)
Record Heap := mkHeap {
  h_strings : gmap loc (list string);
  h_images : gmap loc NewImageChange;
  h_subs : gmap loc (list RepositorySubscription);
  h_envs : gmap loc (list Environment)
}.

(** The copy of a slice of strings: under the guard that the slice is
    not nil, an array of the same length is made and the elements are
    copied into it. *)
Definition copyStrings (s : option loc) (h : Heap) : option loc * Heap :=
  match s with
  | None => (None, h)
  | Some l =>
      let l' := fresh (dom (h_strings h)) in
      (Some l',
       mkHeap (<[l' := default [] (h_strings h !! l)]> (h_strings h))
              (h_images h) (h_subs h) (h_envs h))
  end.

(** Lines 48-55: [Environment.DeepCopyInto]; the value written to
    [*out] and the memory left. *)
Definition Environment_DeepCopyInto (e : Environment) (h : Heap)
    : Environment * Heap :=
  let '(apps, h') := copyStrings (env_Applications e) h in
  (mkEnvironment (env_plain e) apps, h').

(** Lines 131-138: [RepositorySubscription.DeepCopyInto]. *)
Definition RepositorySubscription_DeepCopyInto (r : RepositorySubscription)
    (h : Heap) : RepositorySubscription * Heap :=
  let '(tags, h') := copyStrings (sub_IgnoreTagsTags r) h in
  (mkSubscription (sub_plain r) tags, h').

(** Lines 13-20: [Change.DeepCopyInto]. A non-nil pointer points to a
    struct; were it not in memory, the zero struct is read. *)
Definition Change_DeepCopyInto (c : Change) (h : Heap) : Change * Heap :=
  match change_NewImage c with
  | None => (c, h)
  | Some p =>
      let p' := fresh (dom (h_images h)) in
      (mkChange (Some p'),
       mkHeap (h_strings h)
              (<[p' := default (mkNewImage "" "") (h_images h !! p)]>
                 (h_images h))
              (h_subs h) (h_envs h))
  end.

(** The loop over the indices of a slice of structs, which deep-copies
    element [i] of the one into element [i] of the other: the elements
    are copied one after the other. *)
Fixpoint copyEach {A : Type} (copy : A -> Heap -> A * Heap) (l : list A)
    (h : Heap) : list A * Heap :=
  match l with
  | [] => ([], h)
  | a :: rest =>
      let '(a', h1) := copy a h in
      let '(rest', h2) := copyEach copy rest h1 in
      (a' :: rest', h2)
  end.

(** Lines 232-250: [Track.DeepCopyInto]. The new array of a slice is
    made before its elements are copied into it. *)
Definition Track_DeepCopyInto (t : Track) (h : Heap) : Track * Heap :=
  let '(subs, h1) :=
    match track_RepositorySubscriptions t with
    | None => (None, h)
    | Some l =>
        let l' := fresh (dom (h_subs h)) in
        let '(copies, h') :=
          copyEach RepositorySubscription_DeepCopyInto
                   (default [] (h_subs h !! l)) h in
        (Some l',
         mkHeap (h_strings h') (h_images h') (<[l' := copies]> (h_subs h'))
                (h_envs h'))
    end in
  let '(envs, h2) :=
    match track_Environments t with
    | None => (None, h1)
    | Some l =>
        let l' := fresh (dom (h_envs h1)) in
        let '(copies, h') :=
          copyEach Environment_DeepCopyInto
                   (default [] (h_envs h1 !! l)) h1 in
        (Some l',
         mkHeap (h_strings h') (h_images h') (h_subs h')
                (<[l' := copies]> (h_envs h')))
    end in
  (mkTrack (track_meta t) subs envs, h2).

(** What a value holds, references followed: the strings of a slice,
    and the values of an environment, a subscription and a track. *)
Definition stringsAt (h : Heap) (s : option loc) : option (list string) :=
  match s with
  | None => None
  | Some l => Some (default [] (h_strings h !! l))
  end.

Definition envValue (h : Heap) (e : Environment)
    : Plain * option (list string) :=
  (env_plain e, stringsAt h (env_Applications e)).

Definition subValue (h : Heap) (r : RepositorySubscription)
    : Plain * option (list string) :=
  (sub_plain r, stringsAt h (sub_IgnoreTagsTags r)).

Definition trackValue (h : Heap) (t : Track)
    : Meta * option (list (Plain * option (list string)))
           * option (list (Plain * option (list string))) :=
  (track_meta t,
   match track_RepositorySubscriptions t with
   | None => None
   | Some l => Some (subValue h <$> default [] (h_subs h !! l))
   end,
   match track_Environments t with
   | None => None
   | Some l => Some (envValue h <$> default [] (h_envs h !! l))
   end).

(** Every cell of [h] is in [h'] with the same contents. *)
Definition preserved (h h' : Heap) : Prop :=
  (forall l, l ∈ dom (h_strings h) -> h_strings h' !! l = h_strings h !! l) /\
  (forall l, l ∈ dom (h_images h) -> h_images h' !! l = h_images h !! l) /\
  (forall l, l ∈ dom (h_subs h) -> h_subs h' !! l = h_subs h !! l) /\
  (forall l, l ∈ dom (h_envs h) -> h_envs h' !! l = h_envs h !! l).

(** The slices of a track and of its elements point into memory. *)
Definition allocated (h : Heap) (t : Track) : Prop :=
  (forall l, track_RepositorySubscriptions t = Some l ->
     exists subs,
       h_subs h !! l = Some subs /\
       Forall (fun r => forall l', sub_IgnoreTagsTags r = Some l' ->
                                   l' ∈ dom (h_strings h)) subs) /\
  (forall l, track_Environments t = Some l ->
     exists envs,
       h_envs h !! l = Some envs /\
       Forall (fun e => forall l', env_Applications e = Some l' ->
                                   l' ∈ dom (h_strings h)) envs).

(** The arrays of strings reachable from a track. *)
Definition stringArrays (h : Heap) (t : Track) : list loc :=
  match track_RepositorySubscriptions t with
  | None => []
  | Some l => omap sub_IgnoreTagsTags (default [] (h_subs h !! l))
  end ++
  match track_Environments t with
  | None => []
  | Some l => omap env_Applications (default [] (h_envs h !! l))
  end.

(** [a[i] = x] on the array of strings at [l]. *)
Definition writeString (l : loc) (i : nat) (x : string) (h : Heap) : Heap :=
  mkHeap (alter (fun arr => <[i := x]> arr) l (h_strings h))
         (h_images h) (h_subs h) (h_envs h).

End Types.

(** Test input: a track with one subscription that ignores two tags and
    one environment with one application. *)
Definition demoHeap : @Heap string :=
  mkHeap {[ 1%positive := ["latest"; "dev"]; 2%positive := ["guestbook"] ]}
         ∅
         {[ 1%positive := [mkSubscription "nginx" (Some 1%positive)] ]}
         {[ 1%positive := [mkEnvironment "prod" (Some 2%positive)] ]}.

Definition demoTrack : @Track string :=
  mkTrack "track-a" (Some 1%positive) (Some 1%positive).

End DeepCopy.

(** * Properties *)

(** ** The resolver *)

Module ArgocdFacts.
Import Argocd.

(** The sources the [switch] has a case for. *)
Lemma classifiable_eqb source :
  classifiable source
  = negb (String.eqb (src_Chart source) "") ||
    negb (String.eqb (src_RepoURL source) "").
Proof.
  unfold classifiable, isHelm, isGit.
  destruct (String.eqb (src_Chart source) ""); reflexivity.
Qed.

Section LoopFacts.

Context {Stage Err : Type}.
Variable GetDesiredOrigin :
  Stage -> ArgoCDAppUpdate -> PromoMechanism -> option FreightOrigin.
Variable FindChart :
  Stage -> option FreightOrigin -> list FreightReference ->
  string -> string -> option Chart * option Err.
Variable FindCommit :
  Stage -> option FreightOrigin -> list FreightReference ->
  string -> option GitCommit * option Err.
Variable stage : Stage.
Variable frght : list FreightReference.

Local Abbreviation loop :=
  (resolveSources GetDesiredOrigin FindChart FindCommit stage frght).
Local Abbreviation entry :=
  (resolvedEntry GetDesiredOrigin FindChart FindCommit stage frght).
Local Abbreviation looked :=
  (performedLookup GetDesiredOrigin stage).

(** The loop appends to the revisions it is given one entry per
    classifiable source it gets through, in order, and gets through all
    of them exactly when it returns no error. *)
Lemma resolveSources_revisions upd app sources :
  forall revisions trace revs err,
    outcome (loop (Some upd) app sources revisions trace) = Returned revs err ->
    exists new,
      revs = revisions ++ new /\
      Forall2 (entry upd app)
              (take (length new) (List.filter classifiable sources)) new /\
      (err = None ->
       length new = length (List.filter classifiable sources)) /\
      (err <> None ->
       (length new < length (List.filter classifiable sources))%nat).
Proof.
  induction sources as [|source rest IH]; intros revisions trace revs err H.
  - simpl in H. injection H as <- <-. exists []. rewrite app_nil_r.
    simpl. repeat split; auto. congruence.
  - change (List.filter classifiable (source :: rest))
      with (if classifiable source
            then source :: List.filter classifiable rest
            else List.filter classifiable rest).
    simpl in H.
    rewrite classifiable_eqb.
    destruct (String.eqb (src_Chart source) "") eqn:Hc; simpl in H |- *.
    + destruct (String.eqb (src_RepoURL source) "") eqn:Hr; simpl in H |- *.
      { apply IH in H. exact H. }
      destruct (FindCommit _ _ _ _) as [found [e|]] eqn:Hf.
      { assert (H' : Returned revisions
                       (Some (ErrFindingCommit (src_RepoURL source) e))
                     = Returned revs err)
          by (destruct found; exact H).
        injection H' as <- <-. exists []. rewrite app_nil_r. simpl.
        repeat split; auto; try congruence. intros _. lia. }
      assert (Hent : entry upd app source (commitRevision found)).
      { unfold resolvedEntry, isHelm. rewrite Hc. simpl.
        exists found. split; [|reflexivity].
        unfold effectiveOrigin, selectedMechanism, isHelm.
        rewrite Hc. simpl. exact Hf. }
      assert (Hstep : exists trace',
        outcome (loop (Some upd) app rest
                   (revisions ++ [commitRevision found]) trace')
        = Returned revs err).
      { eexists. destruct found as [c|]; simpl; [|exact H].
        destruct (String.eqb (commit_HealthCheckCommit c) "");
          simpl in *; exact H. }
      destruct Hstep as [trace' Hstep].
      apply IH in Hstep. destruct Hstep as (new & -> & HF & Hn & Hs).
      exists (commitRevision found :: new).
      rewrite <- app_assoc. simpl. repeat split.
      * constructor; assumption.
      * intros E. f_equal. auto.
      * intros E. apply Hs in E. lia.
    + destruct (app_Source app) as [appSource|] eqn:Ha; simpl in H;
        [|discriminate].
      destruct (chartLookupKey (src_RepoURL appSource) (src_Chart appSource))
        as [repoURL chartName] eqn:Hk.
      destruct (FindChart _ _ _ _ _) as [found [e|]] eqn:Hf.
      { assert (H' : Returned revisions
                       (Some (ErrFindingChart (src_RepoURL source) e))
                     = Returned revs err)
          by (destruct found; exact H).
        injection H' as <- <-. exists []. rewrite app_nil_r. simpl.
        repeat split; auto; try congruence. intros _. lia. }
      assert (Hent : entry upd app source (chartRevision found)).
      { unfold resolvedEntry, isHelm. rewrite Hc. simpl.
        exists appSource, found. rewrite Hk. simpl.
        split; [assumption|]. split; [|reflexivity].
        unfold effectiveOrigin, selectedMechanism, isHelm.
        rewrite Hc. simpl. exact Hf. }
      assert (Hstep : exists trace',
        outcome (loop (Some upd) app rest
                   (revisions ++ [chartRevision found]) trace')
        = Returned revs err).
      { eexists. destruct found as [c|]; simpl; exact H. }
      destruct Hstep as [trace' Hstep].
      apply IH in Hstep. destruct Hstep as (new & -> & HF & Hn & Hs).
      exists (chartRevision found :: new).
      rewrite <- app_assoc. simpl. repeat split.
      * constructor; assumption.
      * intros E. f_equal. auto.
      * intros E. apply Hs in E. lia.
Qed.

(** The loop appends to the lookups it is given the lookup of every
    classifiable source it reaches, in order, and reaches all of them
    when it returns no error. *)
Lemma resolveSources_lookups upd app sources :
  forall revisions trace,
    exists new,
      lookups (loop (Some upd) app sources revisions trace) = trace ++ new /\
      Forall2 (looked upd app)
              (take (length new) (List.filter classifiable sources)) new /\
      (forall revs,
         outcome (loop (Some upd) app sources revisions trace)
         = Returned revs None ->
         length new = length (List.filter classifiable sources)).
Proof.
  induction sources as [|source rest IH]; intros revisions trace.
  - exists []. simpl. rewrite app_nil_r. repeat split; auto.
  - change (List.filter classifiable (source :: rest))
      with (if classifiable source
            then source :: List.filter classifiable rest
            else List.filter classifiable rest).
    simpl.
    rewrite classifiable_eqb.
    destruct (String.eqb (src_Chart source) "") eqn:Hc; simpl.
    + destruct (String.eqb (src_RepoURL source) "") eqn:Hr; simpl.
      { apply IH. }
      assert (Hl : looked upd app source
                (CommitLookup
                   (GetDesiredOrigin stage upd
                      (targetPromoMechanism (matchesGitSource source) upd))
                   (src_RepoURL source))).
      { unfold performedLookup, effectiveOrigin, selectedMechanism, isHelm.
        rewrite Hc. reflexivity. }
      destruct (FindCommit _ _ _ _) as [[c|] [e|]]; simpl.
      1,3: eexists [_]; simpl; repeat split;
           [constructor; [exact Hl | constructor] | discriminate].
      * destruct (String.eqb (commit_HealthCheckCommit c) ""); simpl;
          match goal with
          | |- context [loop _ _ _ ?r ?t] =>
              destruct (IH r t) as (new & -> & HF & Hn)
          end;
          eexists (_ :: new); rewrite <- app_assoc; simpl; repeat split;
          try (constructor; [exact Hl | exact HF]);
          intros revs Hr'; f_equal; eapply Hn; exact Hr'.
      * match goal with
        | |- context [loop _ _ _ ?r ?t] =>
            destruct (IH r t) as (new & -> & HF & Hn)
        end.
        eexists (_ :: new). rewrite <- app_assoc. simpl. repeat split.
        -- constructor; [exact Hl | exact HF].
        -- intros revs Hr'. f_equal. eapply Hn. exact Hr'.
    + destruct (app_Source app) as [appSource|] eqn:Ha; simpl.
      2: { exists []. simpl. rewrite app_nil_r.
           repeat split; [constructor | discriminate]. }
      assert (Hl : looked upd app source
                (ChartLookup
                   (GetDesiredOrigin stage upd
                      (targetPromoMechanism (matchesChartSource source) upd))
                   (chartLookupKey (src_RepoURL appSource)
                                   (src_Chart appSource)).1
                   (chartLookupKey (src_RepoURL appSource)
                                   (src_Chart appSource)).2)).
      { unfold performedLookup, effectiveOrigin, selectedMechanism, isHelm.
        rewrite Hc. simpl. exists appSource. split; [exact Ha | reflexivity]. }
      destruct (chartLookupKey (src_RepoURL appSource) (src_Chart appSource))
        as [repoURL chartName]. simpl in Hl.
      destruct (FindChart _ _ _ _ _) as [[c|] [e|]]; simpl.
      1,3: eexists [_]; simpl; repeat split;
           [constructor; [exact Hl | constructor] | discriminate].
      all: match goal with
           | |- context [loop _ _ _ ?r ?t] =>
               destruct (IH r t) as (new & -> & HF & Hn)
           end;
           eexists (_ :: new); rewrite <- app_assoc; simpl; repeat split;
           try (constructor; [exact Hl | exact HF]);
           intros revs Hr'; f_equal; eapply Hn; exact Hr'.
Qed.


End LoopFacts.






Section Claims.

Context {Stage Err : Type}.
Variable GetDesiredOrigin :
  Stage -> ArgoCDAppUpdate -> PromoMechanism -> option FreightOrigin.
Variable FindChart :
  Stage -> option FreightOrigin -> list FreightReference ->
  string -> string -> option Chart * option Err.
Variable FindCommit :
  Stage -> option FreightOrigin -> list FreightReference ->
  string -> option GitCommit * option Err.
Variable stage : Stage.
Variable frght : list FreightReference.

Local Abbreviation resolver :=
  (GetDesiredRevisions GetDesiredOrigin FindChart FindCommit stage frght).
Local Abbreviation originOf :=
  (effectiveOrigin GetDesiredOrigin stage).

(** Every returned list is aligned with the classifiable sources the
    loop got through. *)
Lemma GetDesiredRevisions_entries upd app revs err :
  outcome (resolver (Some upd) (Some app)) = Returned revs err ->
  Forall2 (resolvedEntry GetDesiredOrigin FindChart FindCommit stage frght
                         upd app)
          (take (length revs) (List.filter classifiable (inputSources app)))
          revs /\
  (err = None ->
   length revs = length (List.filter classifiable (inputSources app))) /\
  (err <> None ->
   (length revs < length (List.filter classifiable (inputSources app)))%nat).
Proof.
  unfold GetDesiredRevisions, inputSources.
  destruct (sourcesOf app) as [sources|]; intros H.
  - apply resolveSources_revisions in H.
    destruct H as (new & -> & HF & Hn & Hs). simpl. auto.
  - simpl in H. injection H as <- <-. simpl.
    repeat split; [constructor | congruence].
Qed.

(** C1 (evaluation at the failing input). The two-source application of
    the scenario lists its sources in [spec.sources] and has no
    [spec.source]; on it the resolver panics on the Helm source, before
    any lookup, whatever the finders are. *)
Theorem C1_two_source_scenario_panics (upd : ArgoCDAppUpdate) :
  resolver (Some upd) (Some Scenario.twoSourceApp) = mkRun Panicked [].
Proof. reflexivity. Qed.

(** When the resolver returns without an error, its list has exactly
    one entry per classifiable source, in the order of the sources: the
    entry of a Git source is the revision of the commit looked up for
    it, the entry of a Helm source that is the application's
    [spec.source] is the version of the chart looked up for it, and
    either is the empty string when the artifact is not found under the
    effective origin. When it returns an error, the list is strictly
    shorter than the classifiable sources. *)
Lemma returned_entries_of_own_artifacts upd app revs err :
  outcome (resolver (Some upd) (Some app)) = Returned revs err ->
  (err = None ->
   Forall2
     (fun source revision =>
        ownRevision GetDesiredOrigin FindChart FindCommit stage frght
                    upd app source revision /\
        (artifactAbsent GetDesiredOrigin FindChart FindCommit stage frght
                        upd app source ->
         revision = ""))
     (List.filter classifiable (inputSources app)) revs) /\
  (err <> None ->
   (length revs < length (List.filter classifiable (inputSources app)))%nat).
Proof.
  intros H. apply GetDesiredRevisions_entries in H.
  destruct H as (HF & Hn & Hs). split; [|exact Hs].
  intros E. specialize (Hn E). rewrite Hn, firstn_all in HF.
  eapply Forall2_impl; [exact HF|].
  intros source revision Hent.
  unfold resolvedEntry in Hent. unfold ownRevision, artifactAbsent, ownChartKey.
  destruct (isHelm source).
  - destruct Hent as (appSource & found & Ha & Hf & ->). split.
    + intros Ha'. rewrite Ha' in Ha. injection Ha as <-.
      exists found. split; [exact Hf | reflexivity].
    + intros [Ha' Hf']. rewrite Ha' in Ha. injection Ha as <-.
      rewrite Hf' in Hf. injection Hf as <-. reflexivity.
  - destruct Hent as (found & Hf & ->). split.
    + exists found. split; [exact Hf | reflexivity].
    + intros Habs. rewrite Habs in Hf. injection Hf as <-. reflexivity.
Qed.

(** C3 (evaluation at the failing inputs). For the Helm source
    [registry.example.com/charts/] with chart [b], listed in
    [spec.sources]: without a [spec.source] the resolver panics before
    any lookup, and next to the [spec.source]
    [https://charts.example.com] with chart [a] its one lookup is made
    with that other URL and chart name, not with
    [oci://registry.example.com/charts/b] and an empty chart name. *)
Theorem C3_chart_lookup_reads_spec_source (upd : ArgoCDAppUpdate) :
  resolver (Some upd) (Some Scenario.ociAppNoSource) = mkRun Panicked [] /\
  lookups (resolver (Some upd) (Some Scenario.ociAppOtherSource))
  = [ChartLookup (originOf upd Scenario.ociSource)
                 "https://charts.example.com" "a"].
Proof.
  split; [reflexivity|].
  unfold GetDesiredRevisions. simpl.
  destruct (FindChart _ _ _ _ _) as [[c|] [e|]]; reflexivity.
Qed.

(** On an application whose only source is its [spec.source], a Helm
    source with no scheme in its repo URL is looked up under the
    [oci://] path that ends in its chart name, with an empty chart
    name. *)
Lemma single_source_oci_lookup upd source :
  isHelm source = true ->
  GoStrings.Contains (src_RepoURL source) "://" = false ->
  lookups (resolver (Some upd) (Some (mkApp (Some source) None)))
  = [ChartLookup (originOf upd source)
       ("oci://" +:+ GoStrings.TrimSuffix (src_RepoURL source) "/" +:+ "/"
          +:+ src_Chart source)
       ""].
Proof.
  intros Hh Hc. unfold GetDesiredRevisions. simpl.
  unfold isHelm in Hh. unfold effectiveOrigin, selectedMechanism, isHelm.
  rewrite Hh. simpl. unfold chartLookupKey. rewrite Hc. simpl.
  destruct (FindChart _ _ _ _ _) as [[c|] [e|]]; reflexivity.
Qed.



End Claims.

(** The scenario of C1 on the application that also names the Helm source
    as its [spec.source]: the resolver returns the two revisions. *)
Lemma two_source_scenario_with_spec_source :
  outcome (Freight.resolve Scenario.stage Scenario.frght
             (Some Scenario.update) (Some Scenario.twoSourceAppWithSource))
  = Returned ["1.2.3"; "abc123"] None.
Proof. reflexivity. Qed.

(** The same on the OCI registry source of the scenario. *)
Lemma oci_single_source_example :
  lookups (Freight.resolve Scenario.stage Scenario.frght
             (Some Scenario.update) (Some Scenario.ociSingleApp))
  = [ChartLookup (Some Scenario.w1) "oci://registry.example.com/charts/b" ""].
Proof. reflexivity. Qed.

(** C2 (evaluation at the failing input). The application lists the
    Helm source [registry.example.com/charts/] with chart [b] in
    [spec.sources], next to the [spec.source]
    [https://charts.example.com] with chart [a]; the freight holds chart
    [a] at 9.9.9 and no chart [b]. The source is the one classifiable
    source and its chart is not found under any origin policy, yet the
    resolver returns without error the list whose one entry is 9.9.9,
    the version of the chart of [spec.source], and not the empty
    string. *)
Theorem C2_absent_chart_takes_spec_source_version :
  List.filter classifiable (inputSources Scenario.ociAppOtherSource)
  = [Scenario.ociSource] /\
  (forall policy,
     Freight.FindChart Scenario.stage policy Scenario.otherChartFrght
       (ownChartKey Scenario.ociSource).1 (ownChartKey Scenario.ociSource).2
     = (None, None) /\
     Freight.FindChart Scenario.stage policy Scenario.otherChartFrght
       (src_RepoURL Scenario.ociSource) (src_Chart Scenario.ociSource)
     = (None, None)) /\
  Freight.resolve Scenario.stage Scenario.otherChartFrght
                  (Some Scenario.update) (Some Scenario.ociAppOtherSource)
  = mkRun (Returned ["9.9.9"] None)
          [ChartLookup (Some Scenario.w1) "https://charts.example.com" "a"].
Proof.
  split; [reflexivity|]. split; [|reflexivity].
  intros policy. unfold Freight.FindChart, Scenario.otherChartFrght.
  simpl.
  destruct (Freight.satisfies Scenario.stage policy _); split; reflexivity.
Qed.

(** With a commit finder that fails on the second of two Git sources,
    the resolver returns, with the error, a list with one entry for two
    classifiable sources. *)
Lemma partial_list_on_lookup_failure :
  ~ (forall revs err,
       outcome (GetDesiredRevisions Freight.GetDesiredOrigin
                  Scenario.neverFindChart Scenario.failingFindCommit
                  Scenario.stage Scenario.frght
                  (Some Scenario.update) (Some Scenario.twoGitApp))
       = Returned revs err ->
       length revs
       = length (List.filter classifiable (inputSources Scenario.twoGitApp))).
Proof.
  intros H.
  specialize (H [""]
                (Some (ErrFindingCommit "https://b"
                                        "listing warehouses failed"))
                eq_refl).
  discriminate H.
Qed.

(** The single Git source of the scenario on empty freight. *)
Lemma returned_entries_example :
  Forall2
    (fun source revision =>
       ownRevision Freight.GetDesiredOrigin Freight.FindChart
                   Freight.FindCommit Scenario.stage []
                   Scenario.update Scenario.gitApp source revision /\
       (artifactAbsent Freight.GetDesiredOrigin Freight.FindChart
                       Freight.FindCommit Scenario.stage []
                       Scenario.update Scenario.gitApp source ->
        revision = ""))
    [Scenario.gitSource] [""].
Proof.
  apply (returned_entries_of_own_artifacts
           Freight.GetDesiredOrigin Freight.FindChart Freight.FindCommit
           Scenario.stage [] Scenario.update Scenario.gitApp [""] None).
  - reflexivity.
  - reflexivity.
Defined.



End ArgocdFacts.

(** ** The Bookkeeper mechanism *)

Module BookkeeperFacts.
Import Bookkeeper.

Section LoopFacts.

Context {World Err : Type}.
Variable doSingleUpdateFn :
  string -> GitRepoUpdate -> StageState -> list string ->
  @Mem World -> @Result World Err.

(** The loop runs through a prefix of error-free updates and goes on
    with the rest from the state and memory they leave. *)
Lemma promoteUpdates_processed namespace images before rest s m s1 m1 :
  processed doSingleUpdateFn namespace images before s m s1 m1 ->
  promoteUpdates doSingleUpdateFn namespace images (before ++ rest) s m
  = promoteUpdates doSingleUpdateFn namespace images rest s1 m1.
Proof.
  induction 1 as [|update before' s m s' m' s1 m1 Hcall _ IH]; simpl.
  - reflexivity.
  - rewrite Hcall. exact IH.
Qed.

(** C6. When the update step fails on one Bookkeeper update, after the
    updates before it went through, [Promote] returns the error and the
    state of that failing call, and the memory is the one the failing call
    left: the updates after it are not processed. *)
Theorem C6_promote_stops_at_first_error
    stg newState (m : @Mem World) before update rest
    copied store0 s1 m1 s2 err m2 :
  bookkeeperUpdates stg = before ++ update :: rest ->
  DeepCopy newState (store m) = (copied, store0) ->
  processed doSingleUpdateFn (stage_Namespace stg) (imageRefs copied)
            before copied (mkMem store0 (world m)) s1 m1 ->
  doSingleUpdateFn (stage_Namespace stg) update s1 (imageRefs copied) m1
  = Ret s2 (Some err) m2 ->
  Promote doSingleUpdateFn (Some stg) newState m = Ret s2 (Some err) m2.
Proof.
  intros Hupd Hcopy Hbefore Hfail. unfold Promote.
  rewrite Hupd, Hcopy.
  destruct (length (before ++ update :: rest) =? 0)%nat eqn:Hlen.
  - apply Nat.eqb_eq in Hlen. rewrite length_app in Hlen. simpl in Hlen. lia.
  - rewrite (promoteUpdates_processed _ _ _ _ _ _ _ _ Hbefore).
    simpl. rewrite Hfail. reflexivity.
Qed.

End LoopFacts.

Section UpdateFacts.

Context {World Err : Type}.
Variable getReadRefFn :
  GitRepoUpdate -> list GitCommit -> string * Z * option Err.
Variable getCredentialsFn :
  string -> string -> World -> (Credentials * bool * option Err) * World.
Variable renderManifestsFn :
  RenderRequest -> World -> (RenderResponse * option Err) * World.

Local Abbreviation update1 :=
  (doSingleUpdate getReadRefFn getCredentialsFn renderManifestsFn).

(** C7. When the read ref has the index of a commit of the state, the
    credentials lookup does not fail and the render collaborator reports
    a direct push or no changes, the update returns no error and has
    written the response's commit ID into the [HealthCheckCommit] of the
    commit at that index, leaving the rest of memory as it was. *)
Theorem C7_render_result_recorded
    namespace update newState images (m : @Mem World)
    readRef commitIndex creds ok w1 res w2 l arr commit :
  getReadRefFn update (contents (store m) (state_Commits newState))
  = (readRef, commitIndex, None) ->
  getCredentialsFn namespace (gru_RepoURL update) (world m)
  = ((creds, ok, None), w1) ->
  renderManifestsFn
    (mkRequest (gru_RepoURL update)
       (if ok
        then mkRepoCreds (creds_Username creds) (creds_Password creds)
                         (creds_SSHPrivateKey creds)
        else mkRepoCreds "" "" "")
       readRef images (gru_WriteBranch update))
    w1
  = ((res, None), w2) ->
  res_ActionTaken res = ActionTakenPushedDirectly \/
  res_ActionTaken res = ActionTakenNone ->
  state_Commits newState = Some l ->
  store m !! l = Some arr ->
  (0 <= commitIndex)%Z ->
  arr !! Z.to_nat commitIndex = Some commit ->
  let recorded := withHealthCheckCommit commit (res_CommitID res) in
  let store' := <[l := <[Z.to_nat commitIndex := recorded]> arr]> (store m) in
  update1 namespace update newState images m
  = Ret newState None (mkMem store' w2) /\
  commit_HealthCheckCommit recorded = res_CommitID res /\
  contents store' (state_Commits newState) !! Z.to_nat commitIndex
  = Some recorded.
Proof.
  intros Href Hcreds Hrender Haction Hslice Harr Hidx Hcommit recorded store'.
  split; [|split].
  - unfold doSingleUpdate. rewrite Href, Hcreds. simpl. rewrite Hrender.
    simpl.
    assert (Hrec : @recordCommit World Err newState commitIndex
                     (res_CommitID res) (mkMem (store m) w2)
                   = Ret newState None (mkMem store' w2)).
    { unfold recordCommit, setHealthCheckCommit. simpl.
      rewrite Hslice, Harr.
      replace (commitIndex >? -1)%Z with true by lia.
      replace (commitIndex <? 0)%Z with false by lia.
      rewrite Hcommit. reflexivity. }
    destruct Haction as [-> | ->]; exact Hrec.
  - reflexivity.
  - unfold contents. rewrite Hslice. subst store'.
    rewrite lookup_insert_eq. simpl.
    apply list_lookup_insert_eq. eapply lookup_lt_Some. exact Hcommit.
Qed.

(** When the read ref names no commit of the state (index -1), nothing
    is recorded and the update returns no error all the same. *)
Lemma render_result_without_commit
    namespace update newState images (m : @Mem World)
    readRef creds ok w1 res w2 :
  getReadRefFn update (contents (store m) (state_Commits newState))
  = (readRef, (-1)%Z, None) ->
  getCredentialsFn namespace (gru_RepoURL update) (world m)
  = ((creds, ok, None), w1) ->
  renderManifestsFn
    (mkRequest (gru_RepoURL update)
       (if ok
        then mkRepoCreds (creds_Username creds) (creds_Password creds)
                         (creds_SSHPrivateKey creds)
        else mkRepoCreds "" "" "")
       readRef images (gru_WriteBranch update))
    w1
  = ((res, None), w2) ->
  update1 namespace update newState images m
  = Ret newState None (mkMem (store m) w2).
Proof.
  intros Href Hcreds Hrender.
  unfold doSingleUpdate. rewrite Href, Hcreds. simpl. rewrite Hrender. simpl.
  destruct (res_ActionTaken res); reflexivity.
Qed.

(** The update step returns the state it was given and writes at most
    into the backing array of that state's commits. *)
Lemma doSingleUpdate_frame namespace update newState images (m : @Mem World) :
  (forall s err m', update1 namespace update newState images m = Ret s err m' ->
                    s = newState) /\
  (forall l, state_Commits newState <> Some l ->
     store (finalMem (update1 namespace update newState images m)) !! l
     = store m !! l).
Proof.
  assert (Hrec : forall idx id (m0 : @Mem World),
    store m0 = store m ->
    (forall s err m', @recordCommit World Err newState idx id m0 = Ret s err m' ->
                      s = newState) /\
    (forall l, state_Commits newState <> Some l ->
       store (finalMem (@recordCommit World Err newState idx id m0)) !! l
       = store m !! l)).
  { intros idx id m0 Hm0. unfold recordCommit, setHealthCheckCommit.
    destruct (idx >? -1)%Z; [|split; simpl; intros; congruence].
    destruct (state_Commits newState) as [l0|];
      [|split; simpl; intros; congruence].
    destruct (store m0 !! l0) as [arr|];
      [|split; simpl; intros; congruence].
    destruct (idx <? 0)%Z; [split; simpl; intros; congruence|].
    destruct (arr !! Z.to_nat idx);
      [|split; simpl; intros; congruence].
    split; simpl.
    - intros s err m' H. congruence.
    - intros l Hl. rewrite lookup_insert_ne by congruence. congruence. }
  unfold doSingleUpdate.
  destruct (getReadRefFn _ _) as [[readRef commitIndex] [e|]];
    [split; simpl; intros; congruence|].
  destruct (getCredentialsFn _ _ _) as [[[creds ok] [e|]] w1];
    [split; simpl; intros; congruence|].
  destruct (renderManifestsFn _ _) as [[res [e|]] w2];
    [split; simpl; intros; congruence|].
  destruct (res_ActionTaken res).
  - apply Hrec. reflexivity.
  - apply Hrec. reflexivity.
  - split; simpl; intros; congruence.
Qed.

(** So does the loop of [Promote] over the default update step. *)
Lemma promoteUpdates_frame namespace images updates :
  forall newState (m : @Mem World) l,
    state_Commits newState <> Some l ->
    store (finalMem (promoteUpdates update1 namespace images updates
                                    newState m)) !! l
    = store m !! l.
Proof.
  induction updates as [|update rest IH]; intros newState m l Hl; simpl.
  - reflexivity.
  - destruct (doSingleUpdate_frame namespace update newState images m)
      as [Hsame Hframe].
    specialize (Hframe l Hl).
    destruct (update1 namespace update newState images m)
      as [s [err|] m' | m'] eqn:Hcall; simpl in *.
    + exact Hframe.
    + rewrite (Hsame _ _ _ eq_refl). rewrite IH by exact Hl. exact Hframe.
    + exact Hframe.
Qed.

(** C10. Without a Bookkeeper update [Promote] returns the state it was
    given, no error, and the memory untouched; and in every case each
    backing array that existed before the call, the one of the caller's
    commits among them, has the contents it had. *)
Theorem C10_promote_leaves_input_state
    (stg : Stage) (newState : StageState) (m : @Mem World) :
  (bookkeeperUpdates stg = [] ->
   PromoteDefault getReadRefFn getCredentialsFn renderManifestsFn
                  (Some stg) newState m
   = Ret newState None m) /\
  (forall l, l ∈ dom (store m) ->
     store (finalMem (PromoteDefault getReadRefFn getCredentialsFn
                        renderManifestsFn (Some stg) newState m)) !! l
     = store m !! l) /\
  (forall l, state_Commits newState = Some l -> l ∈ dom (store m) ->
     contents
       (store (finalMem (PromoteDefault getReadRefFn getCredentialsFn
                           renderManifestsFn (Some stg) newState m)))
       (state_Commits newState)
     = contents (store m) (state_Commits newState)).
Proof.
  assert (Hframe : forall l, l ∈ dom (store m) ->
     store (finalMem (PromoteDefault getReadRefFn getCredentialsFn
                        renderManifestsFn (Some stg) newState m)) !! l
     = store m !! l).
  { intros l Hl. unfold PromoteDefault, Promote.
    destruct (length (bookkeeperUpdates stg) =? 0)%nat; [reflexivity|].
    unfold DeepCopy.
    destruct (state_Commits newState) as [l0|] eqn:Hslice.
    - pose proof (is_fresh (dom (store m))) as Hfresh.
      rewrite promoteUpdates_frame.
      + simpl. apply lookup_insert_ne. intros E. rewrite E in Hfresh.
        contradiction.
      + simpl. intros E. injection E as E. rewrite E in Hfresh.
        contradiction.
    - rewrite promoteUpdates_frame; [reflexivity|].
      rewrite Hslice. discriminate. }
  split; [|split].
  - intros Hnone. unfold PromoteDefault, Promote. rewrite Hnone. reflexivity.
  - exact Hframe.
  - intros l Hslice Hl. rewrite Hslice. unfold contents.
    rewrite Hframe by exact Hl. reflexivity.
Qed.

End UpdateFacts.

Import BookkeeperScenario.

Lemma C6_witness :
  exists s2 m2,
    Promote testUpdate (Some failingStage) callerState callerMem
    = Ret s2 (Some (ErrRenderingManifests "https://bad" "render failed")) m2 /\
    world m2 = ["https://good"].
Proof.
  eexists _, _. split.
  - eapply (C6_promote_stops_at_first_error testUpdate failingStage
              callerState callerMem [goodUpdate] badUpdate [otherUpdate]).
    + reflexivity.
    + reflexivity.
    + eapply processed_cons; [reflexivity | apply processed_nil].
    + reflexivity.
  - reflexivity.
Defined.

Lemma C7_witness :
  testUpdate "kargo-demo" goodUpdate callerState ["nginx:1.25"] callerMem
  = Ret callerState None
        (mkMem (<[1%positive :=
                    <[0%nat := mkCommit "https://good" "abc123" "rendered1"]>
                      [goodCommit]]> (store callerMem))
               ["https://good"]).
Proof.
  apply (C7_render_result_recorded readRef noCredentials render
           "kargo-demo" goodUpdate callerState ["nginx:1.25"] callerMem
           "main" 0%Z (mkCreds "" "" "") false []
           (mkResponse ActionTakenPushedDirectly "rendered1")
           ["https://good"] 1%positive [goodCommit] goodCommit).
  - reflexivity.
  - reflexivity.
  - reflexivity.
  - left. reflexivity.
  - reflexivity.
  - reflexivity.
  - lia.
  - reflexivity.
Defined.

Lemma C10_witness :
  PromoteDefault readRef noCredentials render (Some plainStage)
                 callerState callerMem
  = Ret callerState None callerMem /\
  contents
    (store (finalMem (PromoteDefault readRef noCredentials render
                        (Some goodStage) callerState callerMem)))
    (state_Commits callerState)
  = [goodCommit].
Proof.
  split.
  - apply (C10_promote_leaves_input_state readRef noCredentials render
             plainStage callerState callerMem).
    reflexivity.
  - apply (C10_promote_leaves_input_state readRef noCredentials render
             goodStage callerState callerMem) with (l := 1%positive).
    + reflexivity.
    + apply elem_of_dom. exists [goodCommit]. reflexivity.
Defined.

End BookkeeperFacts.


(** ** The git-push configuration schema *)

Module GitPushFacts.
Import Json GitPushSchema.

(** A configuration that passes the schema is an object in which exactly
    one of [generateTargetBranch=true] and a non-empty [targetBranch] is
    present. *)
Lemma valid_exactly_one config :
  valid GitPushConfig config = true ->
  exists fields,
    config = JObject fields /\
    ((generatesTargetBranch fields /\ ~ hasTargetBranch fields) \/
     (~ generatesTargetBranch fields /\ hasTargetBranch fields)).
Proof.
  intros Hv. unfold valid, GitPushConfig in Hv. cbn [forallb] in Hv.
  repeat (apply andb_true_iff in Hv; destruct Hv as [? Hv]).
  destruct config as [| | | | |fields]; try discriminate.
  exists fields. split; [reflexivity|].
  match goal with
  | Hp : validKeyword _ (KProperties _) _ = true,
    Ho : validKeyword _ (KOneOf _) _ = true |- _ =>
      cbn in Hp, Ho; revert Hp Ho
  end.
  unfold generatesTargetBranch, hasTargetBranch.
  destruct (field "generateTargetBranch" fields)
    as [[| [|] | n | s | l | o]|];
    destruct (field "targetBranch" fields)
      as [[| b | n' | [|a s'] | l' | o']|];
    cbn; intros Hp Ho; try discriminate;
    try (rewrite andb_false_r in Hp; discriminate);
    first
      [ left; split;
        [ reflexivity
        | intros (branch & Hb & Hne); try discriminate;
          injection Hb as <-; congruence ]
      | right; split;
        [ intros Hg; discriminate
        | eexists; split; [reflexivity | discriminate] ] ].
Qed.

(** C8. A configuration with both [generateTargetBranch=true] and a
    non-empty [targetBranch] fails validation, and a configuration is
    accepted only if exactly one of the two is present. *)
Theorem C8_git_push_exactly_one_target (config : value) :
  (forall fields branch,
     config = JObject fields ->
     field "generateTargetBranch" fields = Some (JBool true) ->
     field "targetBranch" fields = Some (JString branch) ->
     branch <> "" ->
     validate GitPushConfig config = ConfigInvalid) /\
  (validate GitPushConfig config = Valid ->
   exists fields,
     config = JObject fields /\
     ((generatesTargetBranch fields /\ ~ hasTargetBranch fields) \/
      (~ generatesTargetBranch fields /\ hasTargetBranch fields))).
Proof.
  unfold validate. split.
  - intros fields branch -> Hg Ht Hne.
    destruct (valid GitPushConfig (JObject fields)) eqn:Hv; [|reflexivity].
    exfalso. apply valid_exactly_one in Hv.
    destruct Hv as (fields' & [= <-] & [[_ Hno] | [Hno _]]).
    + apply Hno. exists branch. split; assumption.
    + apply Hno. exact Hg.
  - destruct (valid GitPushConfig config) eqn:Hv; [|discriminate].
    intros _. apply valid_exactly_one. exact Hv.
Qed.

(** The schema accepts each way of naming the target alone, and rejects
    a configuration that names none. *)
Lemma git_push_examples :
  validate GitPushConfig generateConfig = Valid /\
  validate GitPushConfig targetConfig = Valid /\
  validate GitPushConfig neitherConfig = ConfigInvalid.
Proof. repeat split. Qed.

Lemma C8_witness :
  validate GitPushConfig bothConfig = ConfigInvalid /\
  exists fields,
    generateConfig = JObject fields /\
    ((generatesTargetBranch fields /\ ~ hasTargetBranch fields) \/
     (~ generatesTargetBranch fields /\ hasTargetBranch fields)).
Proof.
  split.
  - apply (C8_git_push_exactly_one_target bothConfig)
      with (fields := [ ("path", JString "./repo");
                        ("generateTargetBranch", JBool true);
                        ("targetBranch", JString "stage/test") ])
           (branch := "stage/test").
    + reflexivity.
    + reflexivity.
    + reflexivity.
    + discriminate.
  - apply (C8_git_push_exactly_one_target generateConfig). reflexivity.
Defined.

End GitPushFacts.

(** ** The chart version diff *)

Module ChartDiffFacts.
Import ChartDiff.

Lemma CutPrefix_arrow old new :
  CutPrefix (old +:+ " -> " +:+ new) (old +:+ " -> ") = Some new.
Proof.
  induction old as [|a old IH]; simpl.
  - destruct new; reflexivity.
  - rewrite Ascii.eqb_refl. exact IH.
Qed.

Lemma arrow_entry_not_empty old new :
  String.eqb (old +:+ " -> " +:+ new) "" = false.
Proof. destruct old; reflexivity. Qed.

(** One name: the reported delta applied to the old version gives the
    new one. *)
Lemma applyChange_change before after :
  applyChange (change before after) before = after.
Proof.
  destruct before as [old|], after as [new|]; simpl; try reflexivity.
  destruct (String.eqb old new) eqn:E; simpl.
  - apply String.eqb_eq in E. congruence.
  - rewrite arrow_entry_not_empty. unfold rightHandSide.
    rewrite CutPrefix_arrow. reflexivity.
Qed.

(** Name by name, applying a diff is applying the delta of the name. *)
Lemma applyChanges_lookup (before after : gmap string string) name :
  applyChanges (compareChartVersions before after) before !! name
  = applyChange (change (before !! name) (after !! name)) (before !! name).
Proof.
  unfold applyChanges, compareChartVersions.
  rewrite !lookup_merge. unfold diag_None.
  destruct (before !! name) as [old|], (after !! name) as [new|];
    try reflexivity;
    match goal with
    | |- context [change ?b ?a] => destruct (change b a); reflexivity
    end.
Qed.

(** C9. The diff of a map with itself is empty; and for all maps
    [before] and [after], applying the diff of [before] and [after] to
    [before] (a name that is not in [before] inserted at the reported
    version, the version of a name reported as [old -> new] replaced by
    the right-hand side, a name of [before] reported with the empty
    string deleted) gives [after]. *)
Theorem C9_diff_round_trip :
  (forall X : gmap string string, compareChartVersions X X = ∅) /\
  (forall before after : gmap string string,
     applyChanges (compareChartVersions before after) before = after).
Proof.
  split.
  - intros X. apply map_eq. intros name.
    unfold compareChartVersions. rewrite lookup_merge, lookup_empty.
    destruct (X !! name) as [v|]; simpl; [|reflexivity].
    rewrite String.eqb_refl. reflexivity.
  - intros before after. apply map_eq. intros name.
    rewrite applyChanges_lookup. apply applyChange_change.
Qed.

(** A chart added at the empty version is reported with the empty
    string, like a removal; applied to a map that does not have the
    chart, the report is an addition. *)
Lemma empty_version_addition_example :
  compareChartVersions ∅ {[ "chart1" := "" ]} = {[ "chart1" := "" ]} /\
  applyChanges (compareChartVersions ∅ {[ "chart1" := "" ]}) ∅
  = ({[ "chart1" := "" ]} : gmap string string).
Proof.
  split.
  - apply map_eq. intros name. unfold compareChartVersions.
    rewrite lookup_merge, lookup_empty.
    destruct (({[ "chart1" := "" ]} : gmap string string) !! name);
      reflexivity.
  - apply map_eq. intros name.
    rewrite applyChanges_lookup. apply applyChange_change.
Qed.

(** The rows of the table of tests for [compareChartVersions]. *)
Lemma compareChartVersions_examples :
  compareChartVersions {[ "chart1" := "1.0.0"; "chart2" := "2.0.0" ]}
                       {[ "chart1" := "1.1.0"; "chart2" := "2.0.0" ]}
  = {[ "chart1" := "1.0.0 -> 1.1.0" ]} /\
  compareChartVersions {[ "chart1" := "1.0.0" ]}
                       {[ "chart1" := "1.0.0"; "chart2" := "2.0.0" ]}
  = {[ "chart2" := "2.0.0" ]} /\
  compareChartVersions {[ "chart1" := "1.0.0"; "chart2" := "2.0.0" ]}
                       {[ "chart1" := "1.0.0" ]}
  = {[ "chart2" := "" ]} /\
  compareChartVersions
    {[ "chart1" := "1.0.0"; "chart2" := "2.0.0"; "chart3" := "3.0.0" ]}
    {[ "chart1" := "1.1.0"; "chart2" := "2.0.0"; "chart4" := "4.0.0" ]}
  = {[ "chart1" := "1.0.0 -> 1.1.0"; "chart3" := ""; "chart4" := "4.0.0" ]}.
Proof. repeat split; vm_compute; reflexivity. Qed.

End ChartDiffFacts.

(** ** The lookup key of a chart *)

Module ChartKeyFacts.
Import GoStrings Argocd.

Lemma append_cons (a : ascii) (s t : string) :
  String a s +:+ t = String a (s +:+ t).
Proof. reflexivity. Qed.

Lemma length_append (s t : string) :
  String.length (s +:+ t) = (String.length s + String.length t)%nat.
Proof.
  induction s as [|a s IH]; [reflexivity|].
  rewrite append_cons. simpl. rewrite IH. reflexivity.
Qed.

Lemma append_assoc (s t u : string) : (s +:+ t) +:+ u = s +:+ t +:+ u.
Proof.
  induction s as [|a s IH]; [reflexivity|].
  rewrite !append_cons, IH. reflexivity.
Qed.

Lemma substring_all (s : string) : substring 0 (String.length s) s = s.
Proof. induction s as [|a s IH]; simpl; [reflexivity | now rewrite IH]. Qed.

Lemma substring_head (s t : string) :
  substring 0 (String.length s) (s +:+ t) = s.
Proof.
  induction s as [|a s IH].
  - destruct t; reflexivity.
  - rewrite append_cons. simpl. rewrite IH. reflexivity.
Qed.

Lemma substring_tail (s t : string) :
  substring (String.length s) (String.length t) (s +:+ t) = t.
Proof.
  induction s as [|a s IH]; [apply substring_all|].
  rewrite append_cons. simpl. exact IH.
Qed.

Lemma substring_split (s : string) :
  forall i, (i <= String.length s)%nat ->
    substring 0 i s +:+ substring i (String.length s - i) s = s.
Proof.
  induction s as [|a s IH]; intros [|i] Hi; simpl in *; try reflexivity; try lia.
  - now rewrite substring_all.
  - rewrite append_cons, IH by lia. reflexivity.
Qed.

(** [HasPrefix] and [Contains] mean what their names say. *)
Lemma HasPrefix_spec (p : string) :
  forall s, HasPrefix s p = true <-> exists rest, s = p +:+ rest.
Proof.
  induction p as [|a p IH]; intros s.
  - split; [intros _; exists s; reflexivity | intros _; destruct s; reflexivity].
  - destruct s as [|b s]; simpl.
    + split; [discriminate | intros [rest H]; discriminate].
    + rewrite andb_true_iff, IH. split.
      * intros [Hab [rest ->]]. apply Ascii.eqb_eq in Hab. subst b.
        exists rest. reflexivity.
      * intros [rest H]. injection H as -> ->. split.
        -- apply Ascii.eqb_refl.
        -- exists rest. reflexivity.
Qed.

Lemma Contains_unfold (s sub : string) :
  Contains s sub
  = HasPrefix s sub ||
    match s with EmptyString => false | String _ s' => Contains s' sub end.
Proof. destruct s; reflexivity. Qed.

Lemma Contains_spec (sub : string) :
  forall s,
    Contains s sub = true <-> exists before after, s = before +:+ sub +:+ after.
Proof.
  intros s. split.
  - induction s as [|a s IH]; rewrite Contains_unfold, orb_true_iff.
    + intros [H|H]; [|discriminate]. apply HasPrefix_spec in H.
      destruct H as [rest ->]. exists "", rest. reflexivity.
    + intros [H|H].
      * apply HasPrefix_spec in H. destruct H as [rest ->].
        exists "", rest. reflexivity.
      * apply IH in H. destruct H as (before & after & ->).
        exists (String a before), after. reflexivity.
  - intros (before & after & ->).
    induction before as [|a before IH]; rewrite Contains_unfold.
    + apply orb_true_iff. left. apply HasPrefix_spec. exists after.
      reflexivity.
    + simpl. rewrite IH. apply orb_true_r.
Qed.

(** [TrimSuffix] undoes appending the suffix, and what it returns for a
    string that ends with the suffix is that string without it. *)
Lemma TrimSuffix_append (s suffix : string) :
  TrimSuffix (s +:+ suffix) suffix = s.
Proof.
  unfold TrimSuffix, HasSuffix. rewrite length_append.
  replace (String.length s + String.length suffix - String.length suffix)%nat
    with (String.length s) by lia.
  rewrite substring_tail, String.eqb_refl, substring_head.
  replace (String.length suffix <=? String.length s + String.length suffix)%nat
    with true by (symmetry; apply Nat.leb_le; lia).
  reflexivity.
Qed.

Lemma TrimSuffix_restore (s suffix : string) :
  HasSuffix s suffix = true -> TrimSuffix s suffix +:+ suffix = s.
Proof.
  intros H. unfold TrimSuffix. rewrite H. unfold HasSuffix in H.
  apply andb_true_iff in H. destruct H as [Hlen Heq].
  apply Nat.leb_le in Hlen. apply String.eqb_eq in Heq.
  pose proof (substring_split s (String.length s - String.length suffix))
    as Hsplit.
  replace (String.length s - (String.length s - String.length suffix))%nat
    with (String.length suffix) in Hsplit by lia.
  rewrite Heq in Hsplit. apply Hsplit. lia.
Qed.

Lemma HasSuffix_append (s suffix : string) :
  HasSuffix (s +:+ suffix) suffix = true.
Proof.
  unfold HasSuffix. rewrite length_append.
  replace (String.length s + String.length suffix - String.length suffix)%nat
    with (String.length s) by lia.
  rewrite substring_tail, String.eqb_refl.
  replace (String.length suffix <=? String.length s + String.length suffix)%nat
    with true by (symmetry; apply Nat.leb_le; lia).
  reflexivity.
Qed.

(** X1. The key of a chart lookup always has a scheme in its URL, so
    computing the key of a key changes nothing: a repo URL with a scheme
    is kept with its chart name, and one without becomes an [oci://] URL
    with an empty chart name. *)
Theorem chartLookupKey_idempotent (repoURL chartName : string) :
  Contains (chartLookupKey repoURL chartName).1 "://" = true /\
  chartLookupKey (chartLookupKey repoURL chartName).1
                 (chartLookupKey repoURL chartName).2
  = chartLookupKey repoURL chartName.
Proof.
  assert (H : Contains (chartLookupKey repoURL chartName).1 "://" = true).
  { unfold chartLookupKey.
    destruct (Contains repoURL "://") eqn:Hc; cbn [negb fst]; [exact Hc|].
    apply Contains_spec. exists "oci", (TrimSuffix repoURL "/" +:+ "/" +:+ chartName).
    reflexivity. }
  split; [exact H|].
  unfold chartLookupKey at 1. rewrite H. cbn [negb].
  destruct (chartLookupKey repoURL chartName); reflexivity.
Qed.

(** X2. For a registry URL without a scheme, one trailing slash makes no
    difference to the key: with or without it the key is the [oci://]
    URL of the registry path followed by the chart name. *)
Theorem chartLookupKey_trailing_slash (registry chartName : string) :
  Contains (registry +:+ "/") "://" = false ->
  HasSuffix registry "/" = false ->
  chartLookupKey (registry +:+ "/") chartName
  = ("oci://" +:+ registry +:+ "/" +:+ chartName, "") /\
  chartLookupKey registry chartName
  = ("oci://" +:+ registry +:+ "/" +:+ chartName, "").
Proof.
  intros Hslash Hplain.
  assert (Hc : Contains registry "://" = false).
  { destruct (Contains registry "://") eqn:E; [|reflexivity].
    apply Contains_spec in E. destruct E as (before & after & ->).
    assert (Contains ((before +:+ "://" +:+ after) +:+ "/") "://" = true).
    { apply Contains_spec. exists before, (after +:+ "/").
      rewrite append_assoc. reflexivity. }
    congruence. }
  unfold chartLookupKey. rewrite Hslash, Hc. cbn [negb].
  rewrite TrimSuffix_append. unfold TrimSuffix. rewrite Hplain. split; reflexivity.
Qed.

Lemma chartLookupKey_trailing_slash_witness :
  chartLookupKey "registry.example.com/charts/" "b"
  = ("oci://registry.example.com/charts/b", "") /\
  chartLookupKey "registry.example.com/charts" "b"
  = ("oci://registry.example.com/charts/b", "").
Proof.
  apply (chartLookupKey_trailing_slash "registry.example.com/charts" "b").
  - reflexivity.
  - reflexivity.
Defined.

End ChartKeyFacts.

(** ** More on the resolver *)

Module ResolverFacts.
Import Argocd.

Section Facts.

Context {Stage Err : Type}.
Variable GetDesiredOrigin :
  Stage -> ArgoCDAppUpdate -> PromoMechanism -> option FreightOrigin.
Variable FindChart :
  Stage -> option FreightOrigin -> list FreightReference ->
  string -> string -> option Chart * option Err.
Variable FindCommit :
  Stage -> option FreightOrigin -> list FreightReference ->
  string -> option GitCommit * option Err.
Variable stage : Stage.
Variable frght : list FreightReference.

Local Abbreviation loop :=
  (resolveSources GetDesiredOrigin FindChart FindCommit stage frght).
Local Abbreviation resolver :=
  (GetDesiredRevisions GetDesiredOrigin FindChart FindCommit stage frght).
Local Abbreviation originOf :=
  (effectiveOrigin GetDesiredOrigin stage).

(** One pass of the loop body, by the kind of the source. *)
Lemma resolveSources_step upd app source rest revs tr :
  loop (Some upd) app (source :: rest) revs tr
  = if isHelm source then
      match app_Source app with
      | None => mkRun Panicked tr
      | Some appSource =>
          let key := chartLookupKey (src_RepoURL appSource)
                                    (src_Chart appSource) in
          let l := ChartLookup (originOf upd source) key.1 key.2 in
          match FindChart stage (originOf upd source) frght key.1 key.2 with
          | (_, Some e) =>
              mkRun (Returned revs
                       (Some (ErrFindingChart (src_RepoURL source) e)))
                    (tr ++ [l])
          | (found, None) =>
              loop (Some upd) app rest (revs ++ [chartRevision found])
                   (tr ++ [l])
          end
      end
    else if isGit source then
      let l := CommitLookup (originOf upd source) (src_RepoURL source) in
      match FindCommit stage (originOf upd source) frght
                       (src_RepoURL source) with
      | (_, Some e) =>
          mkRun (Returned revs
                   (Some (ErrFindingCommit (src_RepoURL source) e)))
                (tr ++ [l])
      | (found, None) =>
          loop (Some upd) app rest (revs ++ [commitRevision found])
               (tr ++ [l])
      end
    else loop (Some upd) app rest revs tr.
Proof.
  simpl. unfold effectiveOrigin, selectedMechanism, isGit, isHelm.
  destruct (String.eqb (src_Chart source) "") eqn:Hc; simpl.
  - destruct (String.eqb (src_RepoURL source) ""); simpl; [reflexivity|].
    destruct (FindCommit _ _ _ _) as [[c|] [e|]]; simpl; try reflexivity.
    destruct (String.eqb (commit_HealthCheckCommit c) ""); reflexivity.
  - destruct (app_Source app) as [appSource|]; [|reflexivity].
    destruct (chartLookupKey _ _) as [repoURL chartName]. simpl.
    destruct (FindChart _ _ _ _ _) as [[c|] [e|]]; reflexivity.
Qed.

Lemma classifiable_kind source :
  classifiable source = false <-> isHelm source = false /\ isGit source = false.
Proof. unfold classifiable. apply orb_false_iff. Qed.

(** Without an update the loop panics at the first classifiable
    source. *)
Lemma resolveSources_nil_update app sources :
  forall revs tr,
    loop None app sources revs tr
    = if existsb classifiable sources
      then mkRun Panicked tr
      else mkRun (Returned revs None) tr.
Proof.
  induction sources as [|source rest IH]; intros revs tr; [reflexivity|].
  cbn [existsb]. rewrite ArgocdFacts.classifiable_eqb. simpl.
  destruct (String.eqb (src_Chart source) ""); simpl; [|reflexivity].
  destruct (String.eqb (src_RepoURL source) ""); simpl; [|reflexivity].
  apply IH.
Qed.

(** The loop passes over the sources it has no case for. *)
Lemma resolveSources_filter update app sources :
  forall revs tr,
    loop update app sources revs tr
    = loop update app (List.filter classifiable sources) revs tr.
Proof.
  induction sources as [|source rest IH]; intros revs tr; [reflexivity|].
  change (List.filter classifiable (source :: rest))
    with (if classifiable source
          then source :: List.filter classifiable rest
          else List.filter classifiable rest).
  destruct (classifiable source) eqn:Hcl.
  - destruct update as [upd|].
    + rewrite !resolveSources_step.
      destruct (isHelm source).
      * destruct (app_Source app); [|reflexivity]. cbv zeta.
        destruct (FindChart _ _ _ _ _) as [found [e|]]; [reflexivity|].
        apply IH.
      * destruct (isGit source); [|apply IH]. cbv zeta.
        destruct (FindCommit _ _ _ _) as [found [e|]]; [reflexivity|].
        apply IH.
    + rewrite !resolveSources_nil_update. cbn [existsb]. rewrite Hcl.
      reflexivity.
  - rewrite <- IH. rewrite ArgocdFacts.classifiable_eqb in Hcl.
    apply orb_false_iff in Hcl. destruct Hcl as [Hc Hr].
    simpl. rewrite Hc, Hr. reflexivity.
Qed.

(** Of the application the loop reads [spec.source] only. *)
Lemma resolveSources_app_source update app1 app2 sources :
  app_Source app1 = app_Source app2 ->
  forall revs tr,
    loop update app1 sources revs tr = loop update app2 sources revs tr.
Proof.
  intros Happ.
  induction sources as [|source rest IH]; intros revs tr; [reflexivity|].
  destruct update as [upd|].
  - rewrite !resolveSources_step, Happ.
    destruct (isHelm source).
    + destruct (app_Source app2); [|reflexivity]. cbv zeta.
      destruct (FindChart _ _ _ _ _) as [found [e|]]; [reflexivity|].
      apply IH.
    + destruct (isGit source); [|apply IH]. cbv zeta.
      destruct (FindCommit _ _ _ _) as [found [e|]]; [reflexivity|].
      apply IH.
  - rewrite !resolveSources_nil_update. reflexivity.
Qed.

(** X3. Sources without a chart name and without a repo URL play no
    part: taking them out of [spec.sources] changes neither the outcome
    nor the lookups of the resolver, whatever the update (nil too). *)
Theorem unclassifiable_sources_skipped
    (update : option ArgoCDAppUpdate) (appSource : option ApplicationSource)
    (sources : list ApplicationSource) :
  resolver update (Some (mkApp appSource (Some sources)))
  = resolver update
      (Some (mkApp appSource (Some (List.filter classifiable sources)))).
Proof.
  unfold GetDesiredRevisions. simpl.
  rewrite resolveSources_filter.
  apply resolveSources_app_source. reflexivity.
Qed.

(** X4. Called with a nil update, the resolver panics as soon as the
    application has a classifiable source, before any lookup; it returns
    the empty list only when there is none. *)
Theorem nil_update_panics_on_classifiable_source (app : Application) :
  resolver None (Some app)
  = if existsb classifiable (inputSources app)
    then mkRun Panicked []
    else mkRun (Returned [] None) [].
Proof.
  unfold GetDesiredRevisions, inputSources.
  destruct (sourcesOf app) as [sources|]; [|reflexivity].
  apply resolveSources_nil_update.
Qed.

(** Where the loop stops with an error: at the classifiable source that
    comes after those it has appended an entry for, with the cause the
    finder returned for that source. *)
Lemma resolveSources_error upd app sources :
  forall revs0 tr revs e,
    outcome (loop (Some upd) app sources revs0 tr) = Returned revs (Some e) ->
    exists new source cause,
      revs = revs0 ++ new /\
      List.filter classifiable sources !! length new = Some source /\
      e = (if isHelm source then ErrFindingChart else ErrFindingCommit)
            (src_RepoURL source) cause /\
      (if isHelm source then
         exists appSource found,
           app_Source app = Some appSource /\
           FindChart stage (originOf upd source) frght
             (chartLookupKey (src_RepoURL appSource) (src_Chart appSource)).1
             (chartLookupKey (src_RepoURL appSource) (src_Chart appSource)).2
           = (found, Some cause)
       else
         exists found,
           FindCommit stage (originOf upd source) frght (src_RepoURL source)
           = (found, Some cause)).
Proof.
  induction sources as [|source rest IH]; intros revs0 tr revs e H.
  - discriminate H.
  - change (List.filter classifiable (source :: rest))
      with (if classifiable source
            then source :: List.filter classifiable rest
            else List.filter classifiable rest).
    rewrite resolveSources_step in H.
    destruct (classifiable source) eqn:Hcl.
    + unfold classifiable in Hcl.
      destruct (isHelm source) eqn:Hh.
      * destruct (app_Source app) as [appSource|] eqn:Ha; [|discriminate H].
        cbv zeta in H.
        destruct (FindChart _ _ _ _ _) as [found [cause|]] eqn:Hf.
        -- injection H as <- <-. exists [], source, cause.
           rewrite app_nil_r, Hh. repeat split; auto.
           exists appSource, found. split; [reflexivity | exact Hf].
        -- apply IH in H. destruct H as (new & s & cause & -> & Hs & He & Hg).
           exists (chartRevision found :: new), s, cause.
           rewrite <- app_assoc. repeat split; auto.
      * simpl in Hcl. rewrite Hcl in H. cbv zeta in H.
        destruct (FindCommit _ _ _ _) as [found [cause|]] eqn:Hf.
        -- injection H as <- <-. exists [], source, cause.
           rewrite app_nil_r, Hh. repeat split; auto.
           exists found. exact Hf.
        -- apply IH in H. destruct H as (new & s & cause & -> & Hs & He & Hg).
           exists (commitRevision found :: new), s, cause.
           rewrite <- app_assoc. repeat split; auto.
    + apply classifiable_kind in Hcl. destruct Hcl as [Hh Hg].
      rewrite Hh, Hg in H. apply IH in H. exact H.
Qed.

(** X5. An error of the resolver names the first source whose lookup
    failed. The list that comes with it holds exactly the entries of
    the classifiable sources before that one, each the revision of
    what the finder returned, without error, for its source. The error
    quotes the repo URL of the failing source and wraps the cause the
    finder returned for it: as a chart error for a Helm source, from
    the chart finder called under the origin of the source with the key
    of [spec.source], and as a commit error for a Git source, from the
    commit finder called under the origin and the repo URL of the
    source. *)
Theorem error_names_first_failing_source upd app revs e :
  outcome (resolver (Some upd) (Some app)) = Returned revs (Some e) ->
  exists source cause,
    List.filter classifiable (inputSources app) !! length revs = Some source /\
    Forall2 (resolvedEntry GetDesiredOrigin FindChart FindCommit stage frght
                           upd app)
            (take (length revs) (List.filter classifiable (inputSources app)))
            revs /\
    e = (if isHelm source then ErrFindingChart else ErrFindingCommit)
          (src_RepoURL source) cause /\
    (if isHelm source then
       exists appSource found,
         app_Source app = Some appSource /\
         FindChart stage (originOf upd source) frght
           (chartLookupKey (src_RepoURL appSource) (src_Chart appSource)).1
           (chartLookupKey (src_RepoURL appSource) (src_Chart appSource)).2
         = (found, Some cause)
     else
       exists found,
         FindCommit stage (originOf upd source) frght (src_RepoURL source)
         = (found, Some cause)).
Proof.
  intros H.
  destruct (ArgocdFacts.GetDesiredRevisions_entries
              GetDesiredOrigin FindChart FindCommit stage frght
              upd app revs (Some e) H) as (HF & _ & _).
  revert H. unfold GetDesiredRevisions, inputSources in *.
  destruct (sourcesOf app) as [sources|]; [|discriminate].
  intros H. apply resolveSources_error in H.
  destruct H as (new & source & cause & -> & Hs & He & Hg).
  exists source, cause. auto.
Qed.

(** The loop panics only on a Helm source of an application without
    [spec.source]. *)
Lemma resolveSources_no_panic upd app sources :
  app_Source app <> None \/ Forall (fun s => isHelm s = false) sources ->
  forall revs tr, outcome (loop (Some upd) app sources revs tr) <> Panicked.
Proof.
  intros Hsafe.
  induction sources as [|source rest IH]; intros revs tr; [discriminate|].
  assert (Hrest : app_Source app <> None \/
                  Forall (fun s => isHelm s = false) rest).
  { destruct Hsafe as [H|H]; [left; exact H|].
    right. inversion H; assumption. }
  specialize (IH Hrest). rewrite resolveSources_step.
  destruct (isHelm source) eqn:Hh.
  - destruct (app_Source app) as [appSource|].
    + cbv zeta. destruct (FindChart _ _ _ _ _) as [found [e|]];
        [discriminate | apply IH].
    + destruct Hsafe as [H|H]; [congruence|].
      inversion H; congruence.
  - destruct (isGit source); [|apply IH]. cbv zeta.
    destruct (FindCommit _ _ _ _) as [found [e|]]; [discriminate | apply IH].
Qed.

(** X6. With an update, the resolver does not panic on an application
    that has a [spec.source], nor on one none of whose sources is a Helm
    source. *)
Theorem no_panic_with_spec_source_or_git_only upd app :
  app_Source app <> None \/
  Forall (fun s => isHelm s = false) (inputSources app) ->
  outcome (resolver (Some upd) (Some app)) <> Panicked.
Proof.
  unfold GetDesiredRevisions, inputSources.
  destruct (sourcesOf app) as [sources|]; [|discriminate].
  intros H. apply resolveSources_no_panic. exact H.
Qed.

(** When no lookup fails, the loop gets through every source. *)
Lemma resolveSources_total upd app sources :
  (forall o r c, (FindChart stage o frght r c).2 = None) ->
  (forall o r, (FindCommit stage o frght r).2 = None) ->
  app_Source app <> None \/ Forall (fun s => isHelm s = false) sources ->
  forall revs tr,
    exists new,
      outcome (loop (Some upd) app sources revs tr)
      = Returned (revs ++ new) None /\
      length new = length (List.filter classifiable sources).
Proof.
  intros Hchart Hcommit Hsafe.
  induction sources as [|source rest IH]; intros revs tr.
  - exists []. rewrite app_nil_r. split; reflexivity.
  - assert (Hrest : app_Source app <> None \/
                    Forall (fun s => isHelm s = false) rest).
    { destruct Hsafe as [H|H]; [left; exact H|].
      right. inversion H; assumption. }
    specialize (IH Hrest). rewrite resolveSources_step.
    change (List.filter classifiable (source :: rest))
      with (if classifiable source
            then source :: List.filter classifiable rest
            else List.filter classifiable rest).
    unfold classifiable at 1.
    destruct (isHelm source) eqn:Hh.
    + destruct (app_Source app) as [appSource|].
      * cbv zeta. specialize (Hchart (originOf upd source)
          (chartLookupKey (src_RepoURL appSource) (src_Chart appSource)).1
          (chartLookupKey (src_RepoURL appSource) (src_Chart appSource)).2).
        destruct (FindChart _ _ _ _ _) as [found [e|]]; [discriminate|].
        destruct (IH (revs ++ [chartRevision found])
                     (tr ++ [ChartLookup (originOf upd source)
                        (chartLookupKey (src_RepoURL appSource)
                                        (src_Chart appSource)).1
                        (chartLookupKey (src_RepoURL appSource)
                                        (src_Chart appSource)).2]))
          as (new & Hn & Hl).
        exists (chartRevision found :: new).
        rewrite Hn, <- app_assoc. simpl. split; [reflexivity | now f_equal].
      * destruct Hsafe as [H|H]; [congruence|]. inversion H; congruence.
    + simpl. destruct (isGit source); [|apply IH]. cbv zeta.
      specialize (Hcommit (originOf upd source) (src_RepoURL source)).
      destruct (FindCommit _ _ _ _) as [found [e|]]; [discriminate|].
      destruct (IH (revs ++ [commitRevision found])
                   (tr ++ [CommitLookup (originOf upd source)
                                        (src_RepoURL source)]))
        as (new & Hn & Hl).
      exists (commitRevision found :: new).
      rewrite Hn, <- app_assoc. simpl. split; [reflexivity | now f_equal].
Qed.

(** X7. When the finders return no error on this stage and freight,
    and the application has a [spec.source] or no Helm source, the
    resolver returns a list with one entry per classifiable source and no
    error. *)
Theorem resolves_when_lookups_do_not_fail upd app :
  (forall o r c, (FindChart stage o frght r c).2 = None) ->
  (forall o r, (FindCommit stage o frght r).2 = None) ->
  app_Source app <> None \/
  Forall (fun s => isHelm s = false) (inputSources app) ->
  exists revs,
    outcome (resolver (Some upd) (Some app)) = Returned revs None /\
    length revs = length (List.filter classifiable (inputSources app)).
Proof.
  unfold GetDesiredRevisions, inputSources.
  destruct (sourcesOf app) as [sources|].
  - intros Hchart Hcommit Hsafe.
    destruct (resolveSources_total upd app sources Hchart Hcommit Hsafe [] [])
      as (new & Hn & Hl).
    exists new. split; assumption.
  - intros _ _ _. exists []. split; reflexivity.
Qed.

(** The loop only ever appends to the revisions and lookups it is
    given. *)
Lemma resolveSources_extends update app sources revs tr :
  (exists more, lookups (loop update app sources revs tr) = tr ++ more) /\
  (forall revs' err,
     outcome (loop update app sources revs tr) = Returned revs' err ->
     exists added, revs' = revs ++ added).
Proof.
  destruct update as [upd|].
  - split.
    + destruct (ArgocdFacts.resolveSources_lookups GetDesiredOrigin FindChart
                  FindCommit stage frght upd app sources revs tr)
        as (new & Hl & _).
      exists new. exact Hl.
    + intros revs' err H.
      apply ArgocdFacts.resolveSources_revisions in H.
      destruct H as (new & -> & _). exists new. reflexivity.
  - rewrite resolveSources_nil_update.
    destruct (existsb classifiable sources); simpl.
    + split; [exists []; now rewrite app_nil_r | discriminate].
    + split; [exists []; now rewrite app_nil_r|].
      intros revs' err [= <- <-]. exists []. now rewrite app_nil_r.
Qed.

(** A run that got through [sources1] without error goes on with
    [sources2] from where it stood. *)
Lemma resolveSources_app update app sources1 sources2 :
  forall revs tr revs1 tr1,
    loop update app sources1 revs tr = mkRun (Returned revs1 None) tr1 ->
    loop update app (sources1 ++ sources2) revs tr
    = loop update app sources2 revs1 tr1.
Proof.
  induction sources1 as [|source rest IH]; intros revs tr revs1 tr1 H.
  - simpl in H. injection H as <- <-. reflexivity.
  - rewrite <- app_comm_cons. destruct update as [upd|].
    + rewrite resolveSources_step in H |- *.
      destruct (isHelm source).
      * destruct (app_Source app); [|discriminate H]. cbv zeta in H |- *.
        destruct (FindChart _ _ _ _ _) as [found [e|]]; [discriminate H|].
        apply IH. exact H.
      * destruct (isGit source); [|apply IH; exact H]. cbv zeta in H |- *.
        destruct (FindCommit _ _ _ _) as [found [e|]]; [discriminate H|].
        apply IH. exact H.
    + rewrite resolveSources_nil_update in H.
      destruct (existsb classifiable (source :: rest)) eqn:Hex;
        [discriminate H|].
      injection H as <- <-.
      rewrite !resolveSources_nil_update.
      rewrite app_comm_cons, existsb_app, Hex. reflexivity.
Qed.

(** X8. Sources added at the end of [spec.sources] do not change what
    was resolved for the sources before them: when the resolver returns
    a list without error for [sources1], every list it returns for
    [sources1 ++ sources2] starts with that list, and its lookups start
    with the same lookups. *)
Theorem appended_sources_keep_earlier_entries
    (update : option ArgoCDAppUpdate) (appSource : option ApplicationSource)
    (sources1 sources2 : list ApplicationSource) revs1 tr1 :
  resolver update (Some (mkApp appSource (Some sources1)))
  = mkRun (Returned revs1 None) tr1 ->
  (exists more,
     lookups (resolver update
                (Some (mkApp appSource (Some (sources1 ++ sources2)))))
     = tr1 ++ more) /\
  (forall revs2 err,
     outcome (resolver update
                (Some (mkApp appSource (Some (sources1 ++ sources2)))))
     = Returned revs2 err ->
     exists added, revs2 = revs1 ++ added).
Proof.
  unfold GetDesiredRevisions. simpl. intros H.
  rewrite (resolveSources_app_source update _
             (mkApp appSource (Some (sources1 ++ sources2)))) in H
    by reflexivity.
  rewrite (resolveSources_app _ _ _ _ _ _ _ _ H).
  apply resolveSources_extends.
Qed.

(** X9. A Git source is looked up under exactly its own repo URL, as
    written, and under its effective origin; and the resolver makes at
    most one lookup per classifiable source, in their order. *)
Theorem git_lookup_uses_own_repo_url upd app :
  Forall2
    (fun source l =>
       if isHelm source
       then exists o repoURL chartName, l = ChartLookup o repoURL chartName
       else l = CommitLookup (originOf upd source) (src_RepoURL source))
    (take (length (lookups (resolver (Some upd) (Some app))))
          (List.filter classifiable (inputSources app)))
    (lookups (resolver (Some upd) (Some app))) /\
  (length (lookups (resolver (Some upd) (Some app)))
   <= length (List.filter classifiable (inputSources app)))%nat.
Proof.
  assert (H : Forall2
    (fun source l =>
       if isHelm source
       then exists o repoURL chartName, l = ChartLookup o repoURL chartName
       else l = CommitLookup (originOf upd source) (src_RepoURL source))
    (take (length (lookups (resolver (Some upd) (Some app))))
          (List.filter classifiable (inputSources app)))
    (lookups (resolver (Some upd) (Some app)))).
  { unfold GetDesiredRevisions, inputSources.
    destruct (sourcesOf app) as [sources|]; [|constructor].
    destruct (ArgocdFacts.resolveSources_lookups GetDesiredOrigin FindChart
                FindCommit stage frght upd app sources [] [])
      as (new & Hl & HF & _).
    rewrite Hl. simpl. eapply Forall2_impl; [exact HF|].
    intros source l Hlk. unfold performedLookup in Hlk.
    destruct (isHelm source); [|exact Hlk].
    destruct Hlk as (appSource & _ & ->). eauto. }
  split; [exact H|].
  apply Forall2_length in H. rewrite length_take in H. lia.
Qed.

End Facts.

(** X5 on two Git sources and a finder that fails on the second. *)
Lemma error_names_first_failing_source_witness :
  exists source cause,
    List.filter classifiable (inputSources Scenario.twoGitApp) !! 1%nat
    = Some source /\
    Forall2 (resolvedEntry Freight.GetDesiredOrigin Scenario.neverFindChart
               Scenario.failingFindCommit Scenario.stage Scenario.frght
               Scenario.update Scenario.twoGitApp)
            (take 1 (List.filter classifiable
                       (inputSources Scenario.twoGitApp)))
            [""] /\
    ErrFindingCommit "https://b" "listing warehouses failed"
    = (if isHelm source then ErrFindingChart else ErrFindingCommit)
        (src_RepoURL source) cause /\
    (if isHelm source then
       exists appSource found,
         app_Source Scenario.twoGitApp = Some appSource /\
         Scenario.neverFindChart Scenario.stage
           (effectiveOrigin Freight.GetDesiredOrigin Scenario.stage
                            Scenario.update source)
           Scenario.frght
           (chartLookupKey (src_RepoURL appSource) (src_Chart appSource)).1
           (chartLookupKey (src_RepoURL appSource) (src_Chart appSource)).2
         = (found, Some cause)
     else
       exists found,
         Scenario.failingFindCommit Scenario.stage
           (effectiveOrigin Freight.GetDesiredOrigin Scenario.stage
                            Scenario.update source)
           Scenario.frght (src_RepoURL source)
         = (found, Some cause)).
Proof.
  apply (error_names_first_failing_source
           Freight.GetDesiredOrigin Scenario.neverFindChart
           Scenario.failingFindCommit Scenario.stage Scenario.frght
           Scenario.update Scenario.twoGitApp [""]
           (ErrFindingCommit "https://b" "listing warehouses failed")).
  reflexivity.
Defined.

(** X6 on the single Git source of the scenario. *)
Lemma no_panic_witness :
  outcome (Freight.resolve Scenario.stage Scenario.frght
             (Some Scenario.update) (Some Scenario.gitApp))
  <> Panicked.
Proof.
  apply (no_panic_with_spec_source_or_git_only
           Freight.GetDesiredOrigin Freight.FindChart Freight.FindCommit
           Scenario.stage Scenario.frght Scenario.update Scenario.gitApp).
  left. discriminate.
Defined.

(** X7 on the two-source scenario with [spec.source] set. *)
Lemma resolves_when_lookups_do_not_fail_witness :
  exists revs,
    outcome (Freight.resolve Scenario.stage Scenario.frght
               (Some Scenario.update)
               (Some Scenario.twoSourceAppWithSource))
    = Returned revs None /\
    length revs = 2%nat.
Proof.
  apply (resolves_when_lookups_do_not_fail
           Freight.GetDesiredOrigin Freight.FindChart Freight.FindCommit
           Scenario.stage Scenario.frght Scenario.update
           Scenario.twoSourceAppWithSource).
  - intros o r c. reflexivity.
  - intros o r. reflexivity.
  - left. discriminate.
Defined.

(** X8 on the scenario: the Git source added after the Helm source. *)
Lemma appended_sources_witness :
  (exists more,
     lookups (Freight.resolve Scenario.stage Scenario.frght
                (Some Scenario.update)
                (Some (mkApp (Some Scenario.helmSource)
                         (Some ([Scenario.helmSource]
                                  ++ [Scenario.gitSource])))))
     = [ChartLookup (Some Scenario.w1) "https://x" "c"] ++ more) /\
  (forall revs2 err,
     outcome (Freight.resolve Scenario.stage Scenario.frght
                (Some Scenario.update)
                (Some (mkApp (Some Scenario.helmSource)
                         (Some ([Scenario.helmSource]
                                  ++ [Scenario.gitSource])))))
     = Returned revs2 err ->
     exists added, revs2 = ["1.2.3"] ++ added).
Proof.
  apply (appended_sources_keep_earlier_entries
           Freight.GetDesiredOrigin Freight.FindChart Freight.FindCommit
           Scenario.stage Scenario.frght (Some Scenario.update)
           (Some Scenario.helmSource)
           [Scenario.helmSource] [Scenario.gitSource]).
  reflexivity.
Defined.

End ResolverFacts.

(** ** More on the Bookkeeper mechanism *)

Module PromotionFacts.
Import Bookkeeper.

Section UpdateStep.

Context {World Err : Type}.
Variable getReadRefFn :
  GitRepoUpdate -> list GitCommit -> string * Z * option Err.
Variable getCredentialsFn :
  string -> string -> World -> (Credentials * bool * option Err) * World.
Variable renderManifestsFn :
  RenderRequest -> World -> (RenderResponse * option Err) * World.

Local Abbreviation update1 :=
  (doSingleUpdate getReadRefFn getCredentialsFn renderManifestsFn).
Local Abbreviation requestOf update creds ok readRef images :=
  (mkRequest (gru_RepoURL update)
     (if ok : bool
      then mkRepoCreds (creds_Username creds) (creds_Password creds)
                       (creds_SSHPrivateKey creds)
      else mkRepoCreds "" "" "")
     readRef images (gru_WriteBranch update)).

(** X10. The update step gives up at the first collaborator that
    fails and does not call the ones after it: a read-ref error is
    returned as it is with memory untouched, a credentials error is
    wrapped with the repo URL and leaves the world as the credentials
    lookup left it, and a render error is wrapped with the repo URL; in
    each case the state is returned as given and no commit is written. *)
Theorem update_stops_at_first_failure
    namespace update newState images (m : @Mem World) :
  (forall readRef commitIndex e,
     getReadRefFn update (contents (store m) (state_Commits newState))
     = (readRef, commitIndex, Some e) ->
     update1 namespace update newState images m
     = Ret newState (Some (Unwrapped e)) m) /\
  (forall readRef commitIndex creds ok e w1,
     getReadRefFn update (contents (store m) (state_Commits newState))
     = (readRef, commitIndex, None) ->
     getCredentialsFn namespace (gru_RepoURL update) (world m)
     = ((creds, ok, Some e), w1) ->
     update1 namespace update newState images m
     = Ret newState (Some (ErrObtainingCredentials (gru_RepoURL update) e))
           (mkMem (store m) w1)) /\
  (forall readRef commitIndex creds ok w1 res e w2,
     getReadRefFn update (contents (store m) (state_Commits newState))
     = (readRef, commitIndex, None) ->
     getCredentialsFn namespace (gru_RepoURL update) (world m)
     = ((creds, ok, None), w1) ->
     renderManifestsFn (requestOf update creds ok readRef images) w1
     = ((res, Some e), w2) ->
     update1 namespace update newState images m
     = Ret newState (Some (ErrRenderingManifests (gru_RepoURL update) e))
           (mkMem (store m) w2)).
Proof.
  unfold doSingleUpdate. repeat split.
  - intros readRef commitIndex e ->. destruct m; reflexivity.
  - intros readRef commitIndex creds ok e w1 -> ->. reflexivity.
  - intros readRef commitIndex creds ok w1 res e w2 -> -> Hr. simpl.
    rewrite Hr. reflexivity.
Qed.

(** X11. Whatever the collaborators do, an update step that returns an
    error returns the state it was given and leaves every backing array
    as it was. *)
Theorem update_error_writes_nothing
    namespace update newState images (m : @Mem World) s e m' :
  update1 namespace update newState images m = Ret s (Some e) m' ->
  s = newState /\ store m' = store m.
Proof.
  unfold doSingleUpdate.
  destruct (getReadRefFn _ _) as [[readRef commitIndex] [e0|]].
  { intros [= <- _ <-]. split; reflexivity. }
  destruct (getCredentialsFn _ _ _) as [[[creds ok] [e0|]] w1].
  { intros [= <- _ <-]. split; reflexivity. }
  destruct (renderManifestsFn _ _) as [[res [e0|]] w2].
  { intros [= <- _ <-]. split; reflexivity. }
  assert (Hrec : forall id,
    @recordCommit World Err newState commitIndex id (mkMem (store m) w2)
    = Ret s (Some e) m' -> s = newState /\ store m' = store m).
  { intros id. unfold recordCommit.
    destruct (commitIndex >? -1)%Z; [|discriminate].
    destruct (setHealthCheckCommit _ _ _ _); discriminate. }
  destruct (res_ActionTaken res); [apply Hrec | apply Hrec | discriminate].
Qed.

(** X12. The update step panics exactly when every collaborator
    succeeded, the render collaborator reported a direct push or no
    changes, and the index the read-ref function returned is above -1
    but names no commit of the state; the render has then already taken
    place and no commit is written. *)
Theorem update_panics_on_stray_index
    namespace update newState images (m m' : @Mem World) :
  update1 namespace update newState images m = Panic m' <->
  exists readRef commitIndex creds ok w1 res w2,
    getReadRefFn update (contents (store m) (state_Commits newState))
    = (readRef, commitIndex, None) /\
    getCredentialsFn namespace (gru_RepoURL update) (world m)
    = ((creds, ok, None), w1) /\
    renderManifestsFn (requestOf update creds ok readRef images) w1
    = ((res, None), w2) /\
    res_ActionTaken res <> ActionTakenOpenedPR /\
    (commitIndex > -1)%Z /\
    contents (store m) (state_Commits newState) !! Z.to_nat commitIndex
    = None /\
    m' = mkMem (store m) w2.
Proof.
  assert (Hrec : forall idx id (m0 : @Mem World),
    @recordCommit World Err newState idx id m0 = Panic m' <->
    (idx > -1)%Z /\
    contents (store m0) (state_Commits newState) !! Z.to_nat idx = None /\
    m' = m0).
  { intros idx id m0. unfold recordCommit, setHealthCheckCommit, contents.
    destruct (idx >? -1)%Z eqn:Hgt.
    - assert (Hneg : (idx <? 0)%Z = false) by lia.
      destruct (state_Commits newState) as [l|]; simpl.
      + destruct (store m0 !! l) as [arr|]; simpl.
        * rewrite Hneg. destruct (arr !! Z.to_nat idx) eqn:Ha.
          -- split; [discriminate | intros (_ & H & _); discriminate].
          -- split; [intros [= <-]; repeat split; lia|].
             intros (_ & _ & ->). reflexivity.
        * split; [intros [= <-]; repeat split; lia|].
          intros (_ & _ & ->). reflexivity.
      + split; [intros [= <-]; repeat split; lia|].
        intros (_ & _ & ->). reflexivity.
    - split; [discriminate | intros (H & _); lia]. }
  unfold doSingleUpdate.
  destruct (getReadRefFn _ _) as [[readRef commitIndex] [e0|]] eqn:Href.
  { split; [discriminate|].
    intros (r & i & c & ok & w1 & res & w2 & H & _). discriminate H. }
  destruct (getCredentialsFn _ _ _) as [[[creds ok] [e0|]] w1] eqn:Hcreds.
  { split; [discriminate|].
    intros (r & i & c & ok' & w1' & res & w2 & _ & H & _). discriminate H. }
  destruct (renderManifestsFn _ _) as [[res [e0|]] w2] eqn:Hrender.
  { split; [discriminate|].
    intros (r & i & c & ok' & w1' & res' & w2' & H1 & H2 & H3 & _).
    injection H1 as <- <-. injection H2 as <- <- <-.
    rewrite Hrender in H3. discriminate H3. }
  assert (Hiff : forall (P : Prop),
    (P <-> (res_ActionTaken res <> ActionTakenOpenedPR /\
            (commitIndex > -1)%Z /\
            contents (store m) (state_Commits newState) !! Z.to_nat commitIndex
            = None /\
            m' = mkMem (store m) w2)) ->
    (P <-> exists readRef0 commitIndex0 creds0 ok0 w0 res0 w3,
       (readRef, commitIndex, @None Err) = (readRef0, commitIndex0, None) /\
       (creds, ok, @None Err, w1) = (creds0, ok0, None, w0) /\
       renderManifestsFn (requestOf update creds0 ok0 readRef0 images) w0
       = (res0, None, w3) /\
       res_ActionTaken res0 <> ActionTakenOpenedPR /\
       (commitIndex0 > -1)%Z /\
       contents (store m) (state_Commits newState) !! Z.to_nat commitIndex0
       = None /\
       m' = mkMem (store m) w3)).
  { intros P HP. rewrite HP. split.
    - intros (Ha & Hi & Hc & Hm).
      exists readRef, commitIndex, creds, ok, w1, res, w2.
      repeat split; auto.
    - intros (r & i & c & ok' & w1' & res' & w2' & H1 & H2 & H3 & H4).
      injection H1 as <- <-. injection H2 as <- <- <-.
      rewrite Hrender in H3. injection H3 as <- <-. exact H4. }
  apply Hiff.
  destruct (res_ActionTaken res) eqn:Hact.
  - rewrite Hrec. simpl. intuition discriminate.
  - rewrite Hrec. simpl. intuition discriminate.
  - split; [discriminate | intros (H & _); congruence].
Qed.

(** X13. When the render collaborator reports anything but a direct
    push or no changes, or when the read-ref function named no commit
    (an index of -1 or below), the update step records nothing: it
    returns the state as given, no error, and the backing arrays
    untouched. *)
Theorem update_without_record
    namespace update newState images (m : @Mem World)
    readRef commitIndex creds ok w1 res w2 :
  getReadRefFn update (contents (store m) (state_Commits newState))
  = (readRef, commitIndex, None) ->
  getCredentialsFn namespace (gru_RepoURL update) (world m)
  = ((creds, ok, None), w1) ->
  renderManifestsFn (requestOf update creds ok readRef images) w1
  = ((res, None), w2) ->
  res_ActionTaken res = ActionTakenOpenedPR \/ (commitIndex <= -1)%Z ->
  update1 namespace update newState images m
  = Ret newState None (mkMem (store m) w2).
Proof.
  intros Href Hcreds Hrender Hcase.
  unfold doSingleUpdate. rewrite Href, Hcreds. simpl. rewrite Hrender. simpl.
  destruct Hcase as [-> | Hidx]; [reflexivity|].
  unfold recordCommit. replace (commitIndex >? -1)%Z with false by lia.
  destruct (res_ActionTaken res); reflexivity.
Qed.

(** The update step changes commits in their [HealthCheckCommit] only. *)
Lemma doSingleUpdate_identity namespace update newState images
    (m : @Mem World) :
  (fun c => (commit_RepoURL c, commit_ID c))
    <$> contents (store (finalMem (update1 namespace update newState images m)))
                 (state_Commits newState)
  = (fun c => (commit_RepoURL c, commit_ID c))
      <$> contents (store m) (state_Commits newState).
Proof.
  assert (Hrec : forall idx id (m0 : @Mem World),
    store m0 = store m ->
    (fun c => (commit_RepoURL c, commit_ID c))
      <$> contents (store (finalMem (@recordCommit World Err newState idx id m0)))
                   (state_Commits newState)
    = (fun c => (commit_RepoURL c, commit_ID c))
        <$> contents (store m) (state_Commits newState)).
  { intros idx id m0 Hm0. unfold recordCommit, setHealthCheckCommit.
    destruct (idx >? -1)%Z; [|simpl; rewrite ?Hm0; reflexivity].
    destruct (state_Commits newState) as [l|] eqn:Hs;
      [|simpl; rewrite ?Hm0; reflexivity].
    destruct (store m0 !! l) as [arr|] eqn:Harr; [|simpl; rewrite ?Hm0; reflexivity].
    destruct (idx <? 0)%Z; [simpl; rewrite ?Hm0; reflexivity|].
    destruct (arr !! Z.to_nat idx) as [c|] eqn:Hc; [|simpl; rewrite ?Hm0; reflexivity].
    simpl. rewrite lookup_insert_eq. rewrite <- Hm0, Harr. simpl.
    rewrite list_fmap_insert. apply list_insert_id.
    rewrite list_lookup_fmap, Hc. reflexivity. }
  unfold doSingleUpdate.
  destruct (getReadRefFn _ _) as [[readRef commitIndex] [e0|]];
    [reflexivity|].
  destruct (getCredentialsFn _ _ _) as [[[creds ok] [e0|]] w1];
    [reflexivity|].
  destruct (renderManifestsFn _ _) as [[res [e0|]] w2]; [reflexivity|].
  destruct (res_ActionTaken res);
    [apply Hrec; reflexivity | apply Hrec; reflexivity | reflexivity].
Qed.

Lemma promoteUpdates_identity namespace images updates :
  forall newState (m : @Mem World),
    (forall s err m',
       promoteUpdates update1 namespace images updates newState m
       = Ret s err m' -> s = newState) /\
    (fun c => (commit_RepoURL c, commit_ID c))
      <$> contents
            (store (finalMem (promoteUpdates update1 namespace images updates
                                             newState m)))
            (state_Commits newState)
    = (fun c => (commit_RepoURL c, commit_ID c))
        <$> contents (store m) (state_Commits newState).
Proof.
  induction updates as [|update rest IH]; intros newState m; simpl.
  - split; [intros s err m' [= <- _ _]; reflexivity | reflexivity].
  - pose proof (doSingleUpdate_identity namespace update newState images m)
      as Hid.
    pose proof (BookkeeperFacts.doSingleUpdate_frame getReadRefFn
                  getCredentialsFn renderManifestsFn namespace update
                  newState images m) as [Hsame _].
    destruct (update1 namespace update newState images m)
      as [s [err|] m1 | m1] eqn:Hcall; simpl in *.
    + split; [|exact Hid].
      intros s' err' m' [= <- _ _]. eapply Hsame. reflexivity.
    + assert (s = newState) by (eapply Hsame; reflexivity). subst s.
      destruct (IH newState m1) as [IHs IHid].
      split; [exact IHs|]. rewrite IHid. exact Hid.
    + split; [discriminate | exact Hid].
Qed.

(** X14. A promotion with the default update step changes the commits
    of the state in their [HealthCheckCommit] only: the state it returns
    has as many commits as the one it was given, with the same repo URLs
    and IDs in the same order, and the same images. *)
Theorem promote_keeps_commit_identity
    (stg : Stage) (newState : StageState) (m : @Mem World) s err m' :
  PromoteDefault getReadRefFn getCredentialsFn renderManifestsFn
                 (Some stg) newState m
  = Ret s err m' ->
  (fun c => (commit_RepoURL c, commit_ID c))
    <$> contents (store m') (state_Commits s)
  = (fun c => (commit_RepoURL c, commit_ID c))
      <$> contents (store m) (state_Commits newState) /\
  state_Images s = state_Images newState.
Proof.
  unfold PromoteDefault, Promote.
  destruct (length (bookkeeperUpdates stg) =? 0)%nat.
  { intros [= <- _ <-]. split; reflexivity. }
  destruct (DeepCopy newState (store m)) as [copied store0] eqn:Hcopy.
  assert (Hc : contents store0 (state_Commits copied)
               = contents (store m) (state_Commits newState) /\
               state_Images copied = state_Images newState).
  { unfold DeepCopy in Hcopy.
    destruct (state_Commits newState) as [l|] eqn:Hs.
    - injection Hcopy as <- <-. simpl. rewrite lookup_insert_eq.
      split; reflexivity.
    - injection Hcopy as <- <-. rewrite Hs. split; reflexivity. }
  destruct Hc as [Hc Himg].
  intros H.
  destruct (promoteUpdates_identity (stage_Namespace stg) (imageRefs copied)
              (bookkeeperUpdates stg) copied (mkMem store0 (world m)))
    as [Hsame Hid].
  rewrite H in Hid. simpl in Hid.
  assert (s = copied) by (eapply Hsame; exact H). subst s.
  rewrite Hid. simpl. rewrite Hc. split; [reflexivity | exact Himg].
Qed.

End UpdateStep.

Section PromoteLoop.

Context {World Err : Type}.
Variable doSingleUpdateFn :
  string -> GitRepoUpdate -> StageState -> list string ->
  @Mem World -> @Result World Err.

(** X15. When the update step goes through every Bookkeeper update of
    the stage without error, in their order and each from the state and
    memory the one before left, [Promote] returns the last state and
    memory with no error. *)
Theorem promote_runs_all_updates
    stg newState (m : @Mem World) copied store0 s1 m1 :
  bookkeeperUpdates stg <> [] ->
  DeepCopy newState (store m) = (copied, store0) ->
  processed doSingleUpdateFn (stage_Namespace stg) (imageRefs copied)
            (bookkeeperUpdates stg) copied (mkMem store0 (world m)) s1 m1 ->
  Promote doSingleUpdateFn (Some stg) newState m = Ret s1 None m1.
Proof.
  intros Hne Hcopy Hall. unfold Promote. rewrite Hcopy.
  destruct (length (bookkeeperUpdates stg) =? 0)%nat eqn:Hlen.
  - apply Nat.eqb_eq in Hlen.
    destruct (bookkeeperUpdates stg); [congruence | discriminate].
  - rewrite <- (app_nil_r (bookkeeperUpdates stg)).
    rewrite (BookkeeperFacts.promoteUpdates_processed _ _ _ _ _ _ _ _ _ Hall).
    reflexivity.
Qed.

(** X16. Updates without a Bookkeeper configuration play no part in
    the promotion: taking them out of the stage changes nothing in what
    [Promote] returns or leaves in memory. *)
Theorem promote_ignores_other_updates
    (stg : Stage) (newState : StageState) (m : @Mem World) :
  Promote doSingleUpdateFn (Some stg) newState m
  = Promote doSingleUpdateFn
      (Some (mkStage (stage_Namespace stg) (bookkeeperUpdates stg)))
      newState m.
Proof.
  unfold Promote.
  assert (H : bookkeeperUpdates
                (mkStage (stage_Namespace stg) (bookkeeperUpdates stg))
              = bookkeeperUpdates stg).
  { unfold bookkeeperUpdates. simpl.
    induction (stage_GitRepoUpdates stg) as [|u us IH]; [reflexivity|].
    simpl. destruct (bool_decide (gru_Bookkeeper u <> None)) eqn:Hu; simpl.
    - rewrite Hu, IH. reflexivity.
    - exact IH. }
  rewrite H. reflexivity.
Qed.

End PromoteLoop.

Import BookkeeperScenario BookkeeperFaults.

(** X10 on a read-ref function that fails: memory is untouched. *)
Lemma update_stops_at_first_failure_witness :
  @doSingleUpdate World string failingReadRef failingCredentials render
    "kargo-demo" goodUpdate callerState ["nginx:1.25"] callerMem
  = Ret callerState (Some (Unwrapped "no commit to read from")) callerMem /\
  @doSingleUpdate World string readRef failingCredentials render
    "kargo-demo" goodUpdate callerState ["nginx:1.25"] callerMem
  = Ret callerState
        (Some (ErrObtainingCredentials "https://good" "secret not readable"))
        (mkMem (store callerMem) ["credentials:https://good"]).
Proof.
  split.
  - apply (update_stops_at_first_failure failingReadRef failingCredentials
             render "kargo-demo" goodUpdate callerState ["nginx:1.25"]
             callerMem) with (readRef := "") (commitIndex := (-1)%Z).
    reflexivity.
  - apply (update_stops_at_first_failure readRef failingCredentials
             render "kargo-demo" goodUpdate callerState ["nginx:1.25"]
             callerMem)
      with (readRef := "main") (commitIndex := 0%Z)
           (creds := mkCreds "" "" "") (ok := false).
    + reflexivity.
    + reflexivity.
Defined.

(** X11 on the repository whose rendering fails. *)
Lemma update_error_writes_nothing_witness :
  callerState = callerState /\
  store (mkMem (store callerMem) ([] : World)) = store callerMem.
Proof.
  apply (update_error_writes_nothing readRef noCredentials render
           "kargo-demo" badUpdate callerState ["nginx:1.25"] callerMem
           callerState (ErrRenderingManifests "https://bad" "render failed")
           (mkMem (store callerMem) [])).
  reflexivity.
Defined.

(** X12 on a read-ref function that names the sixth of one commit. *)
Lemma update_panics_on_stray_index_witness :
  @doSingleUpdate World string strayReadRef noCredentials render
    "kargo-demo" goodUpdate callerState ["nginx:1.25"] callerMem
  = Panic (mkMem (store callerMem) ["https://good"]).
Proof.
  apply (update_panics_on_stray_index strayReadRef noCredentials render
           "kargo-demo" goodUpdate callerState ["nginx:1.25"] callerMem
           (mkMem (store callerMem) ["https://good"])).
  exists "main", 5%Z, (mkCreds "" "" ""), false, [],
         (mkResponse ActionTakenPushedDirectly "rendered1"), ["https://good"].
  repeat split; try reflexivity.
  discriminate.
Defined.

(** X13 on a render collaborator that opens a pull request. *)
Lemma update_without_record_witness :
  @doSingleUpdate World string readRef noCredentials renderWithPR
    "kargo-demo" goodUpdate callerState ["nginx:1.25"] callerMem
  = Ret callerState None (mkMem (store callerMem) ["https://good"]).
Proof.
  apply (update_without_record readRef noCredentials renderWithPR
           "kargo-demo" goodUpdate callerState ["nginx:1.25"] callerMem
           "main" 0%Z (mkCreds "" "" "") false []
           (mkResponse ActionTakenOpenedPR "pr-commit") ["https://good"]).
  - reflexivity.
  - reflexivity.
  - reflexivity.
  - left. reflexivity.
Defined.

(** X14 on the promotion that renders the one commit of the caller. *)
Lemma promote_keeps_commit_identity_witness :
  exists s err m',
    PromoteDefault readRef noCredentials render (Some goodStage)
                   callerState callerMem
    = Ret s err m' /\
    (fun c => (commit_RepoURL c, commit_ID c))
      <$> contents (store m') (state_Commits s)
    = [("https://good", "abc123")] /\
    state_Images s = [mkImage "nginx" "1.25"].
Proof.
  eexists _, _, _. split; [reflexivity|].
  eapply (promote_keeps_commit_identity readRef noCredentials render
            goodStage callerState callerMem).
  reflexivity.
Defined.

(** X15 on the same promotion. *)
Lemma promote_runs_all_updates_witness :
  exists s1 m1,
    Promote testUpdate (Some goodStage) callerState callerMem
    = Ret s1 None m1 /\
    world m1 = ["https://good"].
Proof.
  eexists _, _. split.
  - eapply (promote_runs_all_updates testUpdate goodStage callerState
              callerMem).
    + discriminate.
    + reflexivity.
    + eapply processed_cons; [reflexivity | apply processed_nil].
  - reflexivity.
Defined.

End PromotionFacts.

(** ** The git-overwrite configuration schema *)

Module GitOverwriteFacts.
Import Json GitOverwriteSchema.

(** X17. The git-overwrite schema accepts exactly the objects that
    have a non-empty string [inPath], a non-empty string [outPath] and no
    other key. *)
Theorem git_overwrite_valid_iff (config : value) :
  validate GitOverwriteConfig config = Valid <->
  exists fields inPath outPath,
    config = JObject fields /\
    field "inPath" fields = Some (JString inPath) /\ inPath <> "" /\
    field "outPath" fields = Some (JString outPath) /\ outPath <> "" /\
    Forall (fun kv => kv.1 = "inPath" \/ kv.1 = "outPath") fields.
Proof.
  assert (Hkeys : forall fields : list (string * value),
    forallb (fun '(name, _) => bool_decide (name ∈ ["inPath"; "outPath"]))
            fields = true <->
    Forall (fun kv => kv.1 = "inPath" \/ kv.1 = "outPath") fields).
  { intros fields. induction fields as [|[k v] rest IH]; simpl.
    - split; [constructor | reflexivity].
    - rewrite andb_true_iff, IH, Forall_cons, bool_decide_eq_true. simpl.
      rewrite !elem_of_cons, elem_of_nil. tauto. }
  unfold validate.
  destruct (valid GitOverwriteConfig config) eqn:Hv.
  - split; [intros _ | reflexivity].
    unfold valid, GitOverwriteConfig in Hv. cbn [forallb] in Hv.
    repeat (apply andb_true_iff in Hv; destruct Hv as [? Hv]).
    destruct config as [| | | | |fields]; try discriminate.
    match goal with
    | Ha : validKeyword _ (KAdditionalProperties _) _ = true,
      Hr : validKeyword _ (KRequired _) _ = true,
      Hp : validKeyword _ (KProperties _) _ = true |- _ =>
        cbn in Ha, Hr, Hp; apply Hkeys in Ha; revert Ha Hr Hp
    end.
    destruct (field "inPath" fields) as [[| | |[|a1 i1]| |]|] eqn:Hi;
      destruct (field "outPath" fields) as [[| | |[|a2 i2]| |]|] eqn:Ho;
      cbn; intros Ha Hr Hp; try discriminate.
    exists fields, (String a1 i1), (String a2 i2).
    repeat split; try assumption; discriminate.
  - split; [discriminate|].
    intros (fields & inPath & outPath & -> & Hi & Hin & Ho & Hon & Hk).
    exfalso. apply Hkeys in Hk.
    unfold valid, GitOverwriteConfig in Hv. cbn in Hv.
    rewrite Hk, Hi, Ho in Hv. cbn in Hv.
    destruct inPath; [congruence|]. destruct outPath; [congruence|].
    discriminate Hv.
Qed.

Lemma git_overwrite_valid_iff_witness :
  validate GitOverwriteConfig copyConfig = Valid /\
  validate GitOverwriteConfig extraKeyConfig = ConfigInvalid.
Proof.
  split.
  - apply (git_overwrite_valid_iff copyConfig).
    exists [ ("inPath", JString "./src"); ("outPath", JString "./out") ],
           "./src", "./out".
    split; [reflexivity|]. split; [reflexivity|]. split; [discriminate|].
    split; [reflexivity|]. split; [discriminate|].
    constructor; [left; reflexivity|].
    constructor; [right; reflexivity|]. constructor.
  - reflexivity.
Defined.

End GitOverwriteFacts.

(** ** The Docker Hub webhook service *)

Module DockerhubFacts.
Import Dockerhub.

Lemma subscribes_existsb repo subs :
  subscribes repo subs
  = existsb (fun sub => String.eqb (sub_RepoURL sub) repo) subs.
Proof.
  induction subs as [|sub rest IH]; [reflexivity|]. simpl.
  destruct (String.eqb (sub_RepoURL sub) repo); [reflexivity | exact IH].
Qed.

Lemma subscribedTracks_filter repo tracks :
  forall subscribed,
    subscribedTracks repo tracks subscribed
    = subscribed ++
      List.filter
        (fun track =>
           existsb (fun sub => String.eqb (sub_RepoURL sub) repo)
                   (track_RepositorySubscriptions track))
        tracks.
Proof.
  induction tracks as [|track rest IH]; intros subscribed; simpl.
  - now rewrite app_nil_r.
  - rewrite subscribes_existsb.
    destruct (existsb _ (track_RepositorySubscriptions track)).
    + rewrite IH, <- app_assoc. reflexivity.
    + apply IH.
Qed.

Section Service.

Context {World Err : Type}.
Variable namespace : string.
Variable listTracks : string -> World -> (list Track * option Err) * World.
Variable createTicket : Ticket -> World -> option Err * World.
Variable newUUID : World -> string * World.

Local Abbreviation subscribedTo repo :=
  (List.filter
     (fun track =>
        existsb (fun sub => String.eqb (sub_RepoURL sub) repo)
                (track_RepositorySubscriptions track))).

(** [getTracksByImageRepo] in terms of a filter of the listing. *)
Lemma getTracksByImageRepo_filter (repo : string) (w : World) :
  getTracksByImageRepo namespace listTracks repo w
  = match listTracks namespace w with
    | ((items, None), w') => ((subscribedTo repo items, None), w')
    | ((_, Some err), w') =>
        (([], Some (Wrapped "error retrieving Tracks" (Cause err))), w')
    end.
Proof.
  unfold getTracksByImageRepo.
  destruct (listTracks namespace w) as [[items [err|]] w']; [reflexivity|].
  rewrite subscribedTracks_filter. reflexivity.
Qed.

(** X18. When the listing succeeds, [getTracksByImageRepo] returns the
    listed tracks that have a subscription whose repo URL equals the
    repository, each once however many such subscriptions it has, in
    the order of the listing; when the listing fails it returns no track
    and the error wrapped as "error retrieving Tracks". Either way the
    world is the one the listing left. *)
Theorem getTracksByImageRepo_spec (repo : string) (w : World) :
  getTracksByImageRepo namespace listTracks repo w
  = match listTracks namespace w with
    | ((items, None), w') => ((subscribedTo repo items, None), w')
    | ((_, Some err), w') =>
        (([], Some (Wrapped "error retrieving Tracks" (Cause err))), w')
    end.
Proof.
  unfold getTracksByImageRepo.
  destruct (listTracks namespace w) as [[items [err|]] w']; [reflexivity|].
  rewrite subscribedTracks_filter. reflexivity.
Qed.

(** The loop of [Handle] hands to [Create] one ticket per track it
    reaches, and reaches all of them when it returns no error. *)
Lemma createTickets_tickets repo tag tracks :
  forall submitted w,
    exists new,
      handled_tickets (createTickets namespace createTicket newUUID
                         repo tag tracks submitted w)
      = submitted ++ new /\
      Forall2
        (fun track ticket =>
           ticket_Namespace ticket = namespace /\
           ticket_Track ticket = track_Name track /\
           ticket_Change ticket = mkChange (Some (mkNewImage repo tag)))
        (take (length new) tracks) new /\
      match handled_err (createTickets namespace createTicket newUUID
                           repo tag tracks submitted w) with
      | None => length new = length tracks
      | Some e =>
          exists ticket cause,
            last new = Some ticket /\
            e = Wrapped ("error creating Ticket " +:+ ticket_Name ticket)
                        (Cause cause)
      end.
Proof.
  induction tracks as [|track rest IH]; intros submitted w; simpl.
  - exists []. rewrite app_nil_r. repeat split. constructor.
  - destruct (newUUID w) as [name w1].
    destruct (createTicket _ w1) as [[err|] w2]; simpl.
    + eexists [_]. repeat split.
      * constructor; [repeat split | constructor].
      * eexists _, err. split; reflexivity.
    + match goal with
      | |- context [createTickets _ _ _ _ _ _ ?t ?w'] =>
          destruct (IH t w') as (new & Ht & HF & He)
      end.
      eexists (_ :: new). rewrite Ht, <- app_assoc. simpl. repeat split.
      * constructor; [repeat split | exact HF].
      * destruct (handled_err _) as [e|].
        -- destruct He as (ticket & cause & Hlast & ->).
           exists ticket, cause. split; [|reflexivity].
           destruct new; [discriminate Hlast | exact Hlast].
        -- now f_equal.
Qed.


(** X19. Every ticket [Handle] hands to [Create] is in the configured
    namespace, names a track subscribed to the pushed repository and
    carries the pushed repository and tag as its new image; the tickets
    follow the subscribed tracks in the order of the listing, one each,
    and when [Handle] returns no error every subscribed track has got
    its ticket. *)
Theorem Handle_tickets (payload : BuildPayload) (w : World) items w' :
  listTracks namespace w = ((items, None), w') ->
  let h := Handle namespace listTracks createTicket newUUID payload w in
  Forall2
    (fun track ticket =>
       ticket_Namespace ticket = namespace /\
       ticket_Track ticket = track_Name track /\
       ticket_Change ticket
       = mkChange (Some (mkNewImage (payload_RepoName payload)
                                    (payload_Tag payload))))
    (take (length (handled_tickets h))
          (subscribedTo (payload_RepoName payload) items))
    (handled_tickets h) /\
  (handled_err h = None ->
   length (handled_tickets h)
   = length (subscribedTo (payload_RepoName payload) items)).
Proof.
  intros Hlist h. subst h. unfold Handle.
  rewrite getTracksByImageRepo_filter, Hlist.
  destruct (createTickets_tickets (payload_RepoName payload)
              (payload_Tag payload)
              (subscribedTo (payload_RepoName payload) items) [] w')
    as (new & Ht & HF & He).
  rewrite Ht. simpl. split; [exact HF|].
  intros Hnone. rewrite Hnone in He. exact He.
Qed.


End Service.

(** X19 on the demo cluster: two of the three tracks are subscribed. *)
Lemma Handle_tickets_witness :
  handled_tickets (Handle "k8sta" listDemo createAll nameFromCounter
                     (mkPayload "nginx" "1.25") 0%nat)
  = [ mkTicket "ticket-a" "k8sta" "frontend"
               (mkChange (Some (mkNewImage "nginx" "1.25")));
      mkTicket "ticket-b" "k8sta" "edge"
               (mkChange (Some (mkNewImage "nginx" "1.25"))) ] /\
  length (handled_tickets (Handle "k8sta" listDemo createAll nameFromCounter
                             (mkPayload "nginx" "1.25") 0%nat))
  = length (List.filter
              (fun track =>
                 existsb (fun sub => String.eqb (sub_RepoURL sub) "nginx")
                         (track_RepositorySubscriptions track))
              demoTracks).
Proof.
  split; [reflexivity|].
  apply (Handle_tickets "k8sta" listDemo createAll nameFromCounter
           (mkPayload "nginx" "1.25") 0%nat demoTracks 0%nat).
  - reflexivity.
  - reflexivity.
Defined.


End DockerhubFacts.

(** ** The helm-template directive *)

Module HelmTemplateFacts.
Import HelmTemplate.

Section Directive.

Context {World Err Raw Values HelmChart Dependencies KubeVersion : Type}.
Variable validateConfig : Raw -> option Err.
Variable configToStruct : Raw -> HelmTemplateConfig * option Err.
Variable SecureJoin : string -> string -> World -> string * option Err.
Variable MergeValues : list string -> World -> Values * option Err.
Variable Load : string -> World -> HelmChart * option Err.
Variable DependenciesOf : HelmChart -> option Dependencies.
Variable CheckDependencies : HelmChart -> Dependencies -> option Err.
Variable ParseKubeVersion : string -> KubeVersion * option Err.
Variable RunWithContext :
  @Install KubeVersion -> HelmChart -> Values -> World ->
  (string * option Err) * World.
Variable Dir : string -> string.
Variable MkdirAll : string -> World -> option Err * World.
Variable WriteFile : string -> string -> World -> option Err * World.

Local Abbreviation runDirective :=
  (@Run World Err Raw Values HelmChart Dependencies KubeVersion
        validateConfig configToStruct SecureJoin MergeValues Load
        DependenciesOf CheckDependencies ParseKubeVersion RunWithContext
        Dir MkdirAll WriteFile).
Local Abbreviation runConfigured :=
  (@run World Err Raw Values HelmChart Dependencies KubeVersion
        SecureJoin MergeValues Load DependenciesOf CheckDependencies
        ParseKubeVersion RunWithContext Dir MkdirAll WriteFile).
Local Abbreviation write :=
  (@writeOutput World Err SecureJoin Dir MkdirAll WriteFile).
Local Abbreviation newInstall :=
  (@newInstallAction Err KubeVersion ParseKubeVersion).
Local Abbreviation compose :=
  (@composeValues World Err Values SecureJoin MergeValues).

(** What [writeOutput] does to the file system, by its error. *)
Lemma writeOutput_ops workDir outPath manifest (w : World) :
  let '(err, ops, _) := write workDir outPath manifest w in
  (ops = [] /\ err <> None) \/
  exists absOutPath,
    SecureJoin workDir outPath w = (absOutPath, None) /\
    ((ops = [OpMkdirAll (Dir absOutPath)] /\ err <> None) \/
     ops = [OpMkdirAll (Dir absOutPath); OpWriteFile absOutPath manifest]) /\
    (err = None ->
     ops = [OpMkdirAll (Dir absOutPath); OpWriteFile absOutPath manifest]).
Proof.
  unfold writeOutput.
  destruct (SecureJoin workDir outPath w) as [absOutPath [e|]]; cbn.
  - left. split; [reflexivity | discriminate].
  - destruct (MkdirAll (Dir absOutPath) w) as [[e|] w1]; cbn.
    + right. exists absOutPath. split; [reflexivity|].
      split; [left; split; [reflexivity | discriminate] | discriminate].
    + destruct (WriteFile absOutPath manifest w1) as [err w2]; cbn.
      right. exists absOutPath. split; [reflexivity|].
      split; [right; reflexivity | reflexivity].
Qed.

(** X21. The directive reports success exactly when it returns no
    error: the status is [StatusSuccess] with a nil error and
    [StatusFailure] with every error, whichever step failed. *)
Theorem Run_status_matches_error (stepCtx : @StepContext Raw) (w : World) :
  result_Status (out_result (runDirective stepCtx w)) = StatusSuccess <->
  out_err (runDirective stepCtx w) = None.
Proof.
  unfold Run, run, failed.
  destruct (validateConfig _) as [e|]; [split; discriminate|].
  destruct (configToStruct _) as [cfg [e|]]; [split; discriminate|].
  destruct (composeValues _ _ _ _ _) as [values|e]; [|split; discriminate].
  destruct (loadChart _ _ _ _ _) as [chart|e]; [|split; discriminate].
  destruct (checkDependencies _ _ _) as [e|]; [split; discriminate|].
  destruct (newInstallAction _ _ _) as [install|e]; [|split; discriminate].
  destruct (RunWithContext _ _ _ _) as [[manifest [e|]] w1];
    [split; discriminate|].
  destruct (writeOutput _ _ _ _ _ _ _ _) as [[[e|] ops] w2];
    split; (discriminate || reflexivity).
Qed.

(** X22. The directive changes the file system only after the chart
    has rendered, and only at the output path: it makes no such call at
    all, or creates the directory of the joined output path, or creates
    it and then writes the rendered manifest to the joined output path;
    and when it succeeds it has done both. *)
Theorem Run_writes_only_rendered_manifest
    (stepCtx : @StepContext Raw) (w : World) :
  let o := runDirective stepCtx w in
  (out_fs o = [] /\ out_err o <> None) \/
  exists cfg (install : @Install KubeVersion) chart values manifest w1
         absOutPath,
    configToStruct (ctx_Config stepCtx) = (cfg, None) /\
    newInstall cfg (ctx_Project stepCtx) = Ok install /\
    RunWithContext install chart values w = ((manifest, None), w1) /\
    SecureJoin (ctx_WorkDir stepCtx) (cfg_OutPath cfg) w1
    = (absOutPath, None) /\
    ((out_fs o = [OpMkdirAll (Dir absOutPath)] /\ out_err o <> None) \/
     out_fs o
     = [OpMkdirAll (Dir absOutPath); OpWriteFile absOutPath manifest]) /\
    (out_err o = None ->
     out_fs o
     = [OpMkdirAll (Dir absOutPath); OpWriteFile absOutPath manifest]).
Proof.
  intros o. subst o. unfold Run, run, failed.
  destruct (validateConfig _) as [e|];
    [left; split; [reflexivity | discriminate]|].
  destruct (configToStruct _) as [cfg [e|]] eqn:Hcfg;
    [left; split; [reflexivity | discriminate]|].
  destruct (composeValues _ _ _ _ _) as [values|e];
    [|left; split; [reflexivity | discriminate]].
  destruct (loadChart _ _ _ _ _) as [chart|e];
    [|left; split; [reflexivity | discriminate]].
  destruct (checkDependencies _ _ _) as [e|];
    [left; split; [reflexivity | discriminate]|].
  destruct (newInstallAction _ _ _) as [install|e] eqn:Hinstall;
    [|left; split; [reflexivity | discriminate]].
  destruct (RunWithContext _ _ _ _) as [[manifest [e|]] w1] eqn:Hrender;
    [left; split; [reflexivity | discriminate]|].
  pose proof (writeOutput_ops (ctx_WorkDir stepCtx) (cfg_OutPath cfg)
                manifest w1) as Hops.
  destruct (writeOutput _ _ _ _ _ _ _ _) as [[err ops] w2].
  destruct Hops as [[-> Herr] | (absOutPath & Hjoin & Hcase & Hall)].
  - left. destruct err; [split; [reflexivity | discriminate] | congruence].
  - right. exists cfg, install, chart, values, manifest, w1, absOutPath.
    repeat split; try assumption.
    + destruct err as [e|]; simpl.
      * destruct Hcase as [[-> _] | ->];
          [left; split; [reflexivity | discriminate] | right; reflexivity].
      * right. apply Hall. reflexivity.
    + destruct err as [e|]; simpl; [discriminate|].
      intros _. apply Hall. reflexivity.
Qed.

(** X23. The install action is always a client-side dry run that
    replaces; its release name is the configured one, and
    [release-name] when none is configured, so never empty; its
    namespace is the configured one or else the project; the CRD and
    API version settings are the configured ones; and a Kubernetes
    version is parsed only when one is configured. The action cannot be
    made exactly when a configured version does not parse. *)
Theorem newInstallAction_spec (cfg : HelmTemplateConfig) (project : string) :
  match newInstall cfg project with
  | Ok install =>
      install_DryRun install = true /\
      install_DryRunOption install = "client" /\
      install_ClientOnly install = true /\
      install_Replace install = true /\
      install_ReleaseName install <> "" /\
      (cfg_ReleaseName cfg <> "" ->
       install_ReleaseName install = cfg_ReleaseName cfg) /\
      (cfg_ReleaseName cfg = "" ->
       install_ReleaseName install = "release-name") /\
      install_IncludeCRDs install = cfg_IncludeCRDs cfg /\
      install_APIVersions install = cfg_APIVersions cfg /\
      install_Namespace install
      = (if String.eqb (cfg_Namespace cfg) "" then project
         else cfg_Namespace cfg) /\
      (cfg_KubeVersion cfg = "" -> install_KubeVersion install = None) /\
      (cfg_KubeVersion cfg <> "" ->
       exists v, ParseKubeVersion (cfg_KubeVersion cfg) = (v, None) /\
                 install_KubeVersion install = Some v)
  | Fail err =>
      cfg_KubeVersion cfg <> "" /\
      exists v cause,
        ParseKubeVersion (cfg_KubeVersion cfg) = (v, Some cause) /\
        err = FailedToParseKubeVersion (cfg_KubeVersion cfg)
                                       (LibraryError cause)
  end.
Proof.
  assert (Hname : defaultValue (cfg_ReleaseName cfg) "release-name" <> "" /\
                  (cfg_ReleaseName cfg <> "" ->
                   defaultValue (cfg_ReleaseName cfg) "release-name"
                   = cfg_ReleaseName cfg) /\
                  (cfg_ReleaseName cfg = "" ->
                   defaultValue (cfg_ReleaseName cfg) "release-name"
                   = "release-name")).
  { unfold defaultValue.
    destruct (String.eqb (cfg_ReleaseName cfg) "") eqn:E.
    - apply String.eqb_eq in E.
      split; [discriminate | split; [congruence | reflexivity]].
    - apply String.eqb_neq in E.
      split; [exact E | split; [reflexivity | congruence]]. }
  destruct Hname as (Hne & Hcfg & Hdef).
  unfold newInstallAction.
  destruct (String.eqb (cfg_KubeVersion cfg) "") eqn:Hk; simpl.
  - apply String.eqb_eq in Hk. repeat split; auto. congruence.
  - apply String.eqb_neq in Hk.
    destruct (ParseKubeVersion (cfg_KubeVersion cfg)) as [v [cause|]]; simpl.
    + split; [exact Hk|]. exists v, cause. split; reflexivity.
    + repeat split; auto; [congruence|].
      intros _. exists v. split; reflexivity.
Qed.

(** The loop of [composeValues] joins the files in their order and
    stops at the first that does not join. *)
Lemma joinValueFiles_spec workDir (w : World) valuesFiles :
  forall joined,
    match @joinValueFiles World Err SecureJoin workDir valuesFiles joined w
    with
    | Ok files =>
        exists new,
          files = joined ++ new /\
          Forall2 (fun p abs => SecureJoin workDir p w = (abs, None))
                  valuesFiles new
    | Fail err =>
        exists i p cause,
          valuesFiles !! i = Some p /\
          (SecureJoin workDir p w).2 = Some cause /\
          err = FailedToJoinPath p (LibraryError cause) /\
          forall j q, (j < i)%nat -> valuesFiles !! j = Some q ->
                      (SecureJoin workDir q w).2 = None
    end.
Proof.
  induction valuesFiles as [|p rest IH]; intros joined; simpl.
  - exists []. rewrite app_nil_r. split; [reflexivity | constructor].
  - destruct (SecureJoin workDir p w) as [abs [cause|]] eqn:Hj.
    + exists 0%nat, p, cause. rewrite Hj. repeat split; auto.
      intros j q Hlt. lia.
    + specialize (IH (joined ++ [abs])).
      destruct (joinValueFiles _ _ _ _ _) as [files|err].
      * destruct IH as (new & -> & HF). exists (abs :: new).
        rewrite <- app_assoc. split; [reflexivity|].
        constructor; assumption.
      * destruct IH as (i & q & cause & Hq & Hc & -> & Hmin).
        exists (S i), q, cause. repeat split; auto.
        intros [|j] q' Hlt Hq'; simpl in Hq'.
        -- injection Hq' as <-. rewrite Hj. reflexivity.
        -- eapply Hmin; [|exact Hq']. lia.
Qed.

(** X24. [composeValues] merges the value files joined to the work
    directory, all of them and in the order given; it merges nothing
    when one of them does not join, and then its error names the first
    such file; an error of the merge is returned as it is. *)
Theorem composeValues_spec workDir (valuesFiles : list string) (w : World) :
  match compose workDir valuesFiles w with
  | Ok values =>
      exists files,
        Forall2 (fun p abs => SecureJoin workDir p w = (abs, None))
                valuesFiles files /\
        MergeValues files w = (values, None)
  | Fail err =>
      (exists i p cause,
         valuesFiles !! i = Some p /\
         (SecureJoin workDir p w).2 = Some cause /\
         err = FailedToJoinPath p (LibraryError cause) /\
         forall j q, (j < i)%nat -> valuesFiles !! j = Some q ->
                     (SecureJoin workDir q w).2 = None) \/
      (exists files cause,
         Forall2 (fun p abs => SecureJoin workDir p w = (abs, None))
                 valuesFiles files /\
         (MergeValues files w).2 = Some cause /\
         err = LibraryError cause)
  end.
Proof.
  unfold composeValues.
  pose proof (joinValueFiles_spec workDir w valuesFiles []) as Hj.
  destruct (joinValueFiles _ _ _ _ _) as [files|err].
  - destruct Hj as (new & -> & HF). simpl.
    destruct (MergeValues new w) as [values [cause|]] eqn:Hm.
    + right. exists new, cause. rewrite Hm. repeat split; assumption.
    + exists new. split; assumption.
  - left. exact Hj.
Qed.

End Directive.

(** The demo run creates the output directory and writes the manifest. *)
Lemma demoRun_example :
  out_fs (demoRun demoContext [])
  = [ OpMkdirAll "/work/out";
      OpWriteFile "/work/out/app.yaml"
                  "# release-name from /work/charts/app" ].
Proof. reflexivity. Qed.

End HelmTemplateFacts.

(** ** The generated deep copies *)

Module DeepCopyFacts.
Import DeepCopy.

Section Facts.

Context {Plain Meta : Type}.

Local Abbreviation Heap := (@Heap Plain).
Local Abbreviation preserved := (@preserved Plain).

Lemma preserved_refl (h : Heap) : preserved h h.
Proof. repeat split; reflexivity. Qed.

Lemma preserved_dom_strings (h h' : Heap) l :
  preserved h h' -> l ∈ dom (h_strings h) -> l ∈ dom (h_strings h').
Proof.
  intros (Hs & _) Hl. apply elem_of_dom. rewrite (Hs l Hl).
  apply elem_of_dom. exact Hl.
Qed.

Lemma preserved_trans (h1 h2 h3 : Heap) :
  preserved h1 h2 -> preserved h2 h3 -> preserved h1 h3.
Proof.
  intros (Hs & Hi & Hb & He) (Hs' & Hi' & Hb' & He').
  repeat split; intros l Hl.
  - rewrite Hs' by (apply elem_of_dom; rewrite (Hs l Hl);
                    apply elem_of_dom; exact Hl). apply Hs, Hl.
  - rewrite Hi' by (apply elem_of_dom; rewrite (Hi l Hl);
                    apply elem_of_dom; exact Hl). apply Hi, Hl.
  - rewrite Hb' by (apply elem_of_dom; rewrite (Hb l Hl);
                    apply elem_of_dom; exact Hl). apply Hb, Hl.
  - rewrite He' by (apply elem_of_dom; rewrite (He l Hl);
                    apply elem_of_dom; exact Hl). apply He, Hl.
Qed.

Lemma stringsAt_preserved (h h' : Heap) s :
  preserved h h' ->
  (forall l, s = Some l -> l ∈ dom (h_strings h)) ->
  stringsAt h' s = stringsAt h s.
Proof.
  intros (Hs & _) Hin. destruct s as [l|]; [|reflexivity]. simpl.
  rewrite Hs by (apply Hin; reflexivity). reflexivity.
Qed.

(** The copy of a slice of strings. *)
Lemma copyStrings_spec (s : option loc) (h : Heap) :
  preserved h (copyStrings s h).2 /\
  stringsAt (copyStrings s h).2 (copyStrings s h).1 = stringsAt h s /\
  (fst (copyStrings s h) = None <-> s = None) /\
  (forall l', (copyStrings s h).1 = Some l' ->
     (l' ∉ dom (h_strings h)) /\ l' ∈ dom (h_strings (copyStrings s h).2)) /\
  h_images (copyStrings s h).2 = h_images h /\
  h_subs (copyStrings s h).2 = h_subs h /\
  h_envs (copyStrings s h).2 = h_envs h.
Proof.
  destruct s as [l|]; simpl.
  - pose proof (is_fresh (dom (h_strings h))) as Hfresh.
    repeat split; try reflexivity; try discriminate.
    + intros l0 Hl0. apply lookup_insert_ne. intros E.
      rewrite E in Hfresh. contradiction.
    + rewrite lookup_insert_eq. reflexivity.
    + injection H as <-. exact Hfresh.
    + injection H as <-. apply elem_of_dom. rewrite lookup_insert_eq. eauto.
  - repeat split; try reflexivity; try discriminate; auto.
Qed.

(** X25. The deep copy of an environment, and of a repository
    subscription, has the same plain fields and the same strings in its
    slice; a nil slice stays nil, and a slice that is not nil gets an
    array that did not exist before, so that the copy shares no array
    with the original; nothing that was in memory is changed. *)
Theorem slice_struct_deep_copies (h : Heap) :
  (forall e : Environment,
     let e' := (Environment_DeepCopyInto e h).1 in
     let h' := (Environment_DeepCopyInto e h).2 in
     envValue h' e' = envValue h e /\
     ((env_Applications e' = None) <-> (env_Applications e = None)) /\
     (forall l', env_Applications e' = Some l' -> l' ∉ dom (h_strings h)) /\
     preserved h h') /\
  (forall r : RepositorySubscription,
     let r' := (RepositorySubscription_DeepCopyInto r h).1 in
     let h' := (RepositorySubscription_DeepCopyInto r h).2 in
     subValue h' r' = subValue h r /\
     ((sub_IgnoreTagsTags r' = None) <-> (sub_IgnoreTagsTags r = None)) /\
     (forall l', sub_IgnoreTagsTags r' = Some l' ->
                 l' ∉ dom (h_strings h)) /\
     preserved h h').
Proof.
  split.
  - intros e.
    destruct (copyStrings_spec (env_Applications e) h)
      as (Hp & Hv & Hn & Hf & _).
    unfold Environment_DeepCopyInto, envValue.
    destruct (copyStrings (env_Applications e) h) as [apps h'].
    simpl in *. repeat split; try tauto.
    + now rewrite Hv.
    + intros l' Hl'. apply (Hf l' Hl').
    + apply Hp.
    + apply Hp.
    + apply Hp.
    + apply Hp.
  - intros r.
    destruct (copyStrings_spec (sub_IgnoreTagsTags r) h)
      as (Hp & Hv & Hn & Hf & _).
    unfold RepositorySubscription_DeepCopyInto, subValue.
    destruct (copyStrings (sub_IgnoreTagsTags r) h) as [tags h'].
    simpl in *. repeat split; try tauto.
    + now rewrite Hv.
    + intros l' Hl'. apply (Hf l' Hl').
    + apply Hp.
    + apply Hp.
    + apply Hp.
    + apply Hp.
Qed.

(** X26. The deep copy of a change keeps a nil [NewImage] nil and gives
    a [NewImage] that is not nil a struct of its own, equal to the one
    of the original and at an address that did not exist before;
    nothing that was in memory is changed. *)
Theorem Change_DeepCopyInto_spec (c : Change) (h : Heap) :
  let c' := (Change_DeepCopyInto c h).1 in
  let h' := (Change_DeepCopyInto c h).2 in
  (change_NewImage c = None -> c' = c /\ h' = h) /\
  (forall p v, change_NewImage c = Some p -> h_images h !! p = Some v ->
     exists p',
       change_NewImage c' = Some p' /\
       (p' ∉ dom (h_images h)) /\
       h_images h' !! p' = Some v /\
       h_images h' !! p = Some v) /\
  preserved h h'.
Proof.
  unfold Change_DeepCopyInto.
  pose proof (is_fresh (dom (h_images h))) as Hfresh.
  destruct (change_NewImage c) as [p|] eqn:Hc; simpl.
  - repeat split; try reflexivity; try discriminate.
    + intros p0 v [= <-] Hv. exists (fresh (dom (h_images h))).
      rewrite Hv. simpl. repeat split.
      * exact Hfresh.
      * apply lookup_insert_eq.
      * rewrite lookup_insert_ne; [exact Hv|]. intros E.
        rewrite E in Hfresh. apply Hfresh. apply elem_of_dom. eauto.
    + intros l Hl. apply lookup_insert_ne. intros E.
      rewrite E in Hfresh. contradiction.
  - repeat split; try reflexivity; try discriminate.
Qed.

Section Each.

(** An element type with one slice of strings, its copy function and
    what the copy is known to do. *)
Context {A : Type}.
Variable copy : A -> Heap -> A * Heap.
Variable plain : A -> Plain.
Variable ref : A -> option loc.

Hypothesis copy_spec : forall a h,
  preserved h (copy a h).2 /\
  plain (copy a h).1 = plain a /\
  stringsAt (copy a h).2 (ref (copy a h).1) = stringsAt h (ref a) /\
  (forall l', ref (copy a h).1 = Some l' ->
     (l' ∉ dom (h_strings h)) /\ l' ∈ dom (h_strings (copy a h).2)) /\
  h_subs (copy a h).2 = h_subs h /\
  h_envs (copy a h).2 = h_envs h.

Lemma copyEach_spec (l : list A) :
  forall h,
    Forall (fun a => forall l', ref a = Some l' -> l' ∈ dom (h_strings h)) l ->
    preserved h (copyEach copy l h).2 /\
    ((fun a => (plain a, stringsAt (copyEach copy l h).2 (ref a)))
       <$> (copyEach copy l h).1)
    = ((fun a => (plain a, stringsAt h (ref a))) <$> l) /\
    Forall (fun a' => forall l', ref a' = Some l' ->
              (l' ∉ dom (h_strings h)) /\
              l' ∈ dom (h_strings (copyEach copy l h).2))
           (copyEach copy l h).1 /\
    h_subs (copyEach copy l h).2 = h_subs h /\
    h_envs (copyEach copy l h).2 = h_envs h.
Proof.
  induction l as [|a rest IH]; intros h Hwf; simpl.
  - repeat split; try reflexivity. constructor.
  - destruct (copy_spec a h) as (Hp & Hpl & Hv & Hf & Hs & He).
    destruct (copy a h) as [a' h1]. simpl in *.
    assert (Hwf1 : Forall (fun a => forall l', ref a = Some l' ->
                             l' ∈ dom (h_strings h1)) rest).
    { inversion Hwf as [|? ? _ Hrest]; subst.
      eapply Forall_impl; [exact Hrest|]. simpl. intros b Hb l' Hl'.
      eapply preserved_dom_strings; [exact Hp|]. apply (Hb l' Hl'). }
    destruct (IH h1 Hwf1) as (Hp' & Hv' & Hf' & Hs' & He').
    destruct (copyEach copy rest h1) as [rest' h2]. simpl in *.
    split; [eapply preserved_trans; eassumption|].
    split; [|split; [|split; [congruence | congruence]]].
    + assert (Hhead : (plain a', stringsAt h2 (ref a'))
                      = (plain a, stringsAt h (ref a))).
      { rewrite Hpl, <- Hv.
        rewrite (stringsAt_preserved h1 h2 (ref a') Hp')
          by (intros l' Hl'; apply (Hf l' Hl')).
        reflexivity. }
      assert (Htail : ((fun a => (plain a, stringsAt h1 (ref a))) <$> rest)
                      = ((fun a => (plain a, stringsAt h (ref a))) <$> rest)).
      { inversion Hwf as [|? ? _ Hrest]; subst. clear -Hrest Hp.
        induction Hrest as [|b rest Hb Hrest IHr]; [reflexivity|].
        rewrite !fmap_cons, IHr.
        rewrite (stringsAt_preserved h h1 (ref b) Hp Hb). reflexivity. }
      exact (f_equal2 cons Hhead (eq_trans Hv' Htail)).
    + constructor.
      * intros l' Hl'. destruct (Hf l' Hl') as [Hnew Hin]. split; [exact Hnew|].
        eapply preserved_dom_strings; eassumption.
      * eapply Forall_impl; [exact Hf'|]. simpl.
        intros b Hb l' Hl'. destruct (Hb l' Hl') as [Hnew Hin].
        split; [|exact Hin]. intros Hold. apply Hnew.
        eapply preserved_dom_strings; eassumption.
Qed.

End Each.

Lemma sub_copy_spec (r : RepositorySubscription) (h : Heap) :
  preserved h (RepositorySubscription_DeepCopyInto r h).2 /\
  sub_plain (RepositorySubscription_DeepCopyInto r h).1 = sub_plain r /\
  stringsAt (RepositorySubscription_DeepCopyInto r h).2
            (sub_IgnoreTagsTags (RepositorySubscription_DeepCopyInto r h).1)
  = stringsAt h (sub_IgnoreTagsTags r) /\
  (forall l',
     sub_IgnoreTagsTags (RepositorySubscription_DeepCopyInto r h).1 = Some l' ->
     (l' ∉ dom (h_strings h)) /\
     l' ∈ dom (h_strings (RepositorySubscription_DeepCopyInto r h).2)) /\
  h_subs (RepositorySubscription_DeepCopyInto r h).2 = h_subs h /\
  h_envs (RepositorySubscription_DeepCopyInto r h).2 = h_envs h.
Proof.
  destruct (copyStrings_spec (sub_IgnoreTagsTags r) h)
    as (Hp & Hv & _ & Hf & _ & Hs & He).
  unfold RepositorySubscription_DeepCopyInto.
  destruct (copyStrings (sub_IgnoreTagsTags r) h) as [tags h'].
  simpl in *. repeat split; auto; try apply Hp; apply (Hf l'); assumption.
Qed.

Lemma env_copy_spec (e : Environment) (h : Heap) :
  preserved h (Environment_DeepCopyInto e h).2 /\
  env_plain (Environment_DeepCopyInto e h).1 = env_plain e /\
  stringsAt (Environment_DeepCopyInto e h).2
            (env_Applications (Environment_DeepCopyInto e h).1)
  = stringsAt h (env_Applications e) /\
  (forall l',
     env_Applications (Environment_DeepCopyInto e h).1 = Some l' ->
     (l' ∉ dom (h_strings h)) /\
     l' ∈ dom (h_strings (Environment_DeepCopyInto e h).2)) /\
  h_subs (Environment_DeepCopyInto e h).2 = h_subs h /\
  h_envs (Environment_DeepCopyInto e h).2 = h_envs h.
Proof.
  destruct (copyStrings_spec (env_Applications e) h)
    as (Hp & Hv & _ & Hf & _ & Hs & He).
  unfold Environment_DeepCopyInto.
  destruct (copyStrings (env_Applications e) h) as [apps h'].
  simpl in *. repeat split; auto; try apply Hp; apply (Hf l'); assumption.
Qed.

(** The values of elements whose arrays are in memory do not change
    when memory is extended. *)
Lemma subValues_preserved (h h' : Heap) (subs : list RepositorySubscription) :
  preserved h h' ->
  Forall (fun r => forall l', sub_IgnoreTagsTags r = Some l' ->
                              l' ∈ dom (h_strings h)) subs ->
  subValue h' <$> subs = subValue h <$> subs.
Proof.
  intros Hp Hwf. induction Hwf as [|r rest Hr _ IH]; [reflexivity|].
  rewrite !fmap_cons, IH. unfold subValue at 1 3.
  rewrite (stringsAt_preserved h h' _ Hp Hr). reflexivity.
Qed.

Lemma envValues_preserved (h h' : Heap) (envs : list Environment) :
  preserved h h' ->
  Forall (fun e => forall l', env_Applications e = Some l' ->
                              l' ∈ dom (h_strings h)) envs ->
  envValue h' <$> envs = envValue h <$> envs.
Proof.
  intros Hp Hwf. induction Hwf as [|e rest He _ IH]; [reflexivity|].
  rewrite !fmap_cons, IH. unfold envValue at 1 3.
  rewrite (stringsAt_preserved h h' _ Hp He). reflexivity.
Qed.

(** The copy of a slice of subscriptions: its elements, then the
    array that holds them. *)
Lemma subs_block (h : Heap) (arr : list RepositorySubscription) :
  Forall (fun r => forall l', sub_IgnoreTagsTags r = Some l' ->
                              l' ∈ dom (h_strings h)) arr ->
  let r := copyEach RepositorySubscription_DeepCopyInto arr h in
  let l' := fresh (dom (h_subs h)) in
  let h1 := mkHeap (h_strings r.2) (h_images r.2)
                   (<[l' := r.1]> (h_subs r.2)) (h_envs r.2) in
  preserved h h1 /\
  h_envs h1 = h_envs h /\
  h_subs h1 !! l' = Some r.1 /\
  subValue h1 <$> r.1 = subValue h <$> arr /\
  Forall (fun r' => forall l0, sub_IgnoreTagsTags r' = Some l0 ->
            (l0 ∉ dom (h_strings h)) /\ l0 ∈ dom (h_strings h1)) r.1 /\
  l' ∉ dom (h_subs h).
Proof.
  intros Hwf r l' h1.
  destruct (copyEach_spec RepositorySubscription_DeepCopyInto sub_plain
              sub_IgnoreTagsTags sub_copy_spec arr h Hwf)
    as (Hp & Hv & Hf & Hs & He).
  fold r in Hp, Hv, Hf, Hs, He.
  pose proof (is_fresh (dom (h_subs h))) as Hfresh. fold l' in Hfresh.
  destruct Hp as (Hp1 & Hp2 & Hp3 & Hp4).
  repeat split; simpl; auto.
  - intros l Hl. rewrite Hs. apply lookup_insert_ne. intros E.
    rewrite <- E in Hl. contradiction.
  - apply lookup_insert_eq.
Qed.

Lemma envs_block (h : Heap) (arr : list Environment) :
  Forall (fun e => forall l', env_Applications e = Some l' ->
                              l' ∈ dom (h_strings h)) arr ->
  let r := copyEach Environment_DeepCopyInto arr h in
  let l' := fresh (dom (h_envs h)) in
  let h1 := mkHeap (h_strings r.2) (h_images r.2) (h_subs r.2)
                   (<[l' := r.1]> (h_envs r.2)) in
  preserved h h1 /\
  h_subs h1 = h_subs h /\
  h_envs h1 !! l' = Some r.1 /\
  envValue h1 <$> r.1 = envValue h <$> arr /\
  Forall (fun e' => forall l0, env_Applications e' = Some l0 ->
            (l0 ∉ dom (h_strings h)) /\ l0 ∈ dom (h_strings h1)) r.1 /\
  l' ∉ dom (h_envs h).
Proof.
  intros Hwf r l' h1.
  destruct (copyEach_spec Environment_DeepCopyInto env_plain
              env_Applications env_copy_spec arr h Hwf)
    as (Hp & Hv & Hf & Hs & He).
  fold r in Hp, Hv, Hf, Hs, He.
  pose proof (is_fresh (dom (h_envs h))) as Hfresh. fold l' in Hfresh.
  destruct Hp as (Hp1 & Hp2 & Hp3 & Hp4).
  repeat split; simpl; auto.
  - intros l Hl. rewrite He. apply lookup_insert_ne. intros E.
    rewrite <- E in Hl. contradiction.
  - apply lookup_insert_eq.
Qed.

(** What [Track.DeepCopyInto] leaves: the value of the copy, the memory
    that was there, and where the arrays of the copy are. *)
Lemma Track_DeepCopyInto_facts (t : Track) (h : Heap) :
  allocated h t ->
  let t' := (Track_DeepCopyInto t h).1 in
  let h' := (Track_DeepCopyInto t h).2 in
  @trackValue Plain Meta h' t' = trackValue h t /\
  preserved h h' /\
  (forall l, track_RepositorySubscriptions t' = Some l ->
             l ∉ dom (h_subs h)) /\
  (forall l, track_Environments t' = Some l -> l ∉ dom (h_envs h)) /\
  Forall (fun l => l ∉ dom (h_strings h)) (stringArrays h' t').
Proof.
  intros [Hsubs Henvs] t' h'. subst t' h'.
  unfold Track_DeepCopyInto, trackValue, stringArrays.
  destruct (track_RepositorySubscriptions t) as [ls|] eqn:Hts.
  - destruct (Hsubs ls eq_refl) as (arr & Harr & Hwf). rewrite Harr.
    cbn [default from_option id].
    pose proof (subs_block h arr Hwf) as B. cbv zeta in B.
    destruct (copyEach RepositorySubscription_DeepCopyInto arr h)
      as [copies hA]. cbn [fst snd] in B.
    set (h1 := mkHeap (h_strings hA) (h_images hA)
                 (<[fresh (dom (h_subs h)) := copies]> (h_subs hA))
                 (h_envs hA)) in *.
    destruct B as (Hp1 & He1 & Hl1 & Hv1 & Hf1 & Hn1).
    destruct (track_Environments t) as [le|] eqn:Hte.
    + destruct (Henvs le eq_refl) as (arr2 & Harr2 & Hwf2).
      rewrite He1, Harr2. cbn [default from_option id].
      assert (Hwf2' : Forall (fun e => forall l', env_Applications e = Some l' ->
                                l' ∈ dom (h_strings h1)) arr2).
      { eapply Forall_impl; [exact Hwf2|]. simpl. intros e He l' Hl'.
        apply (preserved_dom_strings h h1 l' Hp1). apply (He l' Hl'). }
      pose proof (envs_block h1 arr2 Hwf2') as B. cbv zeta in B.
      rewrite He1 in B.
      destruct (copyEach Environment_DeepCopyInto arr2 h1)
        as [copies2 hB]. cbn [fst snd] in B.
      set (h2 := mkHeap (h_strings hB) (h_images hB) (h_subs hB)
                   (<[fresh (dom (h_envs h)) := copies2]> (h_envs hB))) in *.
      destruct B as (Hp2 & Hs2 & Hl2 & Hv2 & Hf2 & Hn2).
      cbn [fst snd track_meta track_RepositorySubscriptions
           track_Environments].
      rewrite Hl2. rewrite Hs2, Hl1. cbn [default from_option id].
      repeat split.
      * f_equal; [f_equal|].
        -- f_equal. rewrite <- Hv1. apply subValues_preserved; [exact Hp2|].
           eapply Forall_impl; [exact Hf1|]. simpl. intros r Hr l' Hl'.
           apply (Hr l' Hl').
        -- f_equal. rewrite Hv2. apply envValues_preserved; assumption.
      * apply (preserved_trans h h1 h2 Hp1 Hp2).
      * apply (preserved_trans h h1 h2 Hp1 Hp2).
      * apply (preserved_trans h h1 h2 Hp1 Hp2).
      * apply (preserved_trans h h1 h2 Hp1 Hp2).
      * intros l [= <-]. exact Hn1.
      * intros l [= <-]. exact Hn2.
      * apply Forall_app. split.
        -- apply Forall_forall. intros l Hl. apply list_elem_of_omap in Hl.
           destruct Hl as (r & Hr & Hl).
           rewrite Forall_forall in Hf1. apply (Hf1 r Hr l Hl).
        -- apply Forall_forall. intros l Hl. apply list_elem_of_omap in Hl.
           destruct Hl as (e & He & Hl).
           rewrite Forall_forall in Hf2. destruct (Hf2 e He l Hl) as [Hnew _].
           intros Hold. apply Hnew.
           apply (preserved_dom_strings h h1 l Hp1 Hold).
    + cbn [fst snd track_meta track_RepositorySubscriptions
           track_Environments].
      rewrite Hl1. cbn [default from_option id]. rewrite app_nil_r.
      repeat split; try apply Hp1.
      * f_equal. f_equal. f_equal. exact Hv1.
      * intros l [= <-]. exact Hn1.
      * discriminate.
      * apply Forall_forall. intros l Hl. apply list_elem_of_omap in Hl.
        destruct Hl as (r & Hr & Hl).
        rewrite Forall_forall in Hf1. apply (Hf1 r Hr l Hl).
  - destruct (track_Environments t) as [le|] eqn:Hte.
    + destruct (Henvs le eq_refl) as (arr2 & Harr2 & Hwf2).
      rewrite Harr2. cbn [default from_option id].
      pose proof (envs_block h arr2 Hwf2) as B. cbv zeta in B.
      destruct (copyEach Environment_DeepCopyInto arr2 h)
        as [copies2 hB]. cbn [fst snd] in B.
      set (h2 := mkHeap (h_strings hB) (h_images hB) (h_subs hB)
                   (<[fresh (dom (h_envs h)) := copies2]> (h_envs hB))) in *.
      destruct B as (Hp2 & Hs2 & Hl2 & Hv2 & Hf2 & Hn2).
      cbn [fst snd track_meta track_RepositorySubscriptions
           track_Environments].
      rewrite Hl2. cbn [default from_option id app].
      repeat split; try apply Hp2.
      * f_equal. f_equal. exact Hv2.
      * discriminate.
      * intros l [= <-]. exact Hn2.
      * apply Forall_forall. intros l Hl. apply list_elem_of_omap in Hl.
        destruct Hl as (e & He & Hl).
        rewrite Forall_forall in Hf2. apply (Hf2 e He l Hl).
    + cbn [fst snd track_meta track_RepositorySubscriptions
           track_Environments app].
      rewrite ?Hts, ?Hte.
      repeat split; try reflexivity; try discriminate. constructor.
Qed.

(** The value of a track whose slices point into memory does not change
    when memory is extended. *)
Lemma trackValue_preserved (t : Track) (h h' : Heap) :
  allocated h t -> preserved h h' ->
  @trackValue Plain Meta h' t = trackValue h t.
Proof.
  intros [Hsubs Henvs] Hp. pose proof Hp as (_ & _ & Hb & He).
  unfold trackValue. f_equal; [f_equal|].
  - destruct (track_RepositorySubscriptions t) as [l|]; [|reflexivity].
    destruct (Hsubs l eq_refl) as (arr & Harr & Hwf).
    rewrite Hb by (apply elem_of_dom; rewrite Harr; eexists; reflexivity).
    rewrite Harr. cbn [default from_option id]. f_equal.
    apply subValues_preserved; assumption.
  - destruct (track_Environments t) as [l|]; [|reflexivity].
    destruct (Henvs l eq_refl) as (arr & Harr & Hwf).
    rewrite He by (apply elem_of_dom; rewrite Harr; eexists; reflexivity).
    rewrite Harr. cbn [default from_option id]. f_equal.
    apply envValues_preserved; assumption.
Qed.

(** A write into an array that was not in memory leaves what was. *)
Lemma writeString_preserved (h h' : Heap) l i x :
  preserved h h' -> l ∉ dom (h_strings h) ->
  preserved h (writeString l i x h').
Proof.
  intros (Hs & Hi & Hb & He) Hl. unfold writeString.
  repeat split; simpl; auto.
  intros l0 Hl0. rewrite lookup_alter_ne; [apply Hs, Hl0|].
  intros E. rewrite E in Hl. contradiction.
Qed.

(** X27. The deep copy of a track whose slices point into memory has
    the same value as the track, references followed: the same metadata,
    subscriptions and environments with the same plain fields and
    strings, nil slices staying nil. Every array of the copy, of
    subscriptions, of environments and of strings, is one that did not
    exist before, and nothing that was in memory is changed. *)
Theorem Track_DeepCopyInto_spec (t : Track) (h : Heap) :
  allocated h t ->
  let t' := (Track_DeepCopyInto t h).1 in
  let h' := (Track_DeepCopyInto t h).2 in
  @trackValue Plain Meta h' t' = trackValue h t /\
  preserved h h' /\
  (forall l, track_RepositorySubscriptions t' = Some l ->
             l ∉ dom (h_subs h)) /\
  (forall l, track_Environments t' = Some l -> l ∉ dom (h_envs h)) /\
  Forall (fun l => l ∉ dom (h_strings h)) (stringArrays h' t').
Proof. exact (Track_DeepCopyInto_facts t h). Qed.

(** X28. The copy of a track shares no string with the track: after an
    assignment to an element of any slice of strings of the copy, the
    track has the value it had before the copy was made. *)
Theorem Track_copy_is_independent (t : Track) (h : Heap) l i x :
  allocated h t ->
  let t' := (Track_DeepCopyInto t h).1 in
  let h' := (Track_DeepCopyInto t h).2 in
  l ∈ stringArrays h' t' ->
  @trackValue Plain Meta (writeString l i x h') t = trackValue h t.
Proof.
  intros Ha t' h' Hl.
  destruct (Track_DeepCopyInto_facts t h Ha) as (_ & Hp & _ & _ & Hnew).
  fold t' h' in Hp, Hnew.
  rewrite Forall_forall in Hnew.
  apply trackValue_preserved; [exact Ha|].
  apply writeString_preserved; [exact Hp | exact (Hnew l Hl)].
Qed.

End Facts.

Lemma demo_allocated : allocated demoHeap demoTrack.
Proof.
  split; intros l [= <-]; eexists; (split; [reflexivity|]);
    repeat constructor; intros l' [= <-]; apply elem_of_dom;
    eexists; reflexivity.
Qed.

Lemma Track_DeepCopyInto_spec_witness :
  allocated demoHeap demoTrack /\
  trackValue (Track_DeepCopyInto demoTrack demoHeap).2
             (Track_DeepCopyInto demoTrack demoHeap).1
  = trackValue demoHeap demoTrack.
Proof.
  split; [exact demo_allocated|].
  apply (Track_DeepCopyInto_spec demoTrack demoHeap demo_allocated).
Defined.

Lemma Track_copy_is_independent_witness :
  trackValue (writeString 3%positive 0 "stable"
                (Track_DeepCopyInto demoTrack demoHeap).2) demoTrack
  = trackValue demoHeap demoTrack.
Proof.
  apply (Track_copy_is_independent demoTrack demoHeap 3%positive 0 "stable"
           demo_allocated).
  vm_compute. left.
Defined.

End DeepCopyFacts.
